(** * ulrichai front end: the chat stream decoder and the upload console

    A shallow embedding of two pieces of the TypeScript front end:

    - [handleSendMessage] of [frontend/src/components/Chat/index.tsx], which
      reads a streamed HTTP body chunk by chunk, cuts it into lines, parses
      every [data: ] line as JSON and updates the assistant message;
    - [handleFileSelect], [handleBatchFileSelect] and [handleBatchUpload] of
      the admin console, which check the file size limit and drive the batch
      progress bar from the events of an [XMLHttpRequest].

    Around them: the chat input and [handleSourceClick] of the chat,
    [conceptsList] and [cleanSummary] of the source cards, and, of the admin
    console, the editing of the batch, the list of documents, the single
    upload, the actions on a document and the system prompt.

    Conventions of the embedding.

    - A JavaScript string is a [string]: a sequence of code units, here the
      code units below 256. Every literal of the source is ASCII.
    - React state is passed explicitly; [setX (prev => f prev)] is the update
      of the field by [f] at the place of the call, as when React applies
      each update before the handler goes on. Where React batches updates,
      an updater reads the variables of the loop when React runs it, which
      may be later: a message can then show the text and the sources of a
      later line of the same batch. [Updates] is the read loop with the
      updaters in a queue and the renders as events of their own. The
      decoded events and the variables of the loop are the same either way.
    - What the transport delivers (the chunks of the body, the events of the
      request, the clock) is an argument of the handler.
    - [console.*] output is not part of the state.
    - A [throw] is a result of its own, see [Res]. *)

From Stdlib Require Import ZArith QArith Qround Lia Lqa List Bool Sorted.
From Stdlib Require Import Strings.String Strings.Ascii.
From Stdlib Require Import Numbers.DecimalString.
Import ListNotations.

Open Scope list_scope.
Open Scope Z_scope.
Open Scope string_scope.

Set Warnings "-register-all,-notation-for-abbreviation".

(** ** JavaScript values and the operations the handlers use *)

Module JS.

(** A value as [JSON.parse] and property reads produce it. A number is kept as
    the decimal [m * 10^e] of its literal and stands for the double nearest to
    it. The fields of an object are listed in the order of the text. *)
Inductive JsValue : Type :=
| JUndefined
| JNull
| JBool (b : bool)
| JNum (m e : Z)
| JStr (s : string)
| JArr (items : list JsValue)
| JObj (fields : list (string * JsValue)).

Inductive JsError : Type :=
| SyntaxError
| TypeError
| Error (message : string)
| NetworkFailure.

(** What the JavaScript engine supplies and the source does not define. *)
Class JsRuntime : Type := {
  (** [JSON.parse]; [None] when it throws a SyntaxError. *)
  JSON_parse : string -> option JsValue;
  (** [String(x)] for the number [m * 10^e]. *)
  Number_toString : Z -> Z -> string
}.

Definition LF : ascii := "010"%char.
Definition DQUOTE : ascii := "034"%char.
Definition nl : string := String LF "".

(** The last binding of a key wins, as when [JSON.parse] meets a key twice. *)
Fixpoint lookup (k : string) (fields : list (string * JsValue)) : option JsValue :=
  match fields with
  | [] => None
  | (k', v) :: rest =>
      match lookup k rest with
      | Some w => Some w
      | None => if String.eqb k k' then Some v else None
      end
  end.

(** [v.k] for the property names the handlers read ([type], [sources],
    [content], [error], [results], [status]); no prototype defines one of
    them, so only an own property of an object gives a value. [None] is the
    TypeError of reading a property of [null] or [undefined]. *)
Definition Get (v : JsValue) (k : string) : option JsValue :=
  match v with
  | JUndefined | JNull => None
  | JObj fields =>
      match lookup k fields with
      | Some w => Some w
      | None => Some JUndefined
      end
  | _ => Some JUndefined
  end.

(** [v === 'lit'] *)
Definition strict_eq_str (v : JsValue) (lit : string) : bool :=
  match v with
  | JStr s => String.eqb s lit
  | _ => false
  end.

(** The double nearest to [m * 10^e] is zero: [|m * 10^e| <= 2^-1075]. *)
Definition rounds_to_zero (m e : Z) : bool :=
  (if m =? 0 then true
   else if 0 <=? e then false
   else Z.abs m * 2 ^ 1075 <=? 10 ^ (- e))%Z.

Definition ToBoolean (v : JsValue) : bool :=
  match v with
  | JUndefined | JNull => false
  | JBool b => b
  | JNum m e => negb (rounds_to_zero m e)
  | JStr s => negb (String.eqb s "")
  | JArr _ | JObj _ => true
  end.

(** [a || b] *)
Definition or_else (a b : JsValue) : JsValue :=
  if ToBoolean a then a else b.

Definition has_key (k : string) (fields : list (string * JsValue)) : bool :=
  match lookup k fields with Some _ => true | None => false end.

Section Conversions.
Context {rt : JsRuntime}.

(** [ToString]: [None] is the TypeError for an object whose own [toString]
    property hides the inherited method. An array is joined with commas,
    [null] and [undefined] items giving the empty string. *)
Fixpoint ToString (v : JsValue) : option string :=
  match v with
  | JUndefined => Some "undefined"
  | JNull => Some "null"
  | JBool true => Some "true"
  | JBool false => Some "false"
  | JNum m e => Some (Number_toString m e)
  | JStr s => Some s
  | JObj fields =>
      if has_key "toString" fields then None else Some "[object Object]"
  | JArr items =>
      (fix join (first : bool) (l : list JsValue) : option string :=
         match l with
         | [] => Some ""
         | x :: rest =>
             let item :=
               match x with
               | JUndefined | JNull => Some ""
               | _ => ToString x
               end in
             match item, join false rest with
             | Some a, Some b => Some ((if first then "" else ",") ++ a ++ b)
             | _, _ => None
             end
         end) true items
  end.
End Conversions.

(** *** Strings *)

(** [s.startsWith(p)] *)
Definition startsWith (s p : string) : bool := String.prefix p s.

(** [s.slice(n)] for [n >= 0] *)
Fixpoint slice (n : nat) (s : string) : string :=
  match n, s with
  | O, _ => s
  | S _, "" => ""
  | S n', String _ s' => slice n' s'
  end.

(** [s.split('\n')]: the segments between line feeds, never the empty array. *)
Fixpoint split_nl (s : string) : list string :=
  match s with
  | "" => [""]
  | String c s' =>
      if Ascii.eqb c LF then "" :: split_nl s'
      else match split_nl s' with
           | seg :: segs => String c seg :: segs
           | [] => [String c ""]
           end
  end.

(** [a.pop()]: the last item, [None] for [undefined], and the array left. *)
Definition pop {A : Type} (a : list A) : option A * list A :=
  match a with
  | [] => (None, [])
  | x :: rest => (Some (last rest x), removelast a)
  end.

(** [x || ''] for [x] a string or [undefined] *)
Definition or_empty (x : option string) : string :=
  match x with
  | Some s => if String.eqb s "" then "" else s
  | None => ""
  end.

(** White space and line terminators among the code units below 256. *)
Definition is_space (c : ascii) : bool :=
  let n := nat_of_ascii c in
  ((9 <=? n)%nat && (n <=? 13)%nat) || (n =? 32)%nat || (n =? 160)%nat.

Fixpoint trimStart (s : string) : string :=
  match s with
  | "" => ""
  | String c s' => if is_space c then trimStart s' else s
  end.

Fixpoint trimEnd (s : string) : string :=
  match s with
  | "" => ""
  | String c s' =>
      let r := trimEnd s' in
      if is_space c && String.eqb r "" then "" else String c r
  end.

(** [s.trim()] *)
Definition trim (s : string) : string := trimEnd (trimStart s).

(** The decimal digits of an integer, as a template literal prints it. *)
Definition dec (z : Z) : string := NilZero.string_of_int (Z.to_int z).

End JS.

(** ** Control flow: state and exceptions *)

Module Flow.

Inductive Res (A : Type) : Type :=
| Ok (a : A)
| Exn (e : JS.JsError).
Arguments Ok {A} a.
Arguments Exn {A} e.

(** A computation over a state [S] that returns or throws. What it did to the
    state before a [throw] stays done. *)
Definition M (S A : Type) : Type := S -> Res A * S.

Definition ret {S A} (a : A) : M S A := fun s => (Ok a, s).

Definition bind {S A B} (c : M S A) (k : A -> M S B) : M S B :=
  fun s =>
    match c s with
    | (Ok a, s') => k a s'
    | (Exn e, s') => (Exn e, s')
    end.

Definition throw {S A} (e : JS.JsError) : M S A := fun s => (Exn e, s).

(** [try { body } catch (e) { handler e }] *)
Definition try_catch {S A} (body : M S A) (handler : JS.JsError -> M S A) : M S A :=
  fun s =>
    match body s with
    | (Ok a, s') => (Ok a, s')
    | (Exn e, s') => handler e s'
    end.

(** [try { body } finally { final }] with a [final] that does not throw. *)
Definition try_finally {S A} (body : M S A) (final : S -> S) : M S A :=
  fun s => let '(r, s') := body s in (r, final s').

Definition modify {S} (f : S -> S) : M S unit := fun s => (Ok tt, f s).
Definition read {S A} (f : S -> A) : M S A := fun s => (Ok (f s), s).

(** A value that is there, or the exception thrown in its place. *)
Definition orThrow {S A} (x : option A) (e : JS.JsError) : M S A :=
  match x with
  | Some a => ret a
  | None => throw e
  end.

Definition exec {S A} (c : M S A) (s : S) : S := snd (c s).
Definition result {S A} (c : M S A) (s : S) : Res A := fst (c s).

Module Notations.
  Notation "x <- c ;; k" := (bind c (fun x => k))
    (at level 61, c at next level, right associativity).
  Notation "c ;; k" := (bind c (fun _ => k))
    (at level 61, right associativity).
End Notations.

End Flow.

(** ** The chat surface: [handleSendMessage] *)

Module Chat.
Import JS Flow Flow.Notations.

Inductive Role : Type := user | assistant.

(** [interface Message]; a [Source] is kept as the parsed value it arrives
    as, the component only stores and forwards it. *)
Module Msg.
Record t : Type := mk {
  id : string;
  content : string;
  role : Role;
  timestamp : Z;
  isStreaming : option bool;
  sources : option JsValue
}.

(** [{ ...msg, sources }] *)
Definition with_sources (msg : t) (s : JsValue) : t :=
  mk (id msg) (content msg) (role msg) (timestamp msg) (isStreaming msg) (Some s).

(** [{ ...msg, content: c, isStreaming: true, sources: s }] *)
Definition with_content (msg : t) (c : string) (s : JsValue) : t :=
  mk (id msg) c (role msg) (timestamp msg) (Some true) (Some s).

(** [{ ...msg, isStreaming: false }] *)
Definition finished (msg : t) : t :=
  mk (id msg) (content msg) (role msg) (timestamp msg) (Some false) (sources msg).

(** [{ ...msg, content: c, isStreaming: false }] *)
Definition failed (msg : t) (c : string) : t :=
  mk (id msg) c (role msg) (timestamp msg) (Some false) (sources msg).
End Msg.

Inductive Toast : Type :=
| toast_success (text : string)
| toast_error (text : string).

(** The state of the component that the handler reads and writes. *)
Record ChatState : Type := mkChat {
  messages : list Msg.t;
  isLoading : bool;
  toasts : list Toast
}.

(** The record a [data: ] line was decoded to, named by the branch of the
    [data.type] dispatch that took it, with the payload the branch reads. *)
Inductive Event : Type :=
| EvSources (payload : JsValue)
| EvSourcesUpdate (payload : JsValue)
| EvContent (payload : JsValue)
| EvDone
| EvError (payload : JsValue).

(** The component state together with the local variables of the read loop.
    [events] is a ghost variable, the source has none: it records which
    branch of the dispatch ran, in order. *)
Record Run : Type := mkRun {
  ui : ChatState;
  accumulatedContent : string;
  sources : JsValue;
  buffer : string;
  events : list Event
}.

Definition setMessages (f : list Msg.t -> list Msg.t) : M Run unit :=
  modify (fun r =>
    mkRun (mkChat (f (messages (ui r))) (isLoading (ui r)) (toasts (ui r)))
          (accumulatedContent r) (sources r) (buffer r) (events r)).

Definition set_accumulatedContent (c : string) : M Run unit :=
  modify (fun r => mkRun (ui r) c (sources r) (buffer r) (events r)).

Definition set_sources (s : JsValue) : M Run unit :=
  modify (fun r => mkRun (ui r) (accumulatedContent r) s (buffer r) (events r)).

Definition set_buffer (b : string) : M Run unit :=
  modify (fun r => mkRun (ui r) (accumulatedContent r) (sources r) b (events r)).

Definition emit (ev : Event) : M Run unit :=
  modify (fun r =>
    mkRun (ui r) (accumulatedContent r) (sources r) (buffer r) (events r ++ [ev])%list).

(** [prev.map(msg => msg.id === assistantMessageId ? f msg : msg)] *)
Definition update_assistant (assistantMessageId : string) (f : Msg.t -> Msg.t)
    (prev : list Msg.t) : list Msg.t :=
  map (fun msg => if String.eqb (Msg.id msg) assistantMessageId then f msg else msg) prev.

Definition fallback_text : string :=
  "Sorry, I encountered an error. Please try again.".

(** How the body ends: [reader.read()] reports [done], or rejects. *)
Inductive Ending : Type := Closed | Failed.

(** The body of a response as the reader delivers it: the decoded text of
    each chunk, in order, and how the body ends. *)
Record Body : Type := mkBody {
  chunks : list string;
  ending : Ending
}.

(** What [fetch] resolves to: a rejection, or a response with its status and
    its body, [None] for a response without one. *)
Inductive FetchResult : Type :=
| Rejected
| Response (status : Z) (body : option Body).

(** What the handler reads from outside the component during one call. *)
Record Env : Type := mkEnv {
  now_user : Z;
  date_user : Z;
  now_assistant : Z;
  date_assistant : Z;
  fetched : FetchResult
}.

(** [response.ok] *)
Definition ok (status : Z) : bool := ((200 <=? status) && (status <=? 299))%Z.

Section Decoder.
Context {rt : JsRuntime}.
Variable assistantMessageId : string.

(** The [if / else if] chain on [data.type], lines 137-171. *)
Definition dispatch (data : JsValue) : M Run unit :=
  type <- orThrow (Get data "type") TypeError ;;
  if strict_eq_str type "sources" then
    payload <- orThrow (Get data "sources") TypeError ;;
    emit (EvSources payload) ;;
    set_sources (or_else payload (JArr []))
  else if strict_eq_str type "sources_update" then
    payload <- orThrow (Get data "sources") TypeError ;;
    emit (EvSourcesUpdate payload) ;;
    set_sources (or_else payload (JArr [])) ;;
    sources <- read sources ;;
    setMessages (update_assistant assistantMessageId
                   (fun msg => Msg.with_sources msg sources))
  else if strict_eq_str type "content" then
    payload <- orThrow (Get data "content") TypeError ;;
    emit (EvContent payload) ;;
    acc <- read accumulatedContent ;;
    text <- orThrow (ToString payload) TypeError ;;
    set_accumulatedContent (acc ++ text) ;;
    accumulatedContent <- read accumulatedContent ;;
    sources <- read sources ;;
    setMessages (update_assistant assistantMessageId
                   (fun msg => Msg.with_content msg accumulatedContent sources))
  else if strict_eq_str type "done" then
    emit EvDone ;;
    setMessages (update_assistant assistantMessageId Msg.finished)
  else if strict_eq_str type "error" then
    payload <- orThrow (Get data "error") TypeError ;;
    emit (EvError payload) ;;
    match payload with
    | JUndefined => throw (Error "")
    | _ => message <- orThrow (ToString payload) TypeError ;;
           throw (Error message)
    end
  else ret tt.

(** The body of [for (const line of lines)], lines 131-178: the inner
    [try] around [JSON.parse] and the dispatch, and its [catch], which only
    writes to the console. *)
Definition handle_line (line : string) : M Run unit :=
  if startsWith line "data: " then
    try_catch
      (data <- orThrow (JSON_parse (slice 6 line)) SyntaxError ;;
       dispatch data)
      (fun e => ret tt)
  else ret tt.

Fixpoint for_lines (lines : list string) : M Run unit :=
  match lines with
  | [] => ret tt
  | line :: rest => handle_line line ;; for_lines rest
  end.

(** One turn of [while (true)] after a chunk was read, lines 125-178. *)
Definition on_chunk (chunk : string) : M Run unit :=
  buffer <- read buffer ;;
  let buffer := buffer ++ chunk in
  let lines := split_nl buffer in
  let '(popped, lines) := pop lines in
  set_buffer (or_empty popped) ;;
  for_lines lines.

(** [while (true) { ... }], lines 118-179, over the chunks the reader
    delivers before the body ends. *)
Fixpoint read_loop (chunks : list string) (ending : Ending) : M Run unit :=
  match chunks with
  | [] =>
      match ending with
      | Closed => ret tt
      | Failed => throw NetworkFailure
      end
  | chunk :: rest => on_chunk chunk ;; read_loop rest ending
  end.

(** The local variables of the [try] block, declared at lines 114-116. *)
Definition fresh (st : ChatState) : Run := mkRun st "" (JArr []) "" [].

Definition with_locals {A} (c : M Run A) : M ChatState A :=
  fun st => let '(r, run) := c (fresh st) in (r, ui run).

Definition toast (t : Toast) : M ChatState unit :=
  modify (fun st => mkChat (messages st) (isLoading st) (toasts st ++ [t])%list).

Definition setIsLoading (b : bool) (st : ChatState) : ChatState :=
  mkChat (messages st) b (toasts st).

Definition appendMessage (msg : Msg.t) (st : ChatState) : ChatState :=
  mkChat (messages st ++ [msg])%list (isLoading st) (toasts st).

(** The [try] block, lines 87-181. *)
Definition request (env : Env) : M ChatState unit :=
  match fetched env with
  | Rejected => throw NetworkFailure
  | Response status body =>
      if negb (ok status) then
        throw (Error ("HTTP error! status: " ++ dec status))
      else
        match body with
        | None => throw (Error "No response body reader available")
        | Some body =>
            with_locals (read_loop (chunks body) (ending body)) ;;
            toast (toast_success "Response completed!")
        end
  end.

(** The [catch] block, lines 182-195. *)
Definition on_failure (error : JsError) : M ChatState unit :=
  modify (fun st =>
    mkChat (update_assistant assistantMessageId
              (fun msg => Msg.failed msg fallback_text) (messages st))
           (isLoading st) (toasts st)) ;;
  toast (toast_error "Failed to get response. Please try again.").
End Decoder.

(** [handleSendMessage], lines 63-199. *)
Definition handleSendMessage {rt : JsRuntime} (message : string) (env : Env)
    (st : ChatState) : ChatState :=
  if negb (ToBoolean (JStr (trim message))) || isLoading st then st
  else
    let userMessage :=
      Msg.mk ("msg-" ++ dec (now_user env) ++ "-user") message user
             (date_user env) None None in
    let st := appendMessage userMessage st in
    let st := setIsLoading true st in
    let assistantMessageId := "msg-" ++ dec (now_assistant env) ++ "-assistant" in
    let streamingMessage :=
      Msg.mk assistantMessageId "" assistant (date_assistant env) (Some true) None in
    let st := appendMessage streamingMessage st in
    exec (try_finally
            (try_catch (request assistantMessageId env)
                       (on_failure assistantMessageId))
            (setIsLoading false)) st.

(** *** Vocabulary for the statements about the decoder *)

(** The text of a body: its chunks one after the other. *)
Definition text (chunks : list string) : string :=
  fold_right String.append "" chunks.

(** The lines of a text that a line feed ends, and what follows the last
    line feed. *)
Definition complete_lines (s : string) : list string := removelast (split_nl s).
Definition residual (s : string) : string := last (split_nl s) "".

(** Lines, each followed by a line feed. *)
Definition unlines (lines : list string) : string :=
  text (map (fun line => line ++ nl) lines).

Fixpoint no_LF (s : string) : bool :=
  match s with
  | "" => true
  | String c r => negb (Ascii.eqb c LF) && no_LF r
  end.

(** Every line of the text is ended by a line feed. *)
Definition well_formed (s : string) : Prop := residual s = "".

Definition with_buffer (b : string) (r : Run) : Run :=
  mkRun (ui r) (accumulatedContent r) (sources r) b (events r).

(** A line the decoder reads a record from. *)
Definition decodes {rt : JsRuntime} (line : string) (data : JsValue) : Prop :=
  startsWith line "data: " = true /\ JSON_parse (slice 6 line) = Some data.

Definition has_type (data : JsValue) (type : string) : Prop :=
  Get data "type" = Some (JStr type).

(** The five values of [data.type] that the dispatch knows. *)
Definition recognized (type : JsValue) : bool :=
  existsb (strict_eq_str type) ["sources"; "sources_update"; "content"; "done"; "error"].

(** A line whose record is a [sources] event with the given payload. *)
Definition sources_line {rt : JsRuntime} (line : string) (payload : JsValue) : Prop :=
  exists data, decodes line data /\ has_type data "sources"
               /\ Get data "sources" = Some payload.

(** A line whose record is a [content] event carrying a text fragment. *)
Definition content_line {rt : JsRuntime} (line : string) (fragment : string) : Prop :=
  exists data, decodes line data /\ has_type data "content"
               /\ Get data "content" = Some (JStr fragment).

Definition done_line {rt : JsRuntime} (line : string) : Prop :=
  exists data, decodes line data /\ has_type data "done".

Definition error_line {rt : JsRuntime} (line : string) (payload : JsValue) : Prop :=
  exists data, decodes line data /\ has_type data "error"
               /\ Get data "error" = Some payload.

(** What [content] events with the given fragments leave on the messages,
    [start] being the text before them and [stored] the sources then. *)
Definition after_contents (assistantMessageId : string) (fragments : list string)
    (start : string) (stored : JsValue) (msgs : list Msg.t) : list Msg.t :=
  match fragments with
  | [] => msgs
  | _ :: _ =>
      update_assistant assistantMessageId
        (fun msg => Msg.with_content msg (start ++ text fragments) stored) msgs
  end.

(** The handler run on each line of a list, in order. *)
Definition handle_lines {rt : JsRuntime} (assistantMessageId : string)
    (lines : list string) (r : Run) : Run :=
  fold_left (fun r line => exec (handle_line assistantMessageId line) r) lines r.

(** The event of a record: the one its [type] names among the five, with
    the payload, and none for another type or without a [type]. *)
Definition event_of (data : JsValue) : option Event :=
  match Get data "type" with
  | Some type =>
      if strict_eq_str type "sources" then option_map EvSources (Get data "sources")
      else if strict_eq_str type "sources_update"
      then option_map EvSourcesUpdate (Get data "sources")
      else if strict_eq_str type "content" then option_map EvContent (Get data "content")
      else if strict_eq_str type "done" then Some EvDone
      else if strict_eq_str type "error" then option_map EvError (Get data "error")
      else None
  | None => None
  end.

(** The events of a line: the event of its record when it is a [data: ]
    line that parses, and none otherwise. *)
Definition line_events {rt : JsRuntime} (line : string) : list Event :=
  if startsWith line "data: " then
    match JSON_parse (slice 6 line) with
    | Some data =>
        match event_of data with
        | Some ev => [ev]
        | None => []
        end
    | None => []
    end
  else [].

End Chat.

(** ** The updates of the messages, as React queues them

    [setMessages] is given a function of the previous messages. The function
    closes over the local variables of the read loop and reads them when it
    runs. [Chat] runs each function at its call. Here the function waits in
    a queue until React renders, and then runs on the values the variables
    have by then; the handler of a line and the loop are those of [Chat]
    otherwise. React runs the functions in the order of their calls, at their
    call at the earliest; it cannot render while the lines of one chunk are
    handled, only at a call of [setMessages] or between two reads. *)
Module Updates.
Import JS Flow Flow.Notations Chat.

(** The functions the read loop gives to [setMessages]. *)
Inductive Updater : Type :=
| ShowSources   (* lines 143-147, [{ ...msg, sources }] *)
| ShowContent   (* lines 150-159, [content: accumulatedContent] and [sources: sources] *)
| Finish.       (* lines 161-168, [isStreaming: false] *)

(** The read loop with the functions that wait for the next render. *)
Record Batch : Type := mkBatch {
  run : Run;
  pending : list Updater
}.

(** A step of [Chat] on the variables and the ghost trace. *)
Definition lift {A} (c : M Run A) : M Batch A :=
  fun b => let '(res, r) := c (run b) in (res, mkBatch r (pending b)).

Definition setMessages (u : Updater) : M Batch unit :=
  modify (fun b => mkBatch (run b) (pending b ++ [u])%list).

Section Decoder.
Context {rt : JsRuntime}.
Variable assistantMessageId : string.

(** The function run on the previous messages, with the variables as [r]
    has them. *)
Definition apply_updater (r : Run) (prev : list Msg.t) (u : Updater) : list Msg.t :=
  match u with
  | ShowSources =>
      update_assistant assistantMessageId
        (fun msg => Msg.with_sources msg (sources r)) prev
  | ShowContent =>
      update_assistant assistantMessageId
        (fun msg => Msg.with_content msg (accumulatedContent r) (sources r)) prev
  | Finish => update_assistant assistantMessageId Msg.finished prev
  end.

(** React renders: the functions that wait run in order, each on the
    messages the one before left. *)
Definition render (b : Batch) : Batch :=
  let r := run b in
  mkBatch
    (mkRun (mkChat (fold_left (apply_updater r) (pending b) (messages (ui r)))
                   (isLoading (ui r)) (toasts (ui r)))
           (accumulatedContent r) (sources r) (buffer r) (events r))
    [].

(** The [if / else if] chain on [data.type], lines 137-171. *)
Definition dispatch (data : JsValue) : M Batch unit :=
  type <- orThrow (Get data "type") TypeError ;;
  if strict_eq_str type "sources" then
    payload <- orThrow (Get data "sources") TypeError ;;
    lift (emit (EvSources payload)) ;;
    lift (set_sources (or_else payload (JArr [])))
  else if strict_eq_str type "sources_update" then
    payload <- orThrow (Get data "sources") TypeError ;;
    lift (emit (EvSourcesUpdate payload)) ;;
    lift (set_sources (or_else payload (JArr []))) ;;
    setMessages ShowSources
  else if strict_eq_str type "content" then
    payload <- orThrow (Get data "content") TypeError ;;
    lift (emit (EvContent payload)) ;;
    acc <- lift (read accumulatedContent) ;;
    text <- orThrow (ToString payload) TypeError ;;
    lift (set_accumulatedContent (acc ++ text)) ;;
    setMessages ShowContent
  else if strict_eq_str type "done" then
    lift (emit EvDone) ;;
    setMessages Finish
  else if strict_eq_str type "error" then
    payload <- orThrow (Get data "error") TypeError ;;
    lift (emit (EvError payload)) ;;
    match payload with
    | JUndefined => throw (Error "")
    | _ => message <- orThrow (ToString payload) TypeError ;;
           throw (Error message)
    end
  else ret tt.

(** The body of [for (const line of lines)], lines 131-178. *)
Definition handle_line (line : string) : M Batch unit :=
  if startsWith line "data: " then
    try_catch
      (data <- orThrow (JSON_parse (slice 6 line)) SyntaxError ;;
       dispatch data)
      (fun e => ret tt)
  else ret tt.

Fixpoint for_lines (lines : list string) : M Batch unit :=
  match lines with
  | [] => ret tt
  | line :: rest => handle_line line ;; for_lines rest
  end.

(** One turn of [while (true)] after a chunk was read, lines 125-178. *)
Definition on_chunk (chunk : string) : M Batch unit :=
  buffer <- lift (read buffer) ;;
  let buffer := buffer ++ chunk in
  let lines := split_nl buffer in
  let '(popped, lines) := pop lines in
  lift (set_buffer (or_empty popped)) ;;
  for_lines lines.

(** What happens, in order: the handler takes a line, or React renders. *)
Inductive Occurrence : Type :=
| Handles (line : string)
| Renders.

Definition step (b : Batch) (o : Occurrence) : Batch :=
  match o with
  | Handles line => exec (handle_line line) b
  | Renders => render b
  end.

Definition play (os : list Occurrence) (b : Batch) : Batch := fold_left step os b.
End Decoder.

(** The read loop as it starts, nothing waiting. *)
Definition start (r : Run) : Batch := mkBatch r [].

End Updates.

(** ** A reference runtime

    A parser for the JSON grammar and a printer of decimals, to run the
    handlers on concrete text. The theorems below hold for every
    [JsRuntime]; this one closes the examples. Two limits, both outside the
    inputs of the examples: an escape above [u00FF] names a code unit that
    [string] does not hold and is refused, and a number is printed from the
    digits of its literal, which is what [String] gives for up to 15
    significant digits within the range of a double. *)

Module Json.
Import JS.

Definition is_ws (c : ascii) : bool :=
  let n := nat_of_ascii c in
  ((n =? 32) || (n =? 9) || (n =? 10) || (n =? 13))%nat.

Fixpoint skip_ws (s : string) : string :=
  match s with
  | String c r => if is_ws c then skip_ws r else s
  | "" => ""
  end.

Definition is_digit (c : ascii) : bool :=
  let n := nat_of_ascii c in ((48 <=? n) && (n <=? 57))%nat.

Definition hex_value (c : ascii) : option N :=
  let n := N_of_ascii c in
  (if (48 <=? n) && (n <=? 57) then Some (n - 48)
   else if (65 <=? n) && (n <=? 70) then Some (n - 55)
   else if (97 <=? n) && (n <=? 102) then Some (n - 87)
   else None)%N.

Definition hex4 (a b c d : ascii) : option N :=
  match hex_value a, hex_value b, hex_value c, hex_value d with
  | Some x, Some y, Some z, Some w => Some (((x * 16 + y) * 16 + z) * 16 + w)%N
  | _, _, _, _ => None
  end.

Definition cons_char (c : ascii) (r : option (string * string)) : option (string * string) :=
  match r with
  | Some (body, rest) => Some (String c body, rest)
  | None => None
  end.

(** The characters of a string literal, after its opening quote. *)
Fixpoint string_chars (s : string) : option (string * string) :=
  match s with
  | "" => None
  | String c r =>
      if Ascii.eqb c DQUOTE then Some ("", r)
      else if Ascii.eqb c "\" then
        match r with
        | String e r' =>
            if Ascii.eqb e "u" then
              match r' with
              | String h1 (String h2 (String h3 (String h4 r''))) =>
                  match hex4 h1 h2 h3 h4 with
                  | Some n =>
                      if (n <? 256)%N then cons_char (ascii_of_N n) (string_chars r'')
                      else None
                  | None => None
                  end
              | _ => None
              end
            else if Ascii.eqb e DQUOTE || Ascii.eqb e "\" || Ascii.eqb e "/" then
              cons_char e (string_chars r')
            else if Ascii.eqb e "b" then cons_char "008" (string_chars r')
            else if Ascii.eqb e "f" then cons_char "012" (string_chars r')
            else if Ascii.eqb e "n" then cons_char "010" (string_chars r')
            else if Ascii.eqb e "r" then cons_char "013" (string_chars r')
            else if Ascii.eqb e "t" then cons_char "009" (string_chars r')
            else None
        | "" => None
        end
      else if (nat_of_ascii c <? 32)%nat then None
      else cons_char c (string_chars r)
  end.

(** The longest prefix of digits, and what follows it. *)
Fixpoint take_digits (s : string) : string * string :=
  match s with
  | String c r =>
      if is_digit c then let '(ds, rest) := take_digits r in (String c ds, rest)
      else ("", s)
  | "" => ("", "")
  end.

Fixpoint digits_value (acc : Z) (ds : string) : Z :=
  match ds with
  | String c r => digits_value (acc * 10 + (Z.of_nat (nat_of_ascii c) - 48))%Z r
  | "" => acc
  end.

Definition leading_zero (ds : string) : bool :=
  match ds with
  | String c (String _ _) => Ascii.eqb c "0"
  | _ => false
  end.

(** [-? int frac? exp?], giving [m] and [e] with the value [m * 10^e]. *)
Definition number (s : string) : option (JsValue * string) :=
  let '(negative, s) :=
    match s with
    | String c r => if Ascii.eqb c "-" then (true, r) else (false, s)
    | "" => (false, s)
    end in
  let '(int, s) := take_digits s in
  if String.eqb int "" || leading_zero int then None
  else
    let frac_part :=
      match s with
      | String c r =>
          if Ascii.eqb c "." then
            let '(frac, r') := take_digits r in
            if String.eqb frac "" then None else Some (frac, r')
          else Some ("", s)
      | "" => Some ("", s)
      end in
    match frac_part with
    | None => None
    | Some (frac, s) =>
        let exp_part :=
          match s with
          | String c r =>
              if Ascii.eqb c "e" || Ascii.eqb c "E" then
                let '(minus, r) :=
                  match r with
                  | String sg r' =>
                      if Ascii.eqb sg "-" then (true, r')
                      else if Ascii.eqb sg "+" then (false, r')
                      else (false, r)
                  | "" => (false, r)
                  end in
                let '(ex, r') := take_digits r in
                if String.eqb ex "" then None
                else Some ((if minus then - digits_value 0 ex else digits_value 0 ex)%Z, r')
              else Some (0%Z, s)
          | "" => Some (0%Z, s)
          end in
        match exp_part with
        | None => None
        | Some (ex, rest) =>
            let m := digits_value 0 (int ++ frac) in
            Some (JNum (if negative then - m else m)%Z
                       (ex - Z.of_nat (String.length frac))%Z, rest)
        end
    end.

Definition literal (word : string) (v : JsValue) (s : string) : option (JsValue * string) :=
  if String.prefix word s then Some (v, slice (String.length word) s) else None.

Fixpoint value (fuel : nat) (s : string) {struct fuel} : option (JsValue * string) :=
  match fuel with
  | O => None
  | S fuel =>
      match skip_ws s with
      | "" => None
      | String c r =>
          if Ascii.eqb c "[" then
            match skip_ws r with
            | String d r' =>
                if Ascii.eqb d "]" then Some (JArr [], r')
                else match items fuel r with
                     | Some (vs, rest) => Some (JArr vs, rest)
                     | None => None
                     end
            | "" => None
            end
          else if Ascii.eqb c "{" then
            match skip_ws r with
            | String d r' =>
                if Ascii.eqb d "}" then Some (JObj [], r')
                else match members fuel r with
                     | Some (fs, rest) => Some (JObj fs, rest)
                     | None => None
                     end
            | "" => None
            end
          else if Ascii.eqb c DQUOTE then
            match string_chars r with
            | Some (body, rest) => Some (JStr body, rest)
            | None => None
            end
          else if Ascii.eqb c "t" then literal "true" (JBool true) (String c r)
          else if Ascii.eqb c "f" then literal "false" (JBool false) (String c r)
          else if Ascii.eqb c "n" then literal "null" JNull (String c r)
          else number (String c r)
      end
  end
with items (fuel : nat) (s : string) {struct fuel} : option (list JsValue * string) :=
  match fuel with
  | O => None
  | S fuel =>
      match value fuel s with
      | Some (v, r) =>
          match skip_ws r with
          | String c r' =>
              if Ascii.eqb c "," then
                match items fuel r' with
                | Some (vs, rest) => Some (v :: vs, rest)
                | None => None
                end
              else if Ascii.eqb c "]" then Some ([v], r')
              else None
          | "" => None
          end
      | None => None
      end
  end
with members (fuel : nat) (s : string) {struct fuel}
    : option (list (string * JsValue) * string) :=
  match fuel with
  | O => None
  | S fuel =>
      match skip_ws s with
      | String q r =>
          if Ascii.eqb q DQUOTE then
            match string_chars r with
            | Some (key, r) =>
                match skip_ws r with
                | String colon r =>
                    if Ascii.eqb colon ":" then
                      match value fuel r with
                      | Some (v, r) =>
                          match skip_ws r with
                          | String c r' =>
                              if Ascii.eqb c "," then
                                match members fuel r' with
                                | Some (fs, rest) => Some ((key, v) :: fs, rest)
                                | None => None
                                end
                              else if Ascii.eqb c "}" then Some ([(key, v)], r')
                              else None
                          | "" => None
                          end
                      | None => None
                      end
                    else None
                | "" => None
                end
            | None => None
            end
          else None
      | "" => None
      end
  end.

(** [JSON.parse(text)]: one value, white space around it, nothing else. *)
Definition parse (text : string) : option JsValue :=
  match value (S (String.length text)) text with
  | Some (v, rest) => if String.eqb (skip_ws rest) "" then Some v else None
  | None => None
  end.

Fixpoint strip_zeros (fuel : nat) (m e : Z) : Z * Z :=
  match fuel with
  | O => (m, e)
  | S fuel => if (m mod 10 =? 0)%Z then strip_zeros fuel (m / 10)%Z (e + 1)%Z else (m, e)
  end.

Fixpoint zeros (n : nat) : string :=
  match n with
  | O => ""
  | S n => String "0" (zeros n)
  end.

(** The digits of [m * 10^e] laid out as [Number::toString] lays out the
    digits of a double. The digits are those of the literal: a literal with
    more digits than a double holds prints as it is written here, where
    JavaScript prints the digits of the nearest double. *)
Definition print_decimal (m e : Z) : string :=
  (if m =? 0 then "0"
   else
     let sign := if m <? 0 then "-" else "" in
     let a := Z.abs m in
     let '(s, e) := strip_zeros (String.length (dec a)) a e in
     let digits := dec s in
     let k := Z.of_nat (String.length digits) in
     let n := k + e in
     let body :=
       if (k <=? n) && (n <=? 21) then
         digits ++ zeros (Z.to_nat (n - k))
       else if (0 <? n) && (n <=? 21) then
         substring 0 (Z.to_nat n) digits ++ "." ++
         substring (Z.to_nat n) (Z.to_nat (k - n)) digits
       else if (-6 <? n) && (n <=? 0) then
         "0." ++ zeros (Z.to_nat (- n)) ++ digits
       else
         let ex := (if n - 1 <? 0 then "-" else "+") ++ dec (Z.abs (n - 1)) in
         if k =? 1 then digits ++ "e" ++ ex
         else substring 0 1 digits ++ "." ++
              substring 1 (Z.to_nat (k - 1)) digits ++ "e" ++ ex in
     sign ++ body)%Z.

(** A text written with apostrophes where JSON has double quotes. *)
Fixpoint quoted (s : string) : string :=
  match s with
  | "" => ""
  | String c r => String (if Ascii.eqb c "'" then DQUOTE else c) (quoted r)
  end.

Definition reference_runtime : JsRuntime := {|
  JSON_parse := parse;
  Number_toString := print_decimal
|}.

End Json.

(** ** The admin console: file selection and the batch upload *)

Module Upload.
Import JS Flow Flow.Notations.

(** Arithmetic on doubles: the exact operation followed by rounding to the
    nearest double. Of the rounding the handlers need only that it is
    monotone and leaves the integers that a double holds exactly as they
    are. *)
Class FloatArith : Type := {
  rnd : Q -> Q;
  rnd_monotone : forall x y : Q, (x <= y)%Q -> (rnd x <= rnd y)%Q;
  rnd_integer : forall z : Z, (Z.abs z <= 2 ^ 53)%Z -> (rnd (inject_Z z) == inject_Z z)%Q
}.

(** Arithmetic without rounding error, an instance to compute with. It is
    used on the samples only, whose quotients and products a double holds
    exactly; elsewhere a double can round to the other side of a half, as
    for 7340032 of 20971520 bytes, where the doubles give 31 and the exact
    product 31.5, which rounds to 32. *)
Definition exact_arith : FloatArith.
Proof.
  refine {| rnd := fun q => q |}.
  - intros x y H. exact H.
  - intros z _. reflexivity.
Defined.

Section Numbers.
Context {fa : FloatArith}.

(** [x / y] on doubles, for [y] not zero. *)
Definition fdiv (x y : Q) : Q := rnd (x / y)%Q.
(** [x * y] on doubles *)
Definition fmul (x y : Q) : Q := rnd (x * y)%Q.
(** [Math.round(x)]: the nearest integer, a tie going up. *)
Definition Math_round (x : Q) : Z := Qfloor (x + (1 # 2))%Q.
End Numbers.

(** A [File] of the browser: its name and its size in bytes. *)
Record File : Type := mkFile {
  name : string;
  size : Z
}.

Record DocumentMetadata : Type := mkMeta {
  displayName : string;
  documentType : string;
  documentSource : string;
  humanCapabilityDomain : string;
  author : string;
  publicationDate : string;
  description : string;
  allowDownload : bool;
  showInViewer : bool
}.

(** [interface BatchFileMetadata extends DocumentMetadata]: the fields of the
    base interface are the record [fields]. *)
Record BatchFileMetadata : Type := mkBatchFile {
  file : File;
  filename : string;
  fields : DocumentMetadata
}.

Record BatchProgress : Type := mkProgress {
  percent : Z;
  stage : string;
  isActive : bool
}.

(** A callback waiting in [setTimeout]. *)
Inductive Timer : Type :=
| ShowComplete (result : JsValue)
| ResetBatch.

(** What a handler does outside the state of the component. *)
Inductive Effect : Type :=
| Alert (text : string)
| ClearInput
| XhrSend (method url : string) (files : list BatchFileMetadata)
| FetchDocuments.

Definition is_network (e : Effect) : bool :=
  match e with
  | XhrSend _ _ _ | FetchDocuments => true
  | Alert _ | ClearInput => false
  end.

Record AdminState : Type := mkAdmin {
  selectedFile : option File;
  metadata : DocumentMetadata;
  batchMode : bool;
  batchFiles : list BatchFileMetadata;
  isBatchUploading : bool;
  batchProgress : BatchProgress;
  timers : list Timer;
  effects : list Effect
}.

Definition setSelectedFile (f : option File) (st : AdminState) : AdminState :=
  mkAdmin f (metadata st) (batchMode st) (batchFiles st) (isBatchUploading st)
          (batchProgress st) (timers st) (effects st).

Definition setMetadata (f : DocumentMetadata -> DocumentMetadata) (st : AdminState) : AdminState :=
  mkAdmin (selectedFile st) (f (metadata st)) (batchMode st) (batchFiles st)
          (isBatchUploading st) (batchProgress st) (timers st) (effects st).

Definition setBatchMode (b : bool) (st : AdminState) : AdminState :=
  mkAdmin (selectedFile st) (metadata st) b (batchFiles st) (isBatchUploading st)
          (batchProgress st) (timers st) (effects st).

Definition setBatchFiles (f : list BatchFileMetadata -> list BatchFileMetadata)
    (st : AdminState) : AdminState :=
  mkAdmin (selectedFile st) (metadata st) (batchMode st) (f (batchFiles st))
          (isBatchUploading st) (batchProgress st) (timers st) (effects st).

Definition setIsBatchUploading (b : bool) (st : AdminState) : AdminState :=
  mkAdmin (selectedFile st) (metadata st) (batchMode st) (batchFiles st) b
          (batchProgress st) (timers st) (effects st).

Definition setBatchProgress (p : BatchProgress) (st : AdminState) : AdminState :=
  mkAdmin (selectedFile st) (metadata st) (batchMode st) (batchFiles st)
          (isBatchUploading st) p (timers st) (effects st).

Definition setTimeout (t : Timer) (st : AdminState) : AdminState :=
  mkAdmin (selectedFile st) (metadata st) (batchMode st) (batchFiles st)
          (isBatchUploading st) (batchProgress st) (timers st ++ [t])%list (effects st).

Definition perform (e : Effect) (st : AdminState) : AdminState :=
  mkAdmin (selectedFile st) (metadata st) (batchMode st) (batchFiles st)
          (isBatchUploading st) (batchProgress st) (timers st) (effects st ++ [e])%list.

Definition alert (text : string) : AdminState -> AdminState := perform (Alert text).

Definition idle : BatchProgress := mkProgress 0 "" false.

(** *** File names *)

Definition is_char (c : ascii) (set : string) : bool :=
  existsb (Ascii.eqb c) (list_ascii_of_string set).

Fixpoint all_chars (p : ascii -> bool) (s : string) : bool :=
  match s with
  | "" => true
  | String c r => p c && all_chars p r
  end.

(** [s.replace(/\.[^/.]+$/, '')]: the first place where a dot is followed,
    up to the end, by one or more characters other than [/] and [.]. *)
Fixpoint strip_extension (s : string) : string :=
  match s with
  | "" => ""
  | String c r =>
      if Ascii.eqb c "." && negb (String.eqb r "")
         && all_chars (fun d => negb (is_char d "/.")) r
      then ""
      else String c (strip_extension r)
  end.

(** [s.replace(/[_-]/g, ' ')] *)
Fixpoint spaces_for_separators (s : string) : string :=
  match s with
  | "" => ""
  | String c r =>
      String (if is_char c "_-" then " "%char else c) (spaces_for_separators r)
  end.

Definition lower (c : ascii) : ascii :=
  let n := nat_of_ascii c in
  if ((65 <=? n) && (n <=? 90))%nat then ascii_of_nat (n + 32) else c.

Fixpoint lowercase (s : string) : string :=
  match s with
  | "" => ""
  | String c r => String (lower c) (lowercase r)
  end.

Fixpoint ends_with (s suffix : string) : bool :=
  String.eqb s suffix ||
  match s with
  | "" => false
  | String _ r => ends_with r suffix
  end.

(** [/\.(mp4|webm|mov|avi|mkv)$/i.test(filename)] *)
Definition isVideoFile (filename : string) : bool :=
  existsb (ends_with (lowercase filename)) [".mp4"; ".webm"; ".mov"; ".avi"; ".mkv"].

Definition MAX_FILE_SIZE : Z := 1610612736.

(** The [ProgressEvent] of [xhr.upload]. *)
Record ProgressEvent : Type := mkEvent {
  lengthComputable : bool;
  loaded : Z;
  total : Z
}.

(** The event that ends the request: [load] with the status and the text of
    the response, [error] or [abort]. *)
Inductive Completion : Type :=
| Load (status : Z) (statusText responseText : string)
| NetworkError
| Aborted.

(** What the handler is called back for: a [progress] event of the upload,
    the end of the request, or a timer that is due. *)
Inductive Occurrence : Type :=
| UploadProgress (event : ProgressEvent)
| Completes (c : Completion)
| TimerFires.

Section Handlers.
Context {rt : JsRuntime} {fa : FloatArith}.

(** [handleFileSelect], lines 329-353; [files] is [e.target.files]. *)
Definition handleFileSelect (files : option (list File)) (st : AdminState) : AdminState :=
  match files with
  | Some (file :: _) =>
      if (size file >? MAX_FILE_SIZE)%Z then
        let sizeMB := Math_round (fdiv (inject_Z (size file)) (inject_Z (1024 * 1024))) in
        let st := alert ("File is too large (" ++ dec sizeMB
                         ++ " MB). Maximum allowed size is "
                         ++ Number_toString 15 (-1) ++ " GB.") st in
        perform ClearInput st
      else
        let displayed := metadata st in
        let st := setSelectedFile (Some file) st in
        if negb (ToBoolean (JStr (displayName displayed))) then
          let nameWithoutExt := strip_extension (name file) in
          setMetadata (fun prev =>
            mkMeta (spaces_for_separators nameWithoutExt)
                   (if isVideoFile (name file) then "video" else "article")
                   (documentSource prev) (humanCapabilityDomain prev) (author prev)
                   (publicationDate prev) (description prev)
                   (allowDownload prev) (showInViewer prev)) st
        else st
  | _ => st
  end.

(** The entry [newFiles.push({ file, ... })] makes for a file. *)
Definition batch_entry (file : File) : BatchFileMetadata :=
  let nameWithoutExt := strip_extension (name file) in
  mkBatchFile file (name file)
    (mkMeta (spaces_for_separators nameWithoutExt)
            (if isVideoFile (name file) then "video" else "article")
            "institute" "hr" "" "" "" true true).

(** The [for] loop of [handleBatchFileSelect], lines 422-444, with
    [newFiles] and the state the alerts go to. *)
Fixpoint collect (files : list File) (newFiles : list BatchFileMetadata)
    (st : AdminState) : list BatchFileMetadata * AdminState :=
  match files with
  | [] => (newFiles, st)
  | file :: rest =>
      if (size file >? MAX_FILE_SIZE)%Z then
        collect rest newFiles
          (alert ("File " ++ String DQUOTE (name file)
                 ++ String DQUOTE " is too large and will be skipped.") st)
      else collect rest (newFiles ++ [batch_entry file])%list st
  end.

(** [handleBatchFileSelect], lines 417-449. *)
Definition handleBatchFileSelect (files : option (list File)) (st : AdminState)
    : AdminState :=
  match files with
  | Some ((_ :: _) as files) =>
      let '(newFiles, st) := collect files [] st in
      let st := setBatchFiles (fun prev => prev ++ newFiles)%list st in
      perform ClearInput st
  | _ => st
  end.

(** [handleBatchUpload] up to [xhr.send], lines 461-503 and 568-569. The
    request is named by its path under [config.API_BASE_URL] and carries
    the files with their metadata. *)
Definition handleBatchUpload (st : AdminState) : AdminState :=
  if (List.length (batchFiles st) =? 0)%nat then
    alert "Please select files to upload" st
  else
    let missingNames :=
      filter (fun f => negb (ToBoolean (JStr (trim (displayName (fields f))))))
             (batchFiles st) in
    if (0 <? List.length missingNames)%nat then
      alert "Please provide display names for all files" st
    else
      let files := batchFiles st in
      let st := setIsBatchUploading true st in
      let st := setBatchProgress (mkProgress 0 "Preparing" true) st in
      perform (XhrSend "POST" "/api/ingestion/bulk-upload" files) st.

(** The [progress] listener of [xhr.upload], lines 505-515. The quotient is
    that of doubles for [event.total] not zero, which is the case whenever
    the request sets [lengthComputable]. *)
Definition uploadPercent (event : ProgressEvent) : Z :=
  Math_round (fmul (fdiv (inject_Z (loaded event)) (inject_Z (total event)))
                   (inject_Z 90)).

Definition on_progress (event : ProgressEvent) (st : AdminState) : AdminState :=
  if lengthComputable event then
    setBatchProgress (mkProgress (uploadPercent event) "Uploading" true) st
  else st.

(** [result.results.filter((r) => r.status === 'queued')]: [None] is the
    TypeError of a receiver that is not an array, or of a [null] item. *)
Fixpoint queued_items (items : list JsValue) : option (list JsValue) :=
  match items with
  | [] => Some []
  | r :: rest =>
      match Get r "status" with
      | None => None
      | Some status =>
          match queued_items rest with
          | None => None
          | Some kept => Some (if strict_eq_str status "queued" then r :: kept else kept)
          end
      end
  end.

Definition filter_queued (results : JsValue) : option (list JsValue) :=
  match results with
  | JArr items => queued_items items
  | _ => None
  end.

(** The callback of the first [setTimeout], lines 526-540. *)
Definition show_complete (result : JsValue) : M AdminState unit :=
  modify (setBatchProgress (mkProgress 100 "Complete" true)) ;;
  results <- orThrow (Get result "results") TypeError ;;
  queued <- orThrow (filter_queued results) TypeError ;;
  let queuedCount := List.length queued in
  modify (alert ("Batch upload complete! " ++ dec (Z.of_nat queuedCount) ++ " file"
                 ++ (if (queuedCount =? 1)%nat then "" else "s")
                 ++ " queued for processing.")) ;;
  modify (setTimeout ResetBatch).

(** The callback of the second [setTimeout], lines 533-539. *)
Definition reset_batch (st : AdminState) : AdminState :=
  let st := setBatchFiles (fun _ => []) st in
  let st := setBatchMode false st in
  let st := setBatchProgress idle st in
  let st := setIsBatchUploading false st in
  perform FetchDocuments st.

(** The [load] listener, lines 517-553. *)
Definition on_load (status : Z) (statusText responseText : string)
    (st : AdminState) : AdminState :=
  if ((200 <=? status) && (status <? 300))%Z then
    exec (try_catch
            (result <- orThrow (JSON_parse responseText) SyntaxError ;;
             modify (setBatchProgress (mkProgress 95 "Queued" true)) ;;
             modify (setTimeout (ShowComplete result)))
            (fun e =>
               modify (alert "Upload completed but response parsing failed") ;;
               modify (setBatchProgress idle) ;;
               modify (setIsBatchUploading false))) st
  else
    let st := alert ("Batch upload failed: " ++ statusText) st in
    let st := setBatchProgress idle st in
    setIsBatchUploading false st.

(** The [error] listener, lines 555-560. *)
Definition on_error (st : AdminState) : AdminState :=
  let st := alert "Batch upload failed: Network error" st in
  let st := setBatchProgress idle st in
  setIsBatchUploading false st.

(** The [abort] listener, lines 562-566. *)
Definition on_abort (st : AdminState) : AdminState :=
  let st := setBatchProgress idle st in
  setIsBatchUploading false st.

(** One callback: a listener of the request, or the next timer. An
    exception that leaves a timer callback ends the callback and nothing
    else. *)
Definition step (o : Occurrence) (st : AdminState) : AdminState :=
  match o with
  | UploadProgress event => on_progress event st
  | Completes (Load status statusText responseText) =>
      on_load status statusText responseText st
  | Completes NetworkError => on_error st
  | Completes Aborted => on_abort st
  | TimerFires =>
      match timers st with
      | [] => st
      | t :: waiting =>
          let st := mkAdmin (selectedFile st) (metadata st) (batchMode st) (batchFiles st)
                            (isBatchUploading st) (batchProgress st) waiting (effects st) in
          match t with
          | ShowComplete result => exec (show_complete result) st
          | ResetBatch => reset_batch st
          end
      end
  end.

(** The states the component goes through, one after each occurrence. *)
Fixpoint trace (os : list Occurrence) (st : AdminState) : list AdminState :=
  match os with
  | [] => []
  | o :: rest => let st := step o st in st :: trace rest st
  end.

Definition run (os : list Occurrence) (st : AdminState) : AdminState :=
  fold_left (fun st o => step o st) os st.
End Handlers.

(** *** Vocabulary for the statements about the batch upload *)

(** The file is within the size limit. *)
Definition small (file : File) : bool := (size file <=? MAX_FILE_SIZE)%Z.

(** The progress events of the upload phase. *)
Definition uploading (progress : list ProgressEvent) : list Occurrence :=
  map UploadProgress progress.

(** A batch upload as the request runs it: progress events while the body is
    sent, one event that ends the request, then the timers. *)
Definition execution (progress : list ProgressEvent) (final : Completion) (fired : nat)
    : list Occurrence :=
  (uploading progress ++ [Completes final] ++ repeat TimerFires fired)%list.

(** Progress events as a request reports them for a body of [size] bytes:
    an event with a computable length gives the size as its total and the
    bytes sent so far, never more than the size and never fewer than an
    earlier such event gave. *)
Definition reports (size : Z) (progress : list ProgressEvent) : Prop :=
  (0 < size)%Z
  /\ Forall (fun event => lengthComputable event = true ->
                          total event = size /\ (0 <= loaded event <= size)%Z) progress
  /\ StronglySorted
       (fun e1 e2 => lengthComputable e1 = true -> lengthComputable e2 = true ->
                     (loaded e1 <= loaded e2)%Z) progress.

(** The request ended with a success status and a body that parses. *)
Definition succeeded {rt : JsRuntime} (final : Completion) : Prop :=
  exists status statusText responseText result,
    final = Load status statusText responseText
    /\ (200 <= status < 300)%Z
    /\ JSON_parse responseText = Some result.

(** The percent on the progress bar, [None] while the bar is not rendered.
    The bar is in the batch branch of line 609, in the branch of a file list
    that is not empty of line 907, under [batchProgress.isActive &&], lines
    1028-1046. *)
Definition rendered_percent (st : AdminState) : option Z :=
  if batchMode st && negb (List.length (batchFiles st) =? 0)%nat
     && isActive (batchProgress st)
  then Some (percent (batchProgress st)) else None.

(** The displays of the upload phase, one after each progress event, from
    the display [prev] on: an event with a computable length shows its
    percent, another one leaves the display as it is. *)
Fixpoint upload_displays {fa : FloatArith} (prev : BatchProgress)
    (progress : list ProgressEvent) : list BatchProgress :=
  match progress with
  | [] => []
  | event :: rest =>
      let next :=
        if lengthComputable event
        then mkProgress (uploadPercent event) "Uploading" true
        else prev in
      next :: upload_displays next rest
  end.

(** The accuracy of the doubles: between [2^-60] and [2^60] a result is
    rounded with a relative error of at most [2^-53]. *)
Definition accurate (fa : FloatArith) : Prop :=
  forall x : Q,
    (1 # 1152921504606846976 <= x)%Q -> (x <= inject_Z 1152921504606846976)%Q ->
    (x * (1 - (1 # 9007199254740992)) <= rnd x)%Q
    /\ (rnd x <= x * (1 + (1 # 9007199254740992)))%Q.

Definition non_decreasing (l : list Z) : Prop :=
  forall i j x y, (i <= j)%nat -> nth_error l i = Some x -> nth_error l j = Some y ->
                  (x <= y)%Z.

(** The progress state after each occurrence. *)
Definition displayed {rt : JsRuntime} {fa : FloatArith} (os : list Occurrence)
    (st : AdminState) : list BatchProgress :=
  map batchProgress (trace os st).

End Upload.

(** ** Sample streams and uploads *)

Module Sample.
Import JS.

Definition sources_event : string :=
  Json.quoted "data: {'type':'sources','sources':[{'title':'Guide','filename':'guide.pdf','score':0.9}]}".
Definition content_Hel : string := Json.quoted "data: {'type':'content','content':'Hel'}".
Definition content_lo : string := Json.quoted "data: {'type':'content','content':'lo'}".
Definition done_event : string := Json.quoted "data: {'type':'done'}".
Definition error_event : string := Json.quoted "data: {'type':'error','error':'boom'}".
Definition ping_event : string := Json.quoted "data: {'type':'ping'}".

(** The record of a line, as the reference parser reads it. *)
Definition parsed (line : string) : JsValue :=
  match Json.parse (slice 6 line) with
  | Some data => data
  | None => JUndefined
  end.

Definition guide : JsValue := parsed (Json.quoted "123456{'title':'Guide','filename':'guide.pdf','score':0.9}").

(** A response with status 200 whose body arrives in the given chunks. *)
Definition responds (chunks : list string) (ending : Chat.Ending) : Chat.Env :=
  Chat.mkEnv 1000 1000 1001 1001
    (Chat.Response 200 (Some (Chat.mkBody chunks ending))).

Definition no_messages : Chat.ChatState := Chat.mkChat [] false [].

(** A stream of four events, chunk by line and cut at other places. *)
Definition stream : list string := [sources_event; content_Hel; content_lo; done_event].
Definition by_line : list string := map (fun line => line ++ nl) stream.
Definition ragged : list string :=
  let s := Chat.unlines stream in
  [substring 0 17 s; substring 17 100 s; ""; substring 117 1 s;
   substring 118 (String.length s - 118) s].

Definition started : Chat.Run := Chat.fresh no_messages.

(** The messages when the read loop starts: the question, and the answer
    that streams. *)
Definition asked : Chat.ChatState :=
  Chat.mkChat
    [Chat.Msg.mk "msg-1000-user" "hi" Chat.user 1000 None None;
     Chat.Msg.mk "msg-1001-assistant" "" Chat.assistant 1001 (Some true) None]
    true [].
Definition streaming : Chat.Run := Chat.fresh asked.

Definition report : Upload.File := Upload.mkFile "annual_report-2024.pdf" 1048576.
Definition lecture : Upload.File := Upload.mkFile "lecture.MP4" 1610612736.
Definition archive : Upload.File := Upload.mkFile "archive.mkv" 1610612737.

Definition blank : Upload.DocumentMetadata :=
  Upload.mkMeta "" "article" "institute" "hr" "" "" "" true true.

Definition console : Upload.AdminState :=
  Upload.mkAdmin None blank false [] false Upload.idle [] [].

(** The console with one file in the batch, ready to upload. *)
Definition ready : Upload.AdminState :=
  Upload.handleBatchFileSelect (Some [report]) (Upload.setBatchMode true console).

Definition half : Upload.ProgressEvent := Upload.mkEvent true 524288 1048576.
Definition whole : Upload.ProgressEvent := Upload.mkEvent true 1048576 1048576.
Definition unknown_length : Upload.ProgressEvent := Upload.mkEvent false 524288 0.

Definition queued_response : Upload.Completion :=
  Upload.Load 200 "OK" (Json.quoted "{'results':[{'filename':'annual_report-2024.pdf','status':'queued'}]}").

Definition bare_response : Upload.Completion := Upload.Load 200 "OK" "{}".

End Sample.

(** ** More of the chat surface *)

Module ChatMore.
Import JS Flow Chat.

(** [handleNewChat], lines 205-208. *)
Definition handleNewChat (st : ChatState) : ChatState :=
  mkChat [] (isLoading st) (toasts st ++ [toast_success "Started new chat"])%list.

(** [handleQuestionClick], lines 201-203. *)
Definition handleQuestionClick {rt : JsRuntime} (question : string) (env : Env)
    (st : ChatState) : ChatState :=
  handleSendMessage question env st.

(** The title the header gets, line 292. *)
Definition conversationTitle (st : ChatState) : string :=
  if (0 <? List.length (messages st))%nat then "Active Conversation"
  else "New Conversation".

(** *** Vocabulary *)

(** The request does not deliver a whole body: [fetch] rejects, the status
    is not a success, the response has no body, or a read fails. *)
Definition fails (env : Env) : Prop :=
  match fetched env with
  | Rejected => True
  | Response status body =>
      ok status = false
      \/ body = None
      \/ exists chunks, body = Some (mkBody chunks Failed)
  end.

Fixpoint only_spaces (s : string) : bool :=
  match s with
  | "" => true
  | String c r => is_space c && only_spaces r
  end.

Definition last_char (s : string) : option ascii :=
  match rev (list_ascii_of_string s) with
  | c :: _ => Some c
  | [] => None
  end.

(** An update of a message that leaves its id, its role and its timestamp. *)
Definition keeps_identity (f : Msg.t -> Msg.t) : Prop :=
  forall msg, Msg.id (f msg) = Msg.id msg
              /\ Msg.role (f msg) = Msg.role msg
              /\ Msg.timestamp (f msg) = Msg.timestamp msg.

(** The id [handleSendMessage] gives the assistant message. *)
Definition assistant_id (env : Env) : string :=
  "msg-" ++ dec (now_assistant env) ++ "-assistant".

(** The message [handleSendMessage] adds for the user. *)
Definition user_message (message : string) (env : Env) : Msg.t :=
  Msg.mk ("msg-" ++ dec (now_user env) ++ "-user") message user (date_user env) None None.

(** The assistant message as [handleSendMessage] adds it, before the
    response. *)
Definition streaming_message (env : Env) : Msg.t :=
  Msg.mk (assistant_id env) "" assistant (date_assistant env) (Some true) None.

Definition error_toast : Toast := toast_error "Failed to get response. Please try again.".
Definition success_toast : Toast := toast_success "Response completed!".

End ChatMore.

(** ** More of the admin console: editing the batch *)

Module Batch.
Import JS Upload.

(** The keys of [BatchFileMetadata] that hold a string; the call sites of
    [handleBatchMetadataChange] pass five of them. *)
Inductive Field : Type :=
| K_filename
| K_displayName
| K_documentType
| K_documentSource
| K_humanCapabilityDomain
| K_author
| K_publicationDate
| K_description.

(** [{ ...item, [field]: value }] *)
Definition with_field (item : BatchFileMetadata) (field : Field) (value : string)
    : BatchFileMetadata :=
  let m := fields item in
  match field with
  | K_filename => mkBatchFile (file item) value m
  | K_displayName =>
      mkBatchFile (file item) (filename item)
        (mkMeta value (documentType m) (documentSource m) (humanCapabilityDomain m)
                (author m) (publicationDate m) (description m)
                (allowDownload m) (showInViewer m))
  | K_documentType =>
      mkBatchFile (file item) (filename item)
        (mkMeta (displayName m) value (documentSource m) (humanCapabilityDomain m)
                (author m) (publicationDate m) (description m)
                (allowDownload m) (showInViewer m))
  | K_documentSource =>
      mkBatchFile (file item) (filename item)
        (mkMeta (displayName m) (documentType m) value (humanCapabilityDomain m)
                (author m) (publicationDate m) (description m)
                (allowDownload m) (showInViewer m))
  | K_humanCapabilityDomain =>
      mkBatchFile (file item) (filename item)
        (mkMeta (displayName m) (documentType m) (documentSource m) value
                (author m) (publicationDate m) (description m)
                (allowDownload m) (showInViewer m))
  | K_author =>
      mkBatchFile (file item) (filename item)
        (mkMeta (displayName m) (documentType m) (documentSource m)
                (humanCapabilityDomain m) value (publicationDate m) (description m)
                (allowDownload m) (showInViewer m))
  | K_publicationDate =>
      mkBatchFile (file item) (filename item)
        (mkMeta (displayName m) (documentType m) (documentSource m)
                (humanCapabilityDomain m) (author m) value (description m)
                (allowDownload m) (showInViewer m))
  | K_description =>
      mkBatchFile (file item) (filename item)
        (mkMeta (displayName m) (documentType m) (documentSource m)
                (humanCapabilityDomain m) (author m) (publicationDate m) value
                (allowDownload m) (showInViewer m))
  end.

(** [a.map((item, i) => f item i)], the index counted from [i]. *)
Fixpoint map_indexed {A B : Type} (f : A -> nat -> B) (i : nat) (a : list A) : list B :=
  match a with
  | [] => []
  | item :: rest => f item i :: map_indexed f (S i) rest
  end.

(** [a.filter((item, i) => p item i)], the index counted from [i]. *)
Fixpoint filter_indexed {A : Type} (p : A -> nat -> bool) (i : nat) (a : list A) : list A :=
  match a with
  | [] => []
  | item :: rest =>
      if p item i then item :: filter_indexed p (S i) rest
      else filter_indexed p (S i) rest
  end.

(** [handleBatchMetadataChange], lines 451-455. *)
Definition handleBatchMetadataChange (index : nat) (field : Field) (value : string)
    (st : AdminState) : AdminState :=
  setBatchFiles (fun prev =>
    map_indexed (fun item i => if (i =? index)%nat then with_field item field value
                               else item) 0 prev) st.

(** [handleRemoveBatchFile], lines 457-459. *)
Definition handleRemoveBatchFile (index : nat) (st : AdminState) : AdminState :=
  setBatchFiles (fun prev => filter_indexed (fun _ i => negb (i =? index)%nat) 0 prev) st.

(** [handleCancelBatch], lines 572-575. *)
Definition handleCancelBatch (st : AdminState) : AdminState :=
  setBatchMode false (setBatchFiles (fun _ => []) st).

(** The [disabled] of the batch upload button, line 1018. *)
Definition upload_disabled (st : AdminState) : bool :=
  isBatchUploading st
  || existsb (fun f => negb (ToBoolean (JStr (trim (displayName (fields f))))))
             (batchFiles st).

(** The file name a row of the batch shows, line 944. *)
Definition shown_filename (item : BatchFileMetadata) : string :=
  if (25 <? String.length (filename item))%nat
  then substring 0 22 (filename item) ++ "..."
  else filename item.

(** *** Vocabulary *)

(** What the user does to the batch before uploading. *)
Inductive Edit : Type :=
| Select (files : option (list File))
| Change (index : nat) (field : Field) (value : string)
| Remove (index : nat)
| Cancel.

Definition edit (st : AdminState) (e : Edit) : AdminState :=
  match e with
  | Select files => handleBatchFileSelect files st
  | Change index field value => handleBatchMetadataChange index field value st
  | Remove index => handleRemoveBatchFile index st
  | Cancel => handleCancelBatch st
  end.

Definition within_limit (item : BatchFileMetadata) : Prop :=
  (size (file item) <= MAX_FILE_SIZE)%Z.

(** The display name is blank: empty after trimming. *)
Definition blank_name (item : BatchFileMetadata) : bool :=
  negb (ToBoolean (JStr (trim (displayName (fields item))))).

(** The item of the response counts as queued: its [status] is the string
    [queued]. *)
Definition is_queued (r : JsValue) : bool :=
  match Get r "status" with
  | Some status => strict_eq_str status "queued"
  | None => false
  end.

(** The text of the alert after an upload of which [queuedCount] files were
    queued. *)
Definition complete_text (queuedCount : nat) : string :=
  "Batch upload complete! " ++ dec (Z.of_nat queuedCount) ++ " file"
  ++ (if (queuedCount =? 1)%nat then "" else "s") ++ " queued for processing.".

(** The request ended with a success status and a body that parses, but to a
    value whose [results] cannot be filtered: it is no array, or holds
    [null]. *)
Definition succeeded_without_results {rt : JsRuntime} (final : Completion) : Prop :=
  exists status statusText responseText result,
    final = Load status statusText responseText
    /\ (200 <= status < 300)%Z
    /\ JSON_parse responseText = Some result
    /\ match Get result "results" with
       | Some results => filter_queued results = None
       | None => True
       end.

End Batch.

(** ** The chat input *)

(** The [ChatInput] component as [Chat] mounts it (lines 379-383 of
    [components/Chat/index.tsx]), with [isLoading] of the chat for both its
    [isLoading] and its [disabled]. *)
Module Composer.
Import JS Flow Chat.

(** The text of the input and the chat it sends to. *)
Record Composer : Type := mkComposer {
  message : string;
  chat : ChatState
}.

(** [handleMessageChange], lines 103-105. *)
Definition handleMessageChange (value : string) (c : Composer) : Composer :=
  mkComposer value (chat c).

(** [handleSend], lines 89-94; [onSendMessage] is [handleSendMessage]. *)
Definition handleSend {rt : JsRuntime} (env : Env) (c : Composer) : Composer :=
  let isLoading := Chat.isLoading (chat c) in
  let disabled := Chat.isLoading (chat c) in
  if ToBoolean (JStr (trim (message c))) && negb isLoading && negb disabled then
    mkComposer "" (handleSendMessage (message c) env (chat c))
  else c.

(** [handleKeyPress], lines 96-101. *)
Definition handleKeyPress {rt : JsRuntime} (key : string) (shiftKey : bool) (env : Env)
    (c : Composer) : Composer :=
  if String.eqb key "Enter" && negb shiftKey then handleSend env c else c.

(** The [disabled] of the send button, line 169. *)
Definition send_disabled (c : Composer) : bool :=
  negb (ToBoolean (JStr (trim (message c))))
  || Chat.isLoading (chat c) || Chat.isLoading (chat c).

End Composer.

(** ** Opening a source *)

(** [handleSourceClick] of [components/Chat/index.tsx] and the choice of the
    viewer. *)
Module Viewer.
Import JS Flow Chat.

(** [interface Source], the fields the handler reads. The title and the file
    name are strings, as the interface declares them; an optional field
    holds [JUndefined] when it is absent, and whatever the server sent
    otherwise. A spread copy keeps the fields that are not read. *)
Record Source : Type := mkSource {
  title : string;
  filename : string;
  fileUrl : JsValue;
  content_type : JsValue;
  start_time : JsValue
}.

(** [{ ...source, fileUrl: documentUrl }] *)
Definition with_fileUrl (source : Source) (documentUrl : JsValue) : Source :=
  mkSource (title source) (filename source) documentUrl (content_type source)
           (start_time source).

(** The test of lines 224-226, and again of lines 436-438. *)
Definition isVideo (source : Source) : bool :=
  strict_eq_str (content_type source) "video"
  || strict_eq_str (content_type source) "lesson_video"
  || match start_time source with
     | JUndefined | JNull => false
     | _ => true
     end.

(** What [fetch] and then [json()] give: [fetch] rejects, or the response
    has its [ok] and a body that [json()] parses or rejects. *)
Inductive Reply : Type :=
| Unreachable
| Answers (ok : bool) (json : option JsValue).

Inductive Icon : Type := Camera | Page.

(** A [toast(text, { icon, duration })], or [toast.error]. *)
Inductive Notice : Type :=
| Opening (text : string) (icon : Icon) (duration : Z)
| Failure (text : string).

Inductive Shown : Type := VideoViewer | DocumentViewer.

(** The state the handler writes and the requests it makes, each named by
    its path under [config.API_BASE_URL]. *)
Record ViewerState : Type := mkViewer {
  selectedDocument : option Source;
  notices : list Notice;
  requests : list string
}.

Definition setSelectedDocument (d : option Source) (st : ViewerState) : ViewerState :=
  mkViewer d (notices st) (requests st).

Definition toast (n : Notice) (st : ViewerState) : ViewerState :=
  mkViewer (selectedDocument st) (notices st ++ [n])%list (requests st).

Definition fetch (path : string) (st : ViewerState) : ViewerState :=
  mkViewer (selectedDocument st) (notices st) (requests st ++ [path])%list.

(** *** [encodeURIComponent] on code units below 256 *)

Definition hex_digit (n : nat) : ascii :=
  if (n <? 10)%nat then ascii_of_nat (48 + n) else ascii_of_nat (55 + n).

(** [%XX] for a byte *)
Definition percent_byte (n : nat) : string :=
  String "%" (String (hex_digit (n / 16)) (String (hex_digit (n mod 16)) "")).

(** The characters that are not escaped: letters, digits and [-_.!~*'()]. *)
Definition unreserved (c : ascii) : bool :=
  let n := nat_of_ascii c in
  ((65 <=? n) && (n <=? 90))%nat || ((97 <=? n) && (n <=? 122))%nat
  || ((48 <=? n) && (n <=? 57))%nat || Upload.is_char c "-_.!~*'()".

(** The escape of a character: the bytes of its UTF-8 form, one below 128
    and two from 128 on. *)
Definition escape (c : ascii) : string :=
  let n := nat_of_ascii c in
  if unreserved c then String c ""
  else if (n <? 128)%nat then percent_byte n
  else percent_byte (192 + n / 64) ++ percent_byte (128 + n mod 64).

Fixpoint encodeURIComponent (s : string) : string :=
  match s with
  | "" => ""
  | String c r => escape c ++ encodeURIComponent r
  end.

(** *** The handler *)

Definition download_path (source : Source) : string :=
  "/api/ingestion/documents/" ++ encodeURIComponent (filename source) ++ "/download".

Definition documents_path : string := "/api/ingestion/documents?limit=100".

Definition fallback_path (source : Source) : string :=
  "/api/documents/" ++ encodeURIComponent (filename source).

(** [documents.find((d) => d.filename === name)]: [None] is the TypeError of
    reading [filename] of [null]; [Some JUndefined] is no document found. *)
Fixpoint find_document (name : string) (documents : list JsValue) : option JsValue :=
  match documents with
  | [] => Some JUndefined
  | d :: rest =>
      match Get d "filename" with
      | None => None
      | Some found => if strict_eq_str found name then Some d else find_document name rest
      end
  end.

(** Lines 246-251 after [docsData] is there: the URL to take, [None] when
    the [try] is left by a TypeError or the [if] is not entered. *)
Definition listed_url (name : string) (docsData : JsValue) : option JsValue :=
  match Get docsData "documents" with
  | Some (JArr documents) =>
      match find_document name documents with
      | Some doc =>
          if ToBoolean doc then
            match Get doc "fileUrl" with
            | Some url => if ToBoolean url then Some url else None
            | None => None
            end
          else None
      | None => None
      end
  | _ => None
  end.

Section Handler.
(** [config.API_BASE_URL] *)
Variable API_BASE_URL : string.

(** [handleSourceClick], lines 220-274, with what the two requests are
    answered when they are made. No statement of its outer [try] throws on
    a [Source], so its [catch] is not entered. *)
Definition handleSourceClick (source : Source) (download documents : Reply)
    (st : ViewerState) : ViewerState :=
  let documentUrl := fileUrl source in
  let '(documentUrl, st) :=
    if negb (ToBoolean documentUrl) then
      let st := fetch (download_path source) st in
      match download with
      | Answers true (Some urlData) =>
          match Get urlData "url" with
          | Some url => (url, st)
          | None => (documentUrl, st)
          end
      | _ => (documentUrl, st)
      end
    else (documentUrl, st) in
  let '(documentUrl, st) :=
    if negb (ToBoolean documentUrl) then
      let st := fetch documents_path st in
      match documents with
      | Answers _ (Some docsData) =>
          match listed_url (filename source) docsData with
          | Some url => (url, st)
          | None => (documentUrl, st)
          end
      | _ => (documentUrl, st)
      end
    else (documentUrl, st) in
  let documentUrl :=
    if negb (ToBoolean documentUrl)
    then JStr (API_BASE_URL ++ fallback_path source)
    else documentUrl in
  let st := setSelectedDocument (Some (with_fileUrl source documentUrl)) st in
  toast (Opening ("Opening " ++ title source ++ "...")
                 (if isVideo source then Camera else Page) 1000) st.
End Handler.

(** [handleCloseDocument], lines 276-278. *)
Definition handleCloseDocument (st : ViewerState) : ViewerState :=
  setSelectedDocument None st.

(** The viewer the component renders, lines 436-456: none without a
    selected document. *)
Definition viewer (st : ViewerState) : option Shown :=
  match selectedDocument st with
  | None => None
  | Some d => Some (if isVideo d then VideoViewer else DocumentViewer)
  end.

(** *** Vocabulary *)

(** The download endpoint gives a URL that is taken. *)
Definition download_gives (download : Reply) (url : JsValue) : Prop :=
  exists urlData, download = Answers true (Some urlData)
                  /\ Get urlData "url" = Some url /\ ToBoolean url = true.

(** The list of documents gives a URL for the file name. *)
Definition list_gives (name : string) (documents : Reply) (url : JsValue) : Prop :=
  exists ok docsData, documents = Answers ok (Some docsData)
                      /\ listed_url name docsData = Some url.

End Viewer.

(** ** The source cards *)

(** [conceptsList] and [cleanSummary] of [components/Chat/SourceCards.tsx]. *)
Module Cards.
Import JS.

(** [s.split(sep)] for a separator of one character: the segments between
    its places, never the empty array. *)
Fixpoint split (sep : ascii) (s : string) : list string :=
  match s with
  | "" => [""]
  | String c s' =>
      if Ascii.eqb c sep then "" :: split sep s'
      else match split sep s' with
           | seg :: segs => String c seg :: segs
           | [] => [String c ""]
           end
  end.

(** [conceptsList], lines 136-138; [concepts] is [source.concepts], a string
    or [undefined]. *)
Definition conceptsList (concepts : option string) : list string :=
  match concepts with
  | Some s =>
      if ToBoolean (JStr s)
      then firstn 4 (filter (fun c => ToBoolean (JStr c)) (map trim (split "," s)))
      else []
  | None => []
  end.

(** *** Regular expressions *)

(** The expressions the patterns of [cleanSummary] are made of. *)
Inductive Regex : Type :=
| Chr (p : ascii -> bool)
| Eps
| Seq (r1 r2 : Regex)
| Alt (r1 r2 : Regex)
| Star (r : Regex).

(** [r?] and [r+], both greedy *)
Definition Opt (r : Regex) : Regex := Alt r Eps.
Definition Plus (r : Regex) : Regex := Seq r (Star r).

(** Greedy iteration of the matcher [m]: one more round if it succeeds with
    the rest of the pattern, the rest of the pattern from here if not. A
    round that takes no character is refused. *)
Fixpoint iterate (m : string -> (string -> option string) -> option string)
    (k : string -> option string) (fuel : nat) (s : string) : option string :=
  match fuel with
  | O => k s
  | S fuel' =>
      match m s (fun s1 => if (String.length s1 <? String.length s)%nat
                           then iterate m k fuel' s1 else None) with
      | Some x => Some x
      | None => k s
      end
  end.

(** Backtracking match of [r] at the start of [s], [k] being the rest of the
    pattern: the first success in the order of the engine, alternatives
    from the left and the longest iteration first. *)
Fixpoint exec_re (r : Regex) : string -> (string -> option string) -> option string :=
  match r with
  | Chr p => fun s k =>
      match s with
      | String c rest => if p c then k rest else None
      | "" => None
      end
  | Eps => fun s k => k s
  | Seq r1 r2 => fun s k => exec_re r1 s (fun s1 => exec_re r2 s1 k)
  | Alt r1 r2 => fun s k =>
      match exec_re r1 s k with
      | Some x => Some x
      | None => exec_re r2 s k
      end
  | Star r1 => fun s k => iterate (exec_re r1) k (String.length s) s
  end.

(** A character under the [i] flag: the same letter in either case. *)
Definition chr_i (c : ascii) : Regex :=
  Chr (fun d => Ascii.eqb (Upload.lower d) (Upload.lower c)).

(** A literal text under the [i] flag *)
Fixpoint lit_i (s : string) : Regex :=
  match s with
  | "" => Eps
  | String c r => Seq (chr_i c) (lit_i r)
  end.

(** [\d], [\s] and [[^:]] *)
Definition digit : Regex :=
  Chr (fun d => ((48 <=? nat_of_ascii d) && (nat_of_ascii d <=? 57))%nat).
Definition space : Regex := Chr is_space.
Definition not_colon : Regex := Chr (fun d => negb (Ascii.eqb d ":")).

(** [/^Here is a \d+-?\d* sentence summary[^:]*:\s*/i] *)
Definition numbered_summary : Regex :=
  Seq (lit_i "Here is a ")
 (Seq (Plus digit)
 (Seq (Opt (chr_i "-"))
 (Seq (Star digit)
 (Seq (lit_i " sentence summary")
 (Seq (Star not_colon)
 (Seq (chr_i ":") (Star space))))))).

(** [(comprehensive |brief |concise )?] *)
Definition kind : Regex :=
  Opt (Alt (lit_i "comprehensive ") (Alt (lit_i "brief ") (lit_i "concise "))).

(** [/^Here is a (comprehensive |brief |concise )?summary[^:]*:\s*/i] *)
Definition here_is_summary : Regex :=
  Seq (lit_i "Here is a ")
 (Seq kind
 (Seq (lit_i "summary")
 (Seq (Star not_colon)
 (Seq (chr_i ":") (Star space))))).

(** [/^Here's a (comprehensive |brief |concise )?summary[^:]*:\s*/i] *)
Definition heres_summary : Regex :=
  Seq (lit_i "Here's a ")
 (Seq kind
 (Seq (lit_i "summary")
 (Seq (Star not_colon)
 (Seq (chr_i ":") (Star space))))).

(** [/^Summary:\s*/i] *)
Definition summary_colon : Regex := Seq (lit_i "Summary:") (Star space).

Definition patterns : list Regex :=
  [numbered_summary; here_is_summary; heres_summary; summary_colon].

(** [text.replace(pattern, '')] for a pattern that starts with [^] and has
    no [g] flag: the text without the match at its start, or the text. *)
Definition replace (pattern : Regex) (text : string) : string :=
  match exec_re pattern text Some with
  | Some rest => rest
  | None => text
  end.

(** [cleanSummary], lines 74-88. *)
Definition cleanSummary (text : string) : string :=
  if negb (ToBoolean (JStr text)) then ""
  else trim (fold_left (fun cleaned pattern => replace pattern cleaned) patterns text).

(** [source.summary || source.content || ''], line 142, for strings or
    [undefined]. *)
Definition rawContent (summary content : option string) : string :=
  let truthy x := match x with Some s => ToBoolean (JStr s) | None => false end in
  if truthy summary then or_empty summary
  else if truthy content then or_empty content
  else "".

(** *** Vocabulary *)

(** Pieces with a comma between each two. *)
Fixpoint joined (pieces : list string) : string :=
  match pieces with
  | [] => ""
  | [piece] => piece
  | piece :: rest => piece ++ "," ++ joined rest
  end.

(** [t] is what is left of [s] after some characters at its start. *)
Fixpoint suffix (t s : string) : Prop :=
  t = s \/ match s with
           | "" => False
           | String _ r => suffix t r
           end.

(** The text does not start like a preamble: its first character is none
    of [H], [h], [S] and [s]. *)
Definition plain_start (text : string) : bool :=
  match text with
  | "" => true
  | String c _ => negb (Upload.is_char c "HhSs")
  end.

End Cards.

(** ** More of the admin console: the document list, the single upload, the
    document actions and the system prompt *)

Module Library.
Import JS Flow Flow.Notations Upload.

(** What [fetch] gives and what reading the body gives: [fetch] rejects, or
    there is a status and a body whose text can be read or not. *)
Inductive Answer : Type :=
| Rejected
| Response (status : Z) (text : option string).

(** [response.json()]: the body read and parsed; [None] when it rejects. *)
Definition json {rt : JsRuntime} (text : option string) : option JsValue :=
  match text with
  | Some t => JSON_parse t
  | None => None
  end.

Section Engine.
Context {rt : JsRuntime}.
(** The text [String(e)] of an exception that the engine throws itself. *)
Variable engine_text : JsError -> string.

(** [`${e}`] for a caught exception *)
Definition String_of_error (e : JsError) : string :=
  match e with
  | Error message => if String.eqb message "" then "Error" else "Error: " ++ message
  | _ => engine_text e
  end.

(** *** The list of documents *)

(** The state [fetchDocuments] reads and writes, and the queries it sent,
    each the parameters given to [URLSearchParams] in their order. *)
Record Listing : Type := mkListing {
  documents : JsValue;
  isLoading : bool;
  error : JsValue;
  searchTerm : string;
  filterSource : string;
  filterType : string;
  queries : list (list (string * string))
}.

Definition setDocuments (d : JsValue) (st : Listing) : Listing :=
  mkListing d (isLoading st) (error st) (searchTerm st) (filterSource st) (filterType st)
            (queries st).

Definition setIsLoading (b : bool) (st : Listing) : Listing :=
  mkListing (documents st) b (error st) (searchTerm st) (filterSource st) (filterType st)
            (queries st).

Definition setError (e : JsValue) (st : Listing) : Listing :=
  mkListing (documents st) (isLoading st) e (searchTerm st) (filterSource st) (filterType st)
            (queries st).

Definition fetch_documents (params : list (string * string)) (st : Listing) : Listing :=
  mkListing (documents st) (isLoading st) (error st) (searchTerm st) (filterSource st)
            (filterType st) (queries st ++ [params])%list.

(** Lines 102-115. *)
Definition params (st : Listing) : list (string * string) :=
  ([("page", "1"); ("limit", "50")]
   ++ (if ToBoolean (JStr (searchTerm st)) then [("search", searchTerm st)] else [])
   ++ (if negb (String.eqb (filterSource st) "all") then [("source", filterSource st)] else [])
   ++ (if negb (String.eqb (filterType st) "all") then [("doc_type", filterType st)] else [])
  )%list.

(** [v.length] for a value that is neither [null] nor [undefined]: the
    number of items of an array, the number of code units of a string, the
    own property of an object, [undefined] for a number or a boolean. *)
Definition length_of (v : JsValue) : JsValue :=
  match v with
  | JArr items => JNum (Z.of_nat (List.length items)) 0
  | JStr s => JNum (Z.of_nat (String.length s)) 0
  | JObj fields =>
      match lookup "length" fields with
      | Some w => w
      | None => JUndefined
      end
  | _ => JUndefined
  end.

(** The primitive value that [v > 0] compares and that a string attribute
    takes, as a text: [None] is the TypeError of an object, or of an array
    with such an item, whose own [toString] property hides the inherited
    method. Of a record read from JSON no own property is callable, so only
    the inherited [toString] gives a primitive value, in either order of the
    conversion. *)
Definition to_primitive (v : JsValue) : option string := ToString v.

(** The [try] block of [fetchDocuments], lines 101-153. The test of lines
    148-152 only chooses what is logged, but its comparison converts
    [data.documents.length] and can throw. *)
Definition load (answer : Answer) : M Listing unit :=
  params <- read params ;;
  modify (fetch_documents params) ;;
  match answer with
  | Rejected => throw NetworkFailure
  | Response status body =>
      text <- orThrow body NetworkFailure ;;
      if negb (Chat.ok status) then
        throw (Error ("HTTP error! status: " ++ dec status ++ ", body: "
                      ++ substring 0 200 text))
      else
        data <- try_catch (orThrow (JSON_parse text) SyntaxError)
                  (fun _ => throw (Error ("Invalid JSON response: " ++ substring 0 200 text))) ;;
        error <- orThrow (Get data "error") TypeError ;;
        (if ToBoolean error then modify (setError error) else ret tt) ;;
        documents <- orThrow (Get data "documents") TypeError ;;
        modify (setDocuments (or_else documents (JArr []))) ;;
        if ToBoolean documents then
          length <- orThrow (to_primitive (length_of documents)) TypeError ;;
          ret tt
        else ret tt
  end.

(** [fetchDocuments], lines 97-160. *)
Definition fetchDocuments (answer : Answer) (st : Listing) : Listing :=
  let st := setIsLoading true st in
  let st := setError JNull st in
  exec (try_finally
          (try_catch (load answer)
             (fun error =>
                modify (setError (JStr ("Failed to fetch documents: "
                                        ++ String_of_error error))) ;;
                modify (setDocuments (JArr []))))
          (setIsLoading false)) st.

(** *** The single upload *)

(** The admin state with the flag of the single upload and the files that
    were posted to [/api/ingestion/upload], each with its metadata. *)
Record Console : Type := mkConsole {
  admin : AdminState;
  isUploading : bool;
  posted : list (File * DocumentMetadata)
}.

Definition on_admin (f : AdminState -> AdminState) (c : Console) : Console :=
  mkConsole (f (admin c)) (isUploading c) (posted c).

Definition setIsUploading (b : bool) (c : Console) : Console :=
  mkConsole (admin c) b (posted c).

Definition post (file : File) (meta : DocumentMetadata) (c : Console) : Console :=
  mkConsole (admin c) (isUploading c) (posted c ++ [(file, meta)])%list.

(** The form as [handleUpload] resets it, lines 384-394. *)
Definition empty_form : DocumentMetadata :=
  mkMeta "" "article" "institute" "hr" "" "" "" true true.

(** The [try] block of [handleUpload], lines 368-408. *)
Definition upload (answer : Answer) (file : File) (meta : DocumentMetadata)
    : M Console unit :=
  modify (post file meta) ;;
  match answer with
  | Rejected => throw NetworkFailure
  | Response status body =>
      if Chat.ok status then
        result <- orThrow (json body) SyntaxError ;;
        modify (on_admin (alert "Document uploaded successfully!")) ;;
        modify (on_admin (setSelectedFile None)) ;;
        modify (on_admin (setMetadata (fun _ => empty_form))) ;;
        modify (on_admin (perform FetchDocuments))
      else
        error <- orThrow body NetworkFailure ;;
        if (status =? 413)%Z then
          modify (on_admin
                    (alert "File is too large. Please select a file smaller than 1.5 GB."))
        else modify (on_admin (alert ("Upload failed: " ++ error)))
  end.

(** [handleUpload], lines 355-414. *)
Definition handleUpload (answer : Answer) (c : Console) : Console :=
  match selectedFile (admin c) with
  | Some file =>
      if negb (ToBoolean (JStr (displayName (metadata (admin c))))) then
        on_admin (alert "Please select a file and provide a display name") c
      else
        let c := setIsUploading true c in
        exec (try_finally
                (try_catch (upload answer file (metadata (admin c)))
                   (fun error =>
                      modify (on_admin (alert ("Upload failed: " ++ String_of_error error)))))
                (setIsUploading false)) c
  | None => on_admin (alert "Please select a file and provide a display name") c
  end.

(** *** The actions on a document *)

(** [interface Document], the fields the actions read. *)
Record Document : Type := mkDocument {
  filename : string;
  displayName : string;
  allowDownload : bool;
  fileUrl : option string;
  bucket : option string
}.

(** What an action does outside the state. *)
Inductive Action : Type :=
| Request (method path : string)
| Open (url : JsValue)
| Save (href : JsValue) (download : string)
| Notify (text : string)
| Refresh.

Definition act (a : Action) : M (list Action) unit := modify (fun done => done ++ [a])%list.

(** [doc.bucket || 'documents'] *)
Definition bucket_of (doc : Document) : string :=
  match bucket doc with
  | Some b => if ToBoolean (JStr b) then b else "documents"
  | None => "documents"
  end.

Definition document_path (doc : Document) : string :=
  "/api/ingestion/documents/" ++ Viewer.encodeURIComponent (filename doc).

(** [handleViewDocument], lines 246-264. [window.open] takes its URL as a
    string, and the conversion of [data.url] can throw. *)
Definition handleViewDocument (doc : Document) (answer : Answer) (done : list Action)
    : list Action :=
  let has_url := match fileUrl doc with Some u => ToBoolean (JStr u) | None => false end in
  if has_url then exec (act (Open (JStr (or_empty (fileUrl doc))))) done
  else if ToBoolean (JStr (filename doc)) then
    exec (try_catch
            (act (Request "GET" (document_path doc ++ "/download?bucket=" ++ bucket_of doc)) ;;
             match answer with
             | Rejected => throw NetworkFailure
             | Response status body =>
                 if Chat.ok status then
                   data <- orThrow (json body) SyntaxError ;;
                   url <- orThrow (Get data "url") TypeError ;;
                   href <- orThrow (to_primitive url) TypeError ;;
                   act (Open url)
                 else ret tt
             end)
            (fun _ => act (Notify "Failed to open document"))) done
  else done.

(** [handleDownloadDocument], lines 266-291. [link.href] takes its value as
    a string, and the conversion of [data.url] can throw. *)
Definition handleDownloadDocument (doc : Document) (answer : Answer) (done : list Action)
    : list Action :=
  if negb (allowDownload doc) then
    exec (act (Notify "Download is not permitted for this document")) done
  else
    exec (try_catch
            (act (Request "GET" (document_path doc ++ "/download?bucket=" ++ bucket_of doc)) ;;
             match answer with
             | Rejected => throw NetworkFailure
             | Response status body =>
                 if Chat.ok status then
                   data <- orThrow (json body) SyntaxError ;;
                   url <- orThrow (Get data "url") TypeError ;;
                   href <- orThrow (to_primitive url) TypeError ;;
                   act (Save url (displayName doc ++ ".pdf"))
                 else act (Notify "Failed to download document")
             end)
            (fun _ => act (Notify "Failed to download document"))) done.

(** [handleDeleteDocument], lines 293-315; [confirmed] is what
    [window.confirm] returns. *)
Definition handleDeleteDocument (doc : Document) (confirmed : bool) (answer : Answer)
    (done : list Action) : list Action :=
  if negb confirmed then done
  else
    exec (try_catch
            (act (Request "DELETE" (document_path doc ++ "?bucket=" ++ bucket_of doc)) ;;
             match answer with
             | Rejected => throw NetworkFailure
             | Response status body =>
                 if Chat.ok status then
                   act (Notify "Document deleted successfully") ;;
                   act Refresh
                 else
                   error <- orThrow body NetworkFailure ;;
                   act (Notify ("Failed to delete document: " ++ error))
             end)
            (fun error =>
               act (Notify ("Failed to delete document: " ++ String_of_error error)))) done.

(** *** The system prompt *)

Record Prompt : Type := mkPrompt {
  systemPrompt : JsValue;
  isCustomPrompt : bool;
  promptSaving : bool;
  promptError : option string;
  promptSuccess : option string;
  clearing : nat;
  sent : list (string * string)
}.

Definition setSystemPrompt (v : JsValue) (p : Prompt) : Prompt :=
  mkPrompt v (isCustomPrompt p) (promptSaving p) (promptError p) (promptSuccess p)
           (clearing p) (sent p).
Definition setIsCustomPrompt (b : bool) (p : Prompt) : Prompt :=
  mkPrompt (systemPrompt p) b (promptSaving p) (promptError p) (promptSuccess p)
           (clearing p) (sent p).
Definition setPromptSaving (b : bool) (p : Prompt) : Prompt :=
  mkPrompt (systemPrompt p) (isCustomPrompt p) b (promptError p) (promptSuccess p)
           (clearing p) (sent p).
Definition setPromptError (e : option string) (p : Prompt) : Prompt :=
  mkPrompt (systemPrompt p) (isCustomPrompt p) (promptSaving p) e (promptSuccess p)
           (clearing p) (sent p).
Definition setPromptSuccess (m : option string) (p : Prompt) : Prompt :=
  mkPrompt (systemPrompt p) (isCustomPrompt p) (promptSaving p) (promptError p) m
           (clearing p) (sent p).
(** [setTimeout(() => setPromptSuccess(null), 3000)]: one more timer that
    will clear the success message. *)
Definition clear_later (p : Prompt) : Prompt :=
  mkPrompt (systemPrompt p) (isCustomPrompt p) (promptSaving p) (promptError p)
           (promptSuccess p) (S (clearing p)) (sent p).
Definition send (method path : string) (p : Prompt) : Prompt :=
  mkPrompt (systemPrompt p) (isCustomPrompt p) (promptSaving p) (promptError p)
           (promptSuccess p) (clearing p) (sent p ++ [(method, path)])%list.

(** [handleSavePrompt], lines 193-216. *)
Definition handleSavePrompt (answer : Answer) (p : Prompt) : Prompt :=
  let p := setPromptSaving true p in
  let p := setPromptError None p in
  let p := setPromptSuccess None p in
  exec (try_finally
          (try_catch
             (modify (send "PUT" "/api/ingestion/system-prompt") ;;
              match answer with
              | Rejected => throw NetworkFailure
              | Response status body =>
                  if Chat.ok status then
                    modify (setIsCustomPrompt true) ;;
                    modify (setPromptSuccess (Some "System prompt saved successfully!")) ;;
                    modify clear_later
                  else
                    error <- orThrow body NetworkFailure ;;
                    modify (setPromptError (Some ("Failed to save: " ++ error)))
              end)
             (fun error =>
                modify (setPromptError (Some ("Failed to save: " ++ String_of_error error)))))
          (setPromptSaving false)) p.

(** [handleResetPrompt], lines 218-244. *)
Definition handleResetPrompt (confirmed : bool) (answer : Answer) (p : Prompt) : Prompt :=
  if negb confirmed then p
  else
    let p := setPromptSaving true p in
    let p := setPromptError None p in
    let p := setPromptSuccess None p in
    exec (try_finally
            (try_catch
               (modify (send "POST" "/api/ingestion/system-prompt/reset") ;;
                match answer with
                | Rejected => throw NetworkFailure
                | Response status body =>
                    if Chat.ok status then
                      data <- orThrow (json body) SyntaxError ;;
                      prompt <- orThrow (Get data "prompt") TypeError ;;
                      modify (setSystemPrompt prompt) ;;
                      modify (setIsCustomPrompt false) ;;
                      modify (setPromptSuccess (Some "System prompt reset to default!")) ;;
                      modify clear_later
                    else
                      error <- orThrow body NetworkFailure ;;
                      modify (setPromptError (Some ("Failed to reset: " ++ error)))
                end)
               (fun error =>
                  modify (setPromptError (Some ("Failed to reset: "
                                                ++ String_of_error error)))))
            (setPromptSaving false)) p.
End Engine.

(** *** Vocabulary *)

(** The request for the list did not give a record to read the documents
    from: it was rejected, the body could not be read, the status was no
    success, the text did not parse, or it parsed to [null]. *)
Definition unreadable {rt : JsRuntime} (answer : Answer) : Prop :=
  match answer with
  | Rejected => True
  | Response status None => True
  | Response status (Some text) =>
      Chat.ok status = false
      \/ match JSON_parse text with
         | Some data => Get data "error" = None
         | None => True
         end
  end.

(** The single upload was taken: a success status and a body that parses. *)
Definition taken {rt : JsRuntime} (answer : Answer) : Prop :=
  exists status body result,
    answer = Response status body /\ Chat.ok status = true /\ json body = Some result.

Definition is_request (a : Action) : bool :=
  match a with
  | Request _ _ => true
  | _ => false
  end.

End Library.

(** * Properties *)

(** ** Strings and line splitting *)

Section Strings.
Import JS Chat.

Lemma append_assoc (a b c : string) : (a ++ b) ++ c = a ++ (b ++ c).
Proof. induction a as [|x a IH]; simpl; [reflexivity | now rewrite IH]. Qed.

Lemma append_empty_r (a : string) : a ++ "" = a.
Proof. induction a as [|x a IH]; simpl; [reflexivity | now rewrite IH]. Qed.

Lemma split_nl_not_nil (s : string) : split_nl s <> [].
Proof.
  induction s as [|c s IH]; simpl; [discriminate|].
  destruct (Ascii.eqb c LF); [discriminate|].
  destruct (split_nl s); discriminate.
Qed.

Lemma split_nl_LF (s : string) : split_nl (String LF s) = "" :: split_nl s.
Proof. reflexivity. Qed.

Lemma split_nl_other (c : ascii) (s : string) :
  Ascii.eqb c LF = false ->
  split_nl (String c s) = String c (hd "" (split_nl s)) :: tl (split_nl s).
Proof.
  intros H. simpl. rewrite H.
  pose proof (split_nl_not_nil s) as Hne.
  destruct (split_nl s); [contradiction | reflexivity].
Qed.

(** Splitting a concatenation: the last segment of the first part and the
    first segment of the second part are one segment. *)
Lemma split_nl_app (a b : string) :
  split_nl (a ++ b) =
  (removelast (split_nl a)
   ++ (last (split_nl a) "" ++ hd "" (split_nl b))%string :: tl (split_nl b))%list.
Proof.
  induction a as [|c a IH].
  - simpl. pose proof (split_nl_not_nil b) as Hne.
    destruct (split_nl b); [contradiction | reflexivity].
  - change (String c a ++ b) with (String c (a ++ b)).
    destruct (Ascii.eqb c LF) eqn:Hc.
    + apply Ascii.eqb_eq in Hc. subst c.
      rewrite !split_nl_LF, IH.
      pose proof (split_nl_not_nil a) as Hne.
      destruct (split_nl a) as [|x xs]; [contradiction | reflexivity].
    + rewrite !(split_nl_other _ _ Hc), IH.
      pose proof (split_nl_not_nil a) as Hne.
      destruct (split_nl a) as [|x [|y xs]]; [contradiction | reflexivity | reflexivity].
Qed.

Lemma last_cons_default {A : Type} (rest : list A) (x d : A) :
  last (x :: rest) d = last rest x.
Proof.
  revert x d. induction rest as [|y rest IH]; intros x d; [reflexivity|].
  change (last (x :: y :: rest) d) with (last (y :: rest) d).
  rewrite IH. symmetry. apply IH.
Qed.

Lemma last_app_cons {A : Type} (l l' : list A) (x d : A) :
  last (l ++ x :: l') d = last (x :: l') d.
Proof.
  induction l as [|y l IH]; [reflexivity|].
  rewrite <- IH. simpl. destruct (l ++ x :: l')%list eqn:E; [|reflexivity].
  destruct l; discriminate.
Qed.

Lemma pop_split_nl (s : string) :
  pop (split_nl s) = (Some (residual s), complete_lines s).
Proof.
  unfold pop, residual, complete_lines.
  pose proof (split_nl_not_nil s) as Hne.
  destruct (split_nl s) as [|x xs]; [contradiction|].
  now rewrite last_cons_default.
Qed.

Lemma or_empty_Some (s : string) : or_empty (Some s) = s.
Proof.
  unfold or_empty. destruct (String.eqb s "") eqn:E; [|reflexivity].
  apply String.eqb_eq in E. now subst.
Qed.

Lemma split_nl_no_LF (s : string) : no_LF s = true -> split_nl s = [s].
Proof.
  induction s as [|c s IH]; simpl; [reflexivity|].
  intros H. apply andb_prop in H. destruct H as [Hc Hs].
  apply negb_true_iff in Hc. rewrite Hc, (IH Hs). reflexivity.
Qed.

Lemma split_nl_segments (s : string) :
  Forall (fun seg => no_LF seg = true) (split_nl s).
Proof.
  induction s as [|c s IH]; simpl.
  - repeat constructor.
  - destruct (Ascii.eqb c LF) eqn:Hc.
    + constructor; [reflexivity | exact IH].
    + destruct (split_nl s) as [|x xs]; [repeat constructor; simpl; now rewrite Hc|].
      inversion IH; subst. constructor; [simpl; now rewrite Hc | assumption].
Qed.

Lemma residual_no_LF (s : string) : no_LF (residual s) = true.
Proof.
  unfold residual.
  pose proof (split_nl_segments s) as H.
  pose proof (split_nl_not_nil s) as Hne.
  rewrite (app_removelast_last "" Hne) in H.
  apply Forall_app in H. destruct H as [_ H]. inversion H; subst.
  assumption.
Qed.

Lemma split_nl_residual_app (a b : string) :
  split_nl (residual a ++ b) =
  (residual a ++ hd "" (split_nl b))%string :: tl (split_nl b).
Proof.
  rewrite split_nl_app, (split_nl_no_LF _ (residual_no_LF a)). reflexivity.
Qed.

Lemma complete_lines_app (a b : string) :
  complete_lines (a ++ b) = (complete_lines a ++ complete_lines (residual a ++ b))%list.
Proof.
  unfold complete_lines at 1 3. rewrite split_nl_residual_app, split_nl_app.
  rewrite removelast_app by discriminate. reflexivity.
Qed.

Lemma residual_app (a b : string) :
  residual (a ++ b) = residual (residual a ++ b).
Proof.
  unfold residual at 1 2. rewrite split_nl_residual_app, split_nl_app.
  now rewrite last_app_cons.
Qed.

Lemma complete_lines_no_LF (s : string) : no_LF s = true -> complete_lines s = [].
Proof. intros H. unfold complete_lines. now rewrite (split_nl_no_LF _ H). Qed.

Lemma residual_of_no_LF (s : string) : no_LF s = true -> residual s = s.
Proof. intros H. unfold residual. now rewrite (split_nl_no_LF _ H). Qed.

(** A line and its line feed in front of a text. *)
Lemma split_nl_line (line rest : string) :
  no_LF line = true ->
  split_nl (line ++ nl ++ rest) = line :: split_nl rest.
Proof.
  intros H. rewrite split_nl_app, (split_nl_no_LF _ H). simpl.
  now rewrite append_empty_r.
Qed.

Lemma complete_lines_line (line rest : string) :
  no_LF line = true ->
  complete_lines (line ++ nl ++ rest) = line :: complete_lines rest.
Proof.
  intros H. unfold complete_lines. rewrite (split_nl_line _ _ H).
  pose proof (split_nl_not_nil rest) as Hne.
  simpl. destruct (split_nl rest); [contradiction | reflexivity].
Qed.

Lemma residual_line (line rest : string) :
  no_LF line = true -> residual (line ++ nl ++ rest) = residual rest.
Proof.
  intros H. unfold residual. rewrite (split_nl_line _ _ H).
  pose proof (split_nl_not_nil rest) as Hne.
  simpl. destruct (split_nl rest); [contradiction | reflexivity].
Qed.

Lemma text_app (xs ys : list string) : text (xs ++ ys) = text xs ++ text ys.
Proof.
  induction xs as [|x xs IH]; simpl; [reflexivity|].
  now rewrite IH, append_assoc.
Qed.

Lemma unlines_cons (line : string) (lines : list string) :
  unlines (line :: lines) = line ++ nl ++ unlines lines.
Proof. unfold unlines. simpl. now rewrite append_assoc. Qed.

Lemma unlines_app_rest (lines : list string) (rest : string) :
  Forall (fun line => no_LF line = true) lines ->
  complete_lines (unlines lines ++ rest) = (lines ++ complete_lines rest)%list
  /\ residual (unlines lines ++ rest) = residual rest.
Proof.
  induction 1 as [|line lines Hl _ IH]; [split; reflexivity|].
  rewrite unlines_cons, !append_assoc.
  rewrite (complete_lines_line _ _ Hl), (residual_line _ _ Hl).
  destruct IH as [IH1 IH2]. rewrite IH1, IH2. split; reflexivity.
Qed.
End Strings.

(** ** The read loop of the chat *)

Ltac unfold_flow :=
  unfold Flow.bind, Flow.ret, Flow.throw, Flow.try_catch, Flow.try_finally,
    Flow.modify, Flow.read, Flow.orThrow, Flow.exec, Flow.result in *.

Ltac flow_compute :=
  cbv beta iota delta
    [Flow.bind Flow.ret Flow.throw Flow.try_catch Flow.try_finally Flow.modify
     Flow.read Flow.orThrow Flow.exec Flow.result fst snd
     Chat.emit Chat.set_sources Chat.set_accumulatedContent Chat.set_buffer
     Chat.setMessages].

Ltac updates_compute :=
  cbv beta iota delta
    [Flow.bind Flow.ret Flow.throw Flow.try_catch Flow.try_finally Flow.modify
     Flow.read Flow.orThrow Flow.exec Flow.result fst snd
     Chat.emit Chat.set_sources Chat.set_accumulatedContent Chat.set_buffer
     Chat.setMessages Updates.lift Updates.setMessages Updates.run Updates.pending].

Ltac unfold_chat :=
  unfold Chat.emit, Chat.set_sources, Chat.set_accumulatedContent, Chat.set_buffer,
    Chat.setMessages, Chat.with_buffer in *.

Section ReadLoop.
Import JS Flow Flow.Notations Chat.
Context {rt : JsRuntime}.
Variable assistantMessageId : string.

Notation dispatch := (dispatch assistantMessageId).
Notation handle_line := (handle_line assistantMessageId).
Notation for_lines := (for_lines assistantMessageId).
Notation on_chunk := (on_chunk assistantMessageId).
Notation read_loop := (read_loop assistantMessageId).
Notation handle_lines := (handle_lines assistantMessageId).

(** The dispatch neither reads nor writes the carry-over buffer. *)
Lemma dispatch_with_buffer (data : JsValue) (b : string) (r : Run) :
  dispatch data (with_buffer b r) =
  (fst (dispatch data r), with_buffer b (snd (dispatch data r))).
Proof.
  unfold Chat.dispatch. unfold_flow. unfold_chat.
  destruct (Get data "type") as [type|]; simpl; [|reflexivity].
  repeat match goal with
         | |- context [if ?c then _ else _] => destruct c; simpl
         | |- context [match Get ?d ?k with _ => _ end] => destruct (Get d k); simpl
         | |- context [match ToString ?v with _ => _ end] => destruct (ToString v); simpl
         | |- context [match ?p with JUndefined => _ | _ => _ end] => destruct p; simpl
         end; reflexivity.
Qed.

(** No exception leaves the handler of a line. *)
Lemma handle_line_returns (line : string) (r : Run) :
  result (handle_line line) r = Ok tt.
Proof.
  unfold Chat.handle_line. unfold_flow.
  destruct (startsWith line "data: "); [|reflexivity].
  destruct (JSON_parse (slice 6 line)) as [data|]; simpl; [|reflexivity].
  destruct (Chat.dispatch assistantMessageId data r) as [[[]|e] r']; reflexivity.
Qed.

Lemma handle_line_exec (line : string) (r : Run) :
  handle_line line r = (Ok tt, exec (handle_line line) r).
Proof.
  pose proof (handle_line_returns line r) as H. unfold result, exec in *.
  destruct (handle_line line r) as [res r']. simpl in *. now subst.
Qed.

Lemma handle_line_with_buffer (line : string) (b : string) (r : Run) :
  exec (handle_line line) (with_buffer b r) = with_buffer b (exec (handle_line line) r).
Proof.
  unfold Chat.handle_line, exec, try_catch, bind, orThrow.
  destruct (startsWith line "data: "); [|reflexivity].
  destruct (JSON_parse (slice 6 line)) as [data|]; simpl; [|reflexivity].
  rewrite dispatch_with_buffer.
  destruct (Chat.dispatch assistantMessageId data r) as [[[]|e] r']; reflexivity.
Qed.

Lemma handle_lines_with_buffer (lines : list string) (b : string) (r : Run) :
  handle_lines lines (with_buffer b r) = with_buffer b (handle_lines lines r).
Proof.
  revert r. induction lines as [|line lines IH]; intros r; [reflexivity|].
  unfold Chat.handle_lines in *. simpl. now rewrite handle_line_with_buffer, IH.
Qed.

Lemma handle_lines_app (xs ys : list string) (r : Run) :
  handle_lines (xs ++ ys) r = handle_lines ys (handle_lines xs r).
Proof. unfold Chat.handle_lines. apply fold_left_app. Qed.

Lemma for_lines_spec (lines : list string) (r : Run) :
  for_lines lines r = (Ok tt, handle_lines lines r).
Proof.
  revert r. induction lines as [|line lines IH]; intros r; [reflexivity|].
  simpl. unfold bind. rewrite handle_line_exec, IH. reflexivity.
Qed.

Lemma with_buffer_twice (a b : string) (r : Run) :
  with_buffer a (with_buffer b r) = with_buffer a r.
Proof. reflexivity. Qed.

Lemma buffer_with_buffer (b : string) (r : Run) : buffer (with_buffer b r) = b.
Proof. reflexivity. Qed.

Lemma with_buffer_same (r : Run) : with_buffer (buffer r) r = r.
Proof. destruct r; reflexivity. Qed.

(** One chunk: the buffer keeps what follows the last line feed, the lines
    before it go to the handler. *)
Lemma on_chunk_spec (chunk : string) (r : Run) :
  on_chunk chunk r =
  (Ok tt, with_buffer (residual (buffer r ++ chunk))
                      (handle_lines (complete_lines (buffer r ++ chunk)) r)).
Proof.
  unfold Chat.on_chunk, bind, read. rewrite pop_split_nl, or_empty_Some.
  unfold set_buffer, modify. rewrite for_lines_spec.
  f_equal. apply handle_lines_with_buffer.
Qed.

(** The whole loop: the lines handled are the complete lines of the text
    after the buffer, whatever the chunks; what follows the last line feed
    stays in the buffer. *)
Lemma read_loop_spec (chunks : list string) (ending : Ending) (r : Run) :
  no_LF (buffer r) = true ->
  read_loop chunks ending r =
  (match ending with Closed => Ok tt | Failed => Exn NetworkFailure end,
   with_buffer (residual (buffer r ++ text chunks))
               (handle_lines (complete_lines (buffer r ++ text chunks)) r)).
Proof.
  revert r. induction chunks as [|chunk chunks IH]; intros r Hb.
  - simpl. rewrite append_empty_r.
    rewrite (residual_of_no_LF _ Hb), (complete_lines_no_LF _ Hb).
    unfold Chat.handle_lines. simpl. rewrite with_buffer_same.
    destruct ending; reflexivity.
  - simpl. unfold bind. rewrite on_chunk_spec.
    rewrite IH by (rewrite buffer_with_buffer; apply residual_no_LF).
    rewrite buffer_with_buffer, <- append_assoc.
    rewrite (complete_lines_app (buffer r ++ chunk) (text chunks)).
    rewrite (residual_app (buffer r ++ chunk) (text chunks)).
    rewrite handle_lines_app, handle_lines_with_buffer, with_buffer_twice.
    reflexivity.
Qed.

(** The loop started with the empty buffer, as [handleSendMessage] starts it. *)
Corollary read_loop_fresh (chunks : list string) (ending : Ending) (r : Run) :
  buffer r = "" ->
  read_loop chunks ending r =
  (match ending with Closed => Ok tt | Failed => Exn NetworkFailure end,
   with_buffer (residual (text chunks))
               (handle_lines (complete_lines (text chunks)) r)).
Proof.
  intros Hb. rewrite read_loop_spec by (now rewrite Hb). now rewrite Hb.
Qed.
End ReadLoop.

(** ** What [handleSendMessage] makes of a streamed body *)

Section SendMessage.
Import JS Flow Flow.Notations Chat.
Context {rt : JsRuntime}.

Lemma no_LF_app (a b : string) :
  no_LF a = true -> no_LF b = true -> no_LF (a ++ b) = true.
Proof.
  intros Ha Hb. induction a as [|c a IH]; simpl in *; [assumption|].
  apply andb_prop in Ha. destruct Ha as [Hc Ha]. now rewrite Hc, IH.
Qed.

(** A successful response with a body: the lines of its text are handled,
    then the success toast is shown, or the failure of the read is thrown. *)
Lemma request_streams (assistantMessageId : string) (env : Env) (status : Z)
    (chunks : list string) (ending : Ending) (st : ChatState) :
  fetched env = Response status (Some (mkBody chunks ending)) ->
  ok status = true ->
  request assistantMessageId env st =
  let r := handle_lines assistantMessageId (complete_lines (text chunks)) (fresh st) in
  match ending with
  | Closed => (Ok tt, mkChat (messages (ui r)) (isLoading (ui r))
                             (toasts (ui r) ++ [toast_success "Response completed!"])%list)
  | Failed => (Exn NetworkFailure, ui r)
  end.
Proof.
  intros Hf Hok. unfold request. rewrite Hf, Hok. simpl.
  unfold with_locals, bind. rewrite read_loop_fresh by reflexivity.
  destruct ending; reflexivity.
Qed.

(** The state [handleSendMessage] ends in depends on the chunks of the body
    through the complete lines of their text only. *)
Lemma handleSendMessage_lines (message : string) (t1 t2 t3 t4 status : Z)
    (chunks1 chunks2 : list string) (ending : Ending) (st : ChatState) :
  complete_lines (text chunks1) = complete_lines (text chunks2) ->
  handleSendMessage message
    (mkEnv t1 t2 t3 t4 (Response status (Some (mkBody chunks1 ending)))) st =
  handleSendMessage message
    (mkEnv t1 t2 t3 t4 (Response status (Some (mkBody chunks2 ending)))) st.
Proof.
  intros Hlines. unfold handleSendMessage.
  destruct (negb (ToBoolean (JStr (trim message))) || isLoading st); [reflexivity|].
  cbn [now_user date_user now_assistant date_assistant].
  unfold exec, try_finally, try_catch.
  destruct (ok status) eqn:Hok.
  - rewrite (request_streams _
               (mkEnv t1 t2 t3 t4 (Response status (Some (mkBody chunks1 ending))))
               status chunks1 ending _ eq_refl Hok).
    rewrite (request_streams _
               (mkEnv t1 t2 t3 t4 (Response status (Some (mkBody chunks2 ending))))
               status chunks2 ending _ eq_refl Hok).
    rewrite Hlines. reflexivity.
  - unfold request. cbn [fetched]. rewrite Hok. reflexivity.
Qed.

(** C2. Chunking-invariance: two sequences of chunks with the same text, a
    text in which a line feed ends every line, are decoded alike. The read
    loop ends in the same result and the same state, with the same sequence
    of decoded events in it, and [handleSendMessage] ends in the same state
    of the component. *)
Theorem chunking_invariance (chunks1 chunks2 : list string) (ending : Ending) :
  text chunks1 = text chunks2 ->
  well_formed (text chunks1) ->
  (forall assistantMessageId r, buffer r = "" ->
     events (exec (read_loop assistantMessageId chunks1 ending) r) =
     events (exec (read_loop assistantMessageId chunks2 ending) r)
     /\ read_loop assistantMessageId chunks1 ending r =
        read_loop assistantMessageId chunks2 ending r)
  /\ (forall message t1 t2 t3 t4 status st,
        handleSendMessage message
          (mkEnv t1 t2 t3 t4 (Response status (Some (mkBody chunks1 ending)))) st =
        handleSendMessage message
          (mkEnv t1 t2 t3 t4 (Response status (Some (mkBody chunks2 ending)))) st).
Proof.
  intros Htext _. split.
  - intros id r Hb. unfold exec.
    rewrite !(read_loop_fresh id _ ending r Hb), Htext. split; reflexivity.
  - intros message t1 t2 t3 t4 status st.
    apply handleSendMessage_lines. now rewrite Htext.
Qed.

(** The events a line adds are those of its record, whatever the state. *)
Lemma handle_line_events (assistantMessageId : string) (line : string) (r : Run) :
  events (exec (handle_line assistantMessageId line) r)
  = (events r ++ line_events line)%list.
Proof.
  unfold Chat.handle_line, line_events, event_of.
  destruct (startsWith line "data: "); [|cbn; now rewrite app_nil_r].
  unfold Chat.dispatch. flow_compute.
  destruct (JSON_parse (slice 6 line)) as [data|]; [|cbn; now rewrite app_nil_r].
  destruct (Get data "type") as [type|] eqn:Htype; [|cbn; now rewrite app_nil_r].
  assert (Hget : forall k, exists v, Get data k = Some v).
  { intros k. destruct data as [| | | | | |fields]; try discriminate Htype; cbn;
      try (now eexists). destruct (lookup k fields); now eexists. }
  destruct (strict_eq_str type "sources").
  { destruct (Hget "sources") as (payload & ->). reflexivity. }
  destruct (strict_eq_str type "sources_update").
  { destruct (Hget "sources") as (payload & ->). reflexivity. }
  destruct (strict_eq_str type "content").
  { destruct (Hget "content") as (payload & ->). cbn.
    destruct (ToString payload); reflexivity. }
  destruct (strict_eq_str type "done"); [reflexivity|].
  destruct (strict_eq_str type "error").
  { destruct (Hget "error") as (payload & ->). cbn.
    destruct payload; try reflexivity;
      match goal with |- context [ToString ?v] => destruct (ToString v); reflexivity end. }
  cbn. now rewrite app_nil_r.
Qed.

Lemma handle_lines_events (assistantMessageId : string) (lines : list string) (r : Run) :
  events (handle_lines assistantMessageId lines r)
  = (events r ++ flat_map line_events lines)%list.
Proof.
  revert r. induction lines as [|line lines IH]; intros r.
  - cbn. now rewrite app_nil_r.
  - unfold Chat.handle_lines in *. cbn [fold_left flat_map].
    rewrite IH, handle_line_events. now rewrite <- app_assoc.
Qed.

(** A line with a record of one of the five types has one event. *)
Lemma recognized_line_event (line : string) (data type : JsValue) :
  decodes line data -> Get data "type" = Some type -> recognized type = true ->
  exists ev, event_of data = Some ev /\ line_events line = [ev].
Proof.
  intros [Hprefix Hparse] Htype Hrec.
  assert (Hget : forall k, exists v, Get data k = Some v).
  { intros k. destruct data as [| | | | | |fields]; try discriminate Htype; cbn;
      try (now eexists). destruct (lookup k fields); now eexists. }
  assert (Hev : exists ev, event_of data = Some ev).
  { unfold event_of. rewrite Htype. unfold recognized in Hrec. cbn [existsb] in Hrec.
    destruct (strict_eq_str type "sources");
      [destruct (Hget "sources") as (v & ->); now eexists|].
    destruct (strict_eq_str type "sources_update");
      [destruct (Hget "sources") as (v & ->); now eexists|].
    destruct (strict_eq_str type "content");
      [destruct (Hget "content") as (v & ->); now eexists|].
    destruct (strict_eq_str type "done"); [now eexists|].
    destruct (strict_eq_str type "error");
      [destruct (Hget "error") as (v & ->); now eexists|].
    discriminate Hrec. }
  destruct Hev as (ev & Hev). exists ev. split; [exact Hev|].
  unfold line_events. now rewrite Hprefix, Hparse, Hev.
Qed.

(** C3. A line cut by a chunk boundary is handled once. The first chunk
    ends with a part of the line, after whatever lines it completes, the
    first of them together with what the buffer carried over; the second
    chunk starts with the rest [b] of the line and the line feed. [held] is
    what the first chunk leaves of the line. After the first chunk the lines
    before have been handled, [held] waits in the buffer and no event of the
    line is there yet. After the second chunk the handler has run on
    [held ++ b] once, in its place between the lines before and the complete
    lines after, and the events are those after the first chunk, then the
    events of the line, then those of the lines after. The line has at most
    one event, and it has exactly one, that of its record, when the record
    is of one of the five types. *)
Theorem split_line_handled_once (assistantMessageId : string)
    (chunk b after : string) (r : Run) :
  no_LF b = true ->
  let held := residual (buffer r ++ chunk) in
  let lines := complete_lines (buffer r ++ chunk) in
  let r1 := exec (on_chunk assistantMessageId chunk) r in
  let r2 := exec (on_chunk assistantMessageId chunk ;;
                  on_chunk assistantMessageId (b ++ nl ++ after)) r in
  r1 = with_buffer held (handle_lines assistantMessageId lines r)
  /\ events r1 = (events r ++ flat_map line_events lines)%list
  /\ r2 = with_buffer (residual after)
            (handle_lines assistantMessageId
               (lines ++ [(held ++ b)%string] ++ complete_lines after)%list r)
  /\ events r2 = (events r1 ++ line_events (held ++ b)
                            ++ flat_map line_events (complete_lines after))%list
  /\ (List.length (line_events (held ++ b)) <= 1)%nat
  /\ (forall data type,
        decodes (held ++ b) data -> Get data "type" = Some type ->
        recognized type = true ->
        exists ev, event_of data = Some ev /\ line_events (held ++ b) = [ev]).
Proof.
  intros Hnb held lines r1 r2.
  assert (Hheld : no_LF (held ++ b) = true)
    by (apply no_LF_app; [apply residual_no_LF | exact Hnb]).
  assert (H1 : on_chunk assistantMessageId chunk r =
               (Ok tt, with_buffer held (handle_lines assistantMessageId lines r)))
    by apply on_chunk_spec.
  assert (Hr1 : r1 = with_buffer held (handle_lines assistantMessageId lines r)).
  { unfold r1, exec. now rewrite H1. }
  assert (Hr2 : r2 = with_buffer (residual after)
                       (handle_lines assistantMessageId
                          (lines ++ [(held ++ b)%string] ++ complete_lines after)%list r)).
  { unfold r2, exec, bind. rewrite H1, on_chunk_spec, buffer_with_buffer.
    cbn [snd]. rewrite <- (append_assoc held b (nl ++ after)).
    rewrite (complete_lines_line (held ++ b) after Hheld).
    rewrite (residual_line (held ++ b) after Hheld).
    rewrite handle_lines_with_buffer, with_buffer_twice.
    rewrite handle_lines_app. reflexivity. }
  assert (He1 : events r1 = (events r ++ flat_map line_events lines)%list).
  { rewrite Hr1. unfold with_buffer. cbn [events]. apply handle_lines_events. }
  split; [exact Hr1|]. split; [exact He1|]. split; [exact Hr2|].
  split; [|split].
  - rewrite Hr2, He1. unfold with_buffer. cbn [events].
    rewrite handle_lines_events, !flat_map_app. cbn [flat_map].
    now rewrite app_nil_r, <- !app_assoc.
  - unfold line_events. destruct (startsWith (held ++ b) "data: "); [|cbn; lia].
    destruct (JSON_parse (slice 6 (held ++ b))) as [data|]; [|cbn; lia].
    destruct (event_of data); cbn; lia.
  - intros data type. apply recognized_line_event.
Qed.

(** C9. What follows the last line feed is never handled. A last chunk
    without a line feed changes nothing but the buffer, and the buffer is
    dropped when the loop ends: [handleSendMessage] ends in the state it
    ends in without that chunk. *)
Theorem unterminated_tail_discarded (chunks : list string) (tail : string)
    (ending : Ending) :
  no_LF tail = true ->
  (forall assistantMessageId r, buffer r = "" ->
     read_loop assistantMessageId (chunks ++ [tail]) ending r =
     (result (read_loop assistantMessageId chunks ending) r,
      with_buffer (residual (text chunks) ++ tail)
                  (exec (read_loop assistantMessageId chunks ending) r)))
  /\ (forall message t1 t2 t3 t4 status st,
        handleSendMessage message
          (mkEnv t1 t2 t3 t4 (Response status (Some (mkBody (chunks ++ [tail]) ending)))) st =
        handleSendMessage message
          (mkEnv t1 t2 t3 t4 (Response status (Some (mkBody chunks ending)))) st).
Proof.
  intros Htail.
  assert (Hlines : complete_lines (text (chunks ++ [tail])) = complete_lines (text chunks)).
  { rewrite text_app. simpl. rewrite append_empty_r, complete_lines_app.
    rewrite (complete_lines_no_LF (residual (text chunks) ++ tail)).
    - apply app_nil_r.
    - apply no_LF_app; [apply residual_no_LF | assumption]. }
  assert (Hrest : residual (text (chunks ++ [tail])) = residual (text chunks) ++ tail).
  { rewrite text_app. simpl. rewrite append_empty_r, residual_app.
    apply residual_of_no_LF, no_LF_app; [apply residual_no_LF | assumption]. }
  split.
  - intros id r Hb. unfold result, exec.
    rewrite !(read_loop_fresh id _ ending r Hb), Hlines, Hrest. reflexivity.
  - intros message t1 t2 t3 t4 status st.
    apply handleSendMessage_lines. exact Hlines.
Qed.
End SendMessage.

(** ** The events of the stream, one by one *)

Section Events.
Import JS Flow Flow.Notations Chat.
Context {rt : JsRuntime}.
Variable assistantMessageId : string.

Notation handle_line := (handle_line assistantMessageId).
Notation handle_lines := (handle_lines assistantMessageId).
Notation shown := (update_assistant assistantMessageId).
Notation after_contents := (after_contents assistantMessageId).

Ltac run_line Hstart Hparse Htype :=
  unfold Chat.handle_line, Chat.dispatch;
  rewrite Hstart; flow_compute; rewrite Hparse; flow_compute;
  unfold has_type in Htype; rewrite Htype; flow_compute;
  cbn [strict_eq_str String.eqb Ascii.eqb Bool.eqb].

(** A [sources] event stores its payload, or the empty list for a payload
    that is not truthy, and leaves the component as it is. *)
Lemma handle_sources_line (line : string) (payload : JsValue) (r : Run) :
  sources_line line payload ->
  exec (handle_line line) r =
  mkRun (ui r) (accumulatedContent r) (or_else payload (JArr [])) (buffer r)
        (events r ++ [EvSources payload])%list.
Proof.
  intros (data & [Hstart Hparse] & Htype & Hpayload).
  run_line Hstart Hparse Htype. rewrite Hpayload. reflexivity.
Qed.

(** A [content] event with a text fragment appends the fragment and shows the
    text so far, with the stored sources, on the assistant message. *)
Lemma handle_content_line (line fragment : string) (r : Run) :
  content_line line fragment ->
  exec (handle_line line) r =
  let content := accumulatedContent r ++ fragment in
  mkRun (mkChat (shown (fun msg => Msg.with_content msg content (sources r))
                       (messages (ui r)))
                (isLoading (ui r)) (toasts (ui r)))
        content (sources r) (buffer r)
        (events r ++ [EvContent (JStr fragment)])%list.
Proof.
  intros (data & [Hstart Hparse] & Htype & Hpayload).
  run_line Hstart Hparse Htype. rewrite Hpayload. reflexivity.
Qed.

(** A [done] event ends the streaming of the assistant message. *)
Lemma handle_done_line (line : string) (r : Run) :
  done_line line ->
  exec (handle_line line) r =
  mkRun (mkChat (shown Msg.finished (messages (ui r))) (isLoading (ui r)) (toasts (ui r)))
        (accumulatedContent r) (sources r) (buffer r) (events r ++ [EvDone])%list.
Proof.
  intros (data & [Hstart Hparse] & Htype).
  run_line Hstart Hparse Htype. reflexivity.
Qed.

(** An [error] event throws inside the [try] of the line, and the [catch] of
    the line takes the exception: the loop goes on, the component is as it
    was. *)
Lemma handle_error_line (line : string) (payload : JsValue) (r : Run) :
  error_line line payload ->
  handle_line line r =
  (Ok tt, mkRun (ui r) (accumulatedContent r) (sources r) (buffer r)
                (events r ++ [EvError payload])%list).
Proof.
  intros (data & [Hstart Hparse] & Htype & Hpayload).
  run_line Hstart Hparse Htype. rewrite Hpayload. cbn [fst snd].
  destruct payload; try reflexivity; cbn [fst snd];
    match goal with
    | |- context [ToString ?v] => destruct (ToString v); reflexivity
    end.
Qed.

Lemma shown_twice (f g : Msg.t -> Msg.t) (msgs : list Msg.t) :
  (forall msg, Msg.id (f msg) = Msg.id msg) ->
  shown g (shown f msgs) = shown (fun msg => g (f msg)) msgs.
Proof.
  intros Hid. unfold update_assistant. rewrite map_map. apply map_ext.
  intros msg. destruct (String.eqb (Msg.id msg) assistantMessageId) eqn:E.
  - now rewrite Hid, E.
  - now rewrite E.
Qed.

Lemma handle_content_lines (lines fragments : list string) :
  Forall2 content_line lines fragments ->
  forall r,
  handle_lines lines r =
  mkRun (mkChat (after_contents fragments (accumulatedContent r) (sources r)
                                (messages (ui r)))
                (isLoading (ui r)) (toasts (ui r)))
        (accumulatedContent r ++ text fragments) (sources r) (buffer r)
        (events r ++ map (fun fragment => EvContent (JStr fragment)) fragments)%list.
Proof.
  induction 1 as [|line fragment lines fragments Hline _ IH]; intros r.
  - simpl. rewrite append_empty_r, app_nil_r. now destruct r as [[] ? ? ? ?].
  - unfold Chat.handle_lines in *. cbn [fold_left].
    rewrite (handle_content_line _ _ r Hline), IH. cbn -[text after_contents].
    rewrite <- app_assoc. cbn [app]. f_equal; [|cbn [text fold_right]; apply append_assoc].
    f_equal. unfold after_contents. destruct fragments as [|next rest].
    + cbn [text fold_right]. now rewrite append_empty_r.
    + rewrite shown_twice by reflexivity. cbn [text fold_right].
      now rewrite append_assoc.
Qed.

(** The stream [sources], [content] times N, [done], as lines: what it leaves
    in the variables of the loop and on the messages. *)
Lemma handle_sources_contents_done (first last : string) (payload : JsValue)
    (lines fragments : list string) (r : Run) :
  sources_line first payload ->
  Forall2 content_line lines fragments ->
  done_line last ->
  handle_lines (first :: lines ++ [last]) r =
  let stored := or_else payload (JArr []) in
  mkRun (mkChat (shown Msg.finished
                   (after_contents fragments (accumulatedContent r) stored
                                   (messages (ui r))))
                (isLoading (ui r)) (toasts (ui r)))
        (accumulatedContent r ++ text fragments) stored (buffer r)
        (events r ++ EvSources payload
           :: map (fun fragment => EvContent (JStr fragment)) fragments ++ [EvDone])%list.
Proof.
  intros Hfirst Hlines Hlast.
  change (first :: lines ++ [last])%list with ([first] ++ lines ++ [last])%list.
  rewrite !handle_lines_app.
  unfold Chat.handle_lines at 3. cbn [fold_left].
  rewrite (handle_sources_line _ _ r Hfirst).
  rewrite (handle_content_lines _ _ Hlines).
  unfold Chat.handle_lines. cbn [fold_left].
  rewrite (handle_done_line _ _ Hlast). cbn -[text after_contents].
  now rewrite <- !app_assoc.
Qed.
End Events.

(** ** The claims about the events *)

Section EventClaims.
Import JS Flow Flow.Notations Chat.
Context {rt : JsRuntime}.

Lemma update_assistant_app (id : string) (f : Msg.t -> Msg.t) (xs ys : list Msg.t) :
  update_assistant id f (xs ++ ys) = (update_assistant id f xs ++ update_assistant id f ys)%list.
Proof. apply map_app. Qed.

Lemma update_assistant_own (id : string) (f : Msg.t -> Msg.t) (msg : Msg.t) :
  Msg.id msg = id -> update_assistant id f [msg] = [f msg].
Proof.
  intros H. unfold update_assistant. cbn [map]. now rewrite H, String.eqb_refl.
Qed.

(** C4. A body whose lines are a [sources] event, N [content] events with
    text fragments and a [done] event, however it is cut into chunks: when
    [handleSendMessage] returns, the assistant message it added is the last
    message, its content is the fragments one after the other, in the order
    of arrival, and its [isStreaming] is [false]. *)
Theorem sources_contents_done_rendered (message : string) (t1 t2 t3 t4 status : Z)
    (chunks : list string) (first last : string) (payload : JsValue)
    (lines fragments : list string) (st : ChatState) :
  ToBoolean (JStr (trim message)) = true ->
  isLoading st = false ->
  ok status = true ->
  text chunks = unlines (first :: lines ++ [last]) ->
  Forall (fun line => no_LF line = true) (first :: lines ++ [last]) ->
  sources_line first payload ->
  Forall2 content_line lines fragments ->
  done_line last ->
  let final :=
    handleSendMessage message
      (mkEnv t1 t2 t3 t4 (Response status (Some (mkBody chunks Closed)))) st in
  exists earlier rendered,
    messages final = (earlier ++ [rendered])%list
    /\ Msg.id rendered = "msg-" ++ dec t3 ++ "-assistant"
    /\ Msg.role rendered = assistant
    /\ Msg.content rendered = text fragments
    /\ Msg.isStreaming rendered = Some false
    /\ isLoading final = false.
Proof.
  intros Hmsg Hload Hok Htext Hnl Hfirst Hlines Hlast final.
  subst final. unfold handleSendMessage. rewrite Hmsg, Hload. cbn [negb orb].
  cbn [now_user date_user now_assistant date_assistant].
  set (id := "msg-" ++ dec t3 ++ "-assistant").
  unfold exec, try_finally, try_catch.
  rewrite (request_streams id
             (mkEnv t1 t2 t3 t4 (Response status (Some (mkBody chunks Closed))))
             status chunks Closed _ eq_refl Hok).
  rewrite Htext.
  destruct (unlines_app_rest (first :: lines ++ [last]) "" Hnl) as [Hcl _].
  rewrite append_empty_r in Hcl. rewrite Hcl. cbn [complete_lines split_nl removelast].
  rewrite app_nil_r.
  rewrite (handle_sources_contents_done id _ _ _ _ _ _ Hfirst Hlines Hlast).
  cbn -[text after_contents update_assistant id].
  set (stored := or_else payload (JArr [])).
  set (streaming := Msg.mk id "" assistant t4 (Some true) None).
  set (before := (messages st ++ [_])%list).
  assert (Hid : Msg.id streaming = id) by reflexivity.
  destruct fragments as [|fragment rest].
  - exists (update_assistant id Msg.finished before), (Msg.finished streaming).
    cbn [after_contents]. rewrite update_assistant_app.
    rewrite (update_assistant_own id _ streaming Hid).
    repeat split; reflexivity.
  - set (content := text (fragment :: rest)).
    exists (update_assistant id Msg.finished
              (update_assistant id (fun msg => Msg.with_content msg content stored) before)),
           (Msg.finished (Msg.with_content streaming content stored)).
    unfold after_contents.
    change ("" ++ text (fragment :: rest)) with content.
    rewrite !update_assistant_app.
    rewrite (update_assistant_own id _ streaming Hid).
    rewrite (update_assistant_own id _ (Msg.with_content streaming content stored) Hid).
    repeat split; reflexivity.
Qed.

(** C5. The handler of a line always returns: no exception leaves it,
    whatever the line and the state. A line without the [data: ] prefix, a
    line whose rest is not JSON, a line whose record has a [type] that the
    dispatch does not know, and a line whose record is [null] leave the state
    as it is and emit no event. The loop over the lines of a chunk then goes
    on with the next line, and returns. *)
Theorem handle_line_total_and_skips (assistantMessageId : string) :
  (forall line r, result (handle_line assistantMessageId line) r = Ok tt)
  /\ (forall line r,
        startsWith line "data: " = false ->
        exec (handle_line assistantMessageId line) r = r)
  /\ (forall line r,
        JSON_parse (slice 6 line) = None ->
        exec (handle_line assistantMessageId line) r = r)
  /\ (forall line data type r,
        JSON_parse (slice 6 line) = Some data ->
        Get data "type" = Some type ->
        recognized type = false ->
        exec (handle_line assistantMessageId line) r = r)
  /\ (forall line data r,
        JSON_parse (slice 6 line) = Some data ->
        Get data "type" = None ->
        exec (handle_line assistantMessageId line) r = r)
  /\ (forall line rest r,
        for_lines assistantMessageId (line :: rest) r =
        for_lines assistantMessageId rest (exec (handle_line assistantMessageId line) r))
  /\ (forall lines r, result (for_lines assistantMessageId lines) r = Ok tt).
Proof.
  repeat split.
  - apply handle_line_returns.
  - intros line r H. unfold handle_line, exec. now rewrite H.
  - intros line r H. unfold handle_line, exec, try_catch, bind, orThrow.
    destruct (startsWith line "data: "); [|reflexivity]. now rewrite H.
  - intros line data type r Hparse Htype Hrec.
    unfold handle_line, dispatch.
    destruct (startsWith line "data: "); [|reflexivity].
    flow_compute. rewrite Hparse. flow_compute. rewrite Htype. flow_compute.
    unfold recognized in Hrec. cbn [existsb] in Hrec.
    repeat (apply orb_false_elim in Hrec; destruct Hrec as [? Hrec]).
    repeat match goal with H : strict_eq_str _ _ = false |- _ => rewrite H; clear H end.
    reflexivity.
  - intros line data r Hparse Htype.
    unfold handle_line, dispatch.
    destruct (startsWith line "data: "); [|reflexivity].
    flow_compute. rewrite Hparse. flow_compute. rewrite Htype. reflexivity.
  - intros line rest r. cbn [for_lines]. unfold bind.
    now rewrite handle_line_exec.
  - intros lines r. unfold result. now rewrite for_lines_spec.
Qed.

Lemma sources_of_finished (id : string) (msgs : list Msg.t) :
  map Msg.sources (update_assistant id Msg.finished msgs) = map Msg.sources msgs.
Proof.
  unfold update_assistant. rewrite map_map. apply map_ext.
  intros msg. now destruct (String.eqb (Msg.id msg) id).
Qed.

(** A line changes no message while it is handled: what it gives to
    [setMessages] waits. A [content] event queues the function that shows
    the content, a [sources_update] event the one that shows the sources, a
    [done] event the one that ends the streaming, and nothing else queues
    anything. The variables and the events are those of [Chat]. *)
Lemma handle_line_queues (assistantMessageId line : string) (b : Updates.Batch) :
  let b' := exec (Updates.handle_line line) b in
  let r' := exec (handle_line assistantMessageId line) (Updates.run b) in
  ui (Updates.run b') = ui (Updates.run b)
  /\ accumulatedContent (Updates.run b') = accumulatedContent r'
  /\ sources (Updates.run b') = sources r'
  /\ buffer (Updates.run b') = buffer r'
  /\ events (Updates.run b') = events r'
  /\ (Updates.run b' = Updates.run b /\ Updates.pending b' = Updates.pending b
      \/ (exists payload,
            (events (Updates.run b') = events (Updates.run b) ++ [EvSources payload])%list
            /\ sources (Updates.run b') = or_else payload (JArr [])
            /\ accumulatedContent (Updates.run b') = accumulatedContent (Updates.run b)
            /\ Updates.pending b' = Updates.pending b)
      \/ (exists payload,
            (events (Updates.run b') = events (Updates.run b) ++ [EvError payload])%list
            /\ Updates.pending b' = Updates.pending b)
      \/ (exists payload,
            (events (Updates.run b') = events (Updates.run b) ++ [EvContent payload])%list
            /\ (Updates.pending b' = Updates.pending b
                \/ Updates.pending b' = Updates.pending b ++ [Updates.ShowContent])%list)
      \/ (exists payload,
            (events (Updates.run b') = events (Updates.run b) ++ [EvSourcesUpdate payload])%list
            /\ (Updates.pending b' = Updates.pending b ++ [Updates.ShowSources])%list)
      \/ ((events (Updates.run b') = events (Updates.run b) ++ [EvDone])%list
          /\ (Updates.pending b' = Updates.pending b ++ [Updates.Finish])%list)).
Proof.
  destruct b as [r queue]. unfold Updates.handle_line, Updates.dispatch, handle_line, dispatch.
  destruct (startsWith line "data: "); [|now repeat split; left].
  updates_compute.
  destruct (JSON_parse (slice 6 line)) as [data|]; [|now repeat split; left].
  destruct (Get data "type") as [type|]; [|now repeat split; left].
  destruct (strict_eq_str type "sources").
  { destruct (Get data "sources") as [payload|]; [|now repeat split; left].
    repeat split. right. left. exists payload. repeat split. }
  destruct (strict_eq_str type "sources_update").
  { destruct (Get data "sources") as [payload|]; [|now repeat split; left].
    repeat split. do 4 right. left. exists payload. split; reflexivity. }
  destruct (strict_eq_str type "content").
  { destruct (Get data "content") as [payload|]; [|now repeat split; left].
    destruct (ToString payload) as [fragment|].
    - repeat split. do 3 right. left. exists payload. split; [reflexivity | now right].
    - repeat split. do 3 right. left. exists payload. split; [reflexivity | now left]. }
  destruct (strict_eq_str type "done").
  { repeat split. do 5 right. split; reflexivity. }
  destruct (strict_eq_str type "error"); [|now repeat split; left].
  destruct (Get data "error") as [payload|]; [|now repeat split; left].
  destruct payload;
    try match goal with |- context [ToString ?v] => destruct (ToString v) end;
    cbv beta iota;
    (repeat split; do 2 right; left; eexists; split; reflexivity).
Qed.

(** The function that ends the streaming leaves the sources shown. *)
Lemma finish_keeps_sources (assistantMessageId : string) (r : Run)
    (queue : list Updates.Updater) (msgs : list Msg.t) :
  Forall (fun u => u = Updates.Finish) queue ->
  map Msg.sources (fold_left (Updates.apply_updater assistantMessageId r) queue msgs)
  = map Msg.sources msgs.
Proof.
  intros Hall. revert msgs. induction Hall as [|u queue -> _ IH]; intros msgs;
    [reflexivity|].
  cbn [fold_left Updates.apply_updater]. rewrite IH. apply sources_of_finished.
Qed.

Lemma shows_or_finishes (queue : list Updates.Updater) :
  (In Updates.ShowContent queue \/ In Updates.ShowSources queue)
  \/ Forall (fun u => u = Updates.Finish) queue.
Proof.
  induction queue as [|u queue [[H|H]|H]].
  - right. constructor.
  - left. left. now right.
  - left. right. now right.
  - destruct u; [left; right; now left | left; left; now left | right; now constructor].
Qed.

(** Once a function that shows the sources has run, the answer shows the
    list the variable holds at the render. *)
Lemma render_shows_variable (assistantMessageId : string) (r : Run)
    (queue : list Updates.Updater) (msgs : list Msg.t) :
  (forall msg, In msg msgs -> Msg.id msg = assistantMessageId ->
               Msg.sources msg = Some (sources r))
  \/ In Updates.ShowContent queue \/ In Updates.ShowSources queue ->
  forall msg,
    In msg (fold_left (Updates.apply_updater assistantMessageId r) queue msgs) ->
    Msg.id msg = assistantMessageId ->
    Msg.sources msg = Some (sources r).
Proof.
  revert msgs. induction queue as [|u queue IH]; intros msgs H.
  - destruct H as [H|[[]|[]]]. exact H.
  - cbn [fold_left]. apply IH.
    assert (Hown : forall f msg,
              In msg (update_assistant assistantMessageId f msgs) ->
              Msg.id msg = assistantMessageId ->
              (forall old, Msg.id (f old) = Msg.id old) ->
              exists old, In old msgs /\ Msg.id old = assistantMessageId /\ msg = f old).
    { intros f msg Hin Hid Hf. unfold update_assistant in Hin.
      apply in_map_iff in Hin. destruct Hin as (old & Hmsg & Hold).
      destruct (String.eqb (Msg.id old) assistantMessageId) eqn:E.
      - exists old. apply String.eqb_eq in E. now repeat split.
      - subst msg. rewrite <- String.eqb_eq in Hid. congruence. }
    destruct u.
    + left. intros msg Hin Hid. cbn [Updates.apply_updater] in Hin.
      destruct (Hown _ msg Hin Hid) as (old & _ & _ & ->); reflexivity.
    + left. intros msg Hin Hid. cbn [Updates.apply_updater] in Hin.
      destruct (Hown _ msg Hin Hid) as (old & _ & _ & ->); reflexivity.
    + destruct H as [H|[[H|H]|[H|H]]]; try discriminate.
      * left. intros msg Hin Hid. cbn [Updates.apply_updater] in Hin.
        destruct (Hown _ msg Hin Hid) as (old & Hold & Hoid & ->); [reflexivity|].
        cbn [Msg.finished Msg.sources]. now apply H.
      * right. now left.
      * right. now right.
Qed.

(** Where React renders after every line, the messages are those of
    [Chat], which runs each function at its call. *)
Lemma render_at_call (assistantMessageId line : string) (r : Run) :
  Updates.render assistantMessageId
    (exec (Updates.handle_line line) (Updates.start r))
  = Updates.start (exec (handle_line assistantMessageId line) r).
Proof.
  destruct r as [[msgs loading shown] acc stored held evs].
  unfold Updates.start, Updates.render, Updates.handle_line, Updates.dispatch,
    handle_line, dispatch.
  destruct (startsWith line "data: "); [|reflexivity].
  updates_compute.
  destruct (JSON_parse (slice 6 line)) as [data|]; [|reflexivity].
  destruct (Get data "type") as [type|]; [|reflexivity].
  destruct (strict_eq_str type "sources").
  { destruct (Get data "sources"); reflexivity. }
  destruct (strict_eq_str type "sources_update").
  { destruct (Get data "sources"); reflexivity. }
  destruct (strict_eq_str type "content").
  { destruct (Get data "content") as [payload|]; [|reflexivity].
    destruct (ToString payload); reflexivity. }
  destruct (strict_eq_str type "done"); [reflexivity|].
  destruct (strict_eq_str type "error"); [|reflexivity].
  destruct (Get data "error") as [payload|]; [|reflexivity].
  destruct payload; try reflexivity;
    match goal with |- context [ToString ?v] => now destruct (ToString v) end.
Qed.

End EventClaims.

(** ** File selection: the size limit *)

Section SizeLimit.
Import JS Upload.
Context {rt : JsRuntime} {fa : FloatArith}.

Lemma gtb_small (file : File) : (size file >? MAX_FILE_SIZE)%Z = negb (small file).
Proof. unfold small. rewrite Z.gtb_ltb, Z.ltb_antisym. reflexivity. Qed.

(** The loop of the batch handler keeps the files within the limit, in
    order, and does nothing but alert for the others. *)
Lemma collect_spec (files : list File) (newFiles : list BatchFileMetadata)
    (st : AdminState) :
  exists alerts,
    collect files newFiles st =
    ((newFiles ++ map batch_entry (filter small files))%list,
     mkAdmin (selectedFile st) (metadata st) (batchMode st) (batchFiles st)
             (isBatchUploading st) (batchProgress st) (timers st)
             (effects st ++ alerts)%list)
    /\ forallb (fun e => negb (is_network e)) alerts = true.
Proof.
  revert newFiles st. induction files as [|file files IH]; intros newFiles st.
  - exists []. simpl. rewrite !app_nil_r. now destruct st.
  - cbn [collect filter]. rewrite gtb_small. destruct (small file); cbn [negb].
    + destruct (IH (newFiles ++ [batch_entry file])%list st) as (alerts & Heq & Hloc).
      exists alerts. rewrite Heq. cbn [map]. rewrite <- app_assoc. now split.
    + match goal with
      | |- context [collect files newFiles (alert ?t st)] =>
          destruct (IH newFiles (alert t st)) as (alerts & Heq & Hloc);
          exists (Alert t :: alerts)
      end.
      rewrite Heq. cbn. rewrite <- app_assoc. now split.
Qed.

Lemma map_file_batch_entry (files : list File) :
  map Upload.file (map batch_entry files) = files.
Proof. rewrite map_map. cbn. apply map_id. Qed.

(** C6. The size limit of both select handlers. A file of more than
    1,610,612,736 bytes leaves the upload state as it is: the single-file
    handler keeps the selected file and the metadata and only alerts and
    clears the input; the batch handler adds entries for the files within
    the limit and for no other. A file of at most that size is taken: it is
    the selected file, or among the entries added. Neither handler issues a
    network call: what they do outside the state is alerts and clearing the
    input. *)
Theorem size_limit_enforced :
  (forall file others st,
     let st' := handleFileSelect (Some (file :: others)) st in
     ((size file > 1610612736)%Z ->
        selectedFile st' = selectedFile st
        /\ metadata st' = metadata st
        /\ batchFiles st' = batchFiles st
        /\ exists text, effects st' = (effects st ++ [Alert text; ClearInput])%list)
     /\ ((size file <= 1610612736)%Z ->
         selectedFile st' = Some file /\ effects st' = effects st))
  /\ (forall first others st,
        let files := first :: others in
        let st' := handleBatchFileSelect (Some files) st in
        exists added alerts,
          batchFiles st' = (batchFiles st ++ added)%list
          /\ selectedFile st' = selectedFile st
          /\ effects st' = (effects st ++ alerts ++ [ClearInput])%list
          /\ forallb (fun e => negb (is_network e)) alerts = true
          /\ (forall file, In file files -> (size file > 1610612736)%Z ->
                           ~ In file (map Upload.file added))
          /\ (forall file, In file files -> (size file <= 1610612736)%Z ->
                           In file (map Upload.file added))).
Proof.
  split.
  - intros file others st st'. subst st'. unfold handleFileSelect.
    change 1610612736%Z with MAX_FILE_SIZE. split.
    + intros Hbig. apply Z.gtb_gt in Hbig. rewrite Hbig.
      split; [reflexivity|]. split; [reflexivity|]. split; [reflexivity|].
      eexists. cbn. rewrite <- app_assoc. reflexivity.
    + intros Hsmall. destruct (size file >? MAX_FILE_SIZE)%Z eqn:E.
      * apply Z.gtb_gt in E. lia.
      * destruct (negb (ToBoolean (JStr (displayName (metadata st))))); split; reflexivity.
  - intros first others st files st'. subst st'. unfold handleBatchFileSelect.
    destruct (collect_spec files [] st) as (alerts & Heq & Hlocal).
    exists (map batch_entry (filter small files)), alerts.
    subst files. rewrite Heq. cbn [app].
    set (files := first :: others).
    change 1610612736%Z with MAX_FILE_SIZE.
    split; [reflexivity|]. split; [reflexivity|].
    split; [cbn; now rewrite <- app_assoc|].
    split; [exact Hlocal|]. split.
    + intros file _ Hbig Hin. rewrite map_file_batch_entry in Hin.
      apply filter_In in Hin. destruct Hin as [_ Hs]. unfold small in Hs.
      apply Z.leb_le in Hs. lia.
    + intros file Hin Hsmall. rewrite map_file_batch_entry.
      apply filter_In. split; [assumption|]. unfold small. now apply Z.leb_le.
Qed.
End SizeLimit.

(** ** The batch upload: the progress bar *)

Section Percent.
Import JS Upload.
Context {fa : FloatArith}.

Lemma Math_round_monotone (x y : Q) : (x <= y)%Q -> (Math_round x <= Math_round y)%Z.
Proof.
  intros H. unfold Math_round. apply Qfloor_resp_le.
  apply Qplus_le_compat; [assumption | apply Qle_refl].
Qed.

Lemma rnd_0 : (rnd 0 == 0)%Q.
Proof. apply (rnd_integer 0). vm_compute. discriminate. Qed.

Lemma rnd_1 : (rnd 1 == 1)%Q.
Proof. apply (rnd_integer 1). vm_compute. discriminate. Qed.

Lemma rnd_90 : (rnd (inject_Z 90) == inject_Z 90)%Q.
Proof. apply (rnd_integer 90). vm_compute. discriminate. Qed.

Lemma rnd_comp (x y : Q) : (x == y)%Q -> (rnd x == rnd y)%Q.
Proof.
  intros H. apply Qle_antisym; apply rnd_monotone; rewrite H; apply Qle_refl.
Qed.

Lemma Math_round_integer (q : Q) (z : Z) : (q == inject_Z z)%Q -> Math_round q = z.
Proof.
  intros H. unfold Math_round.
  assert (E : (q + (1 # 2) == inject_Z z + (1 # 2))%Q) by now rewrite H.
  rewrite (Qfloor_comp _ _ E).
  assert (Hlo : (inject_Z z <= inject_Z z + (1 # 2))%Q).
  { rewrite <- (Qplus_0_r (inject_Z z)) at 1. apply Qplus_le_r. discriminate. }
  assert (Hhi : (inject_Z z + (1 # 2) < inject_Z (z + 1))%Q).
  { rewrite inject_Z_plus. apply Qplus_lt_r. reflexivity. }
  apply Z.le_antisymm.
  - apply Z.lt_succ_r. rewrite Zlt_Qlt.
    eapply Qle_lt_trans; [apply Qfloor_le|]. exact Hhi.
  - apply Z.le_trans with (Qfloor (inject_Z z)).
    + rewrite Qfloor_Z. apply Z.le_refl.
    + now apply Qfloor_resp_le.
Qed.

Lemma ratio_bounds (l t : Z) :
  (0 < t)%Z -> (0 <= l <= t)%Z -> (0 <= inject_Z l / inject_Z t <= 1)%Q.
Proof.
  intros Ht [Hl0 Hlt].
  assert (Htq : (0 < inject_Z t)%Q) by (change 0%Q with (inject_Z 0); now rewrite <- Zlt_Qlt).
  split.
  - apply Qle_shift_div_l; [assumption|]. rewrite Qmult_0_l.
    change 0%Q with (inject_Z 0). now rewrite <- Zle_Qle.
  - apply Qle_shift_div_r; [assumption|]. rewrite Qmult_1_l. now rewrite <- Zle_Qle.
Qed.

Lemma ratio_monotone (l1 l2 t : Z) :
  (0 < t)%Z -> (l1 <= l2)%Z -> (inject_Z l1 / inject_Z t <= inject_Z l2 / inject_Z t)%Q.
Proof.
  intros Ht Hl.
  assert (Htq : (0 < inject_Z t)%Q) by (change 0%Q with (inject_Z 0); now rewrite <- Zlt_Qlt).
  unfold Qdiv. apply Qmult_le_compat_r; [now rewrite <- Zle_Qle|].
  apply Qlt_le_weak, Qinv_lt_0_compat, Htq.
Qed.

(** The percent of a progress event lies between 0 and 90. *)
Lemma uploadPercent_bounds (event : ProgressEvent) :
  (0 < total event)%Z -> (0 <= loaded event <= total event)%Z ->
  (0 <= uploadPercent event <= 90)%Z.
Proof.
  intros Ht Hl. destruct (ratio_bounds _ _ Ht Hl) as [Hq0 Hq1].
  unfold uploadPercent, fmul, fdiv.
  set (q := (inject_Z (loaded event) / inject_Z (total event))%Q) in *.
  assert (Hr0 : (0 <= rnd q)%Q).
  { eapply Qle_trans; [|apply rnd_monotone, Hq0]. rewrite rnd_0. apply Qle_refl. }
  assert (Hr1 : (rnd q <= 1)%Q).
  { eapply Qle_trans; [apply rnd_monotone, Hq1|]. rewrite rnd_1. apply Qle_refl. }
  assert (Hp0 : (0 <= rnd (rnd q * inject_Z 90))%Q).
  { eapply Qle_trans; [|apply rnd_monotone with (x := 0%Q)].
    - rewrite rnd_0. apply Qle_refl.
    - apply Qmult_le_0_compat; [assumption | discriminate]. }
  assert (Hp1 : (rnd (rnd q * inject_Z 90) <= inject_Z 90)%Q).
  { eapply Qle_trans; [apply rnd_monotone with (y := inject_Z 90)|].
    - setoid_replace (inject_Z 90) with (1 * inject_Z 90)%Q at 2 by (now rewrite Qmult_1_l).
      apply Qmult_le_compat_r; [assumption | discriminate].
    - rewrite rnd_90. apply Qle_refl. }
  split.
  - change 0%Z with (Math_round 0). now apply Math_round_monotone.
  - change 90%Z with (Math_round (inject_Z 90)). now apply Math_round_monotone.
Qed.

(** More bytes sent of the same total give a percent that is not lower. *)
Lemma uploadPercent_monotone (e1 e2 : ProgressEvent) :
  total e1 = total e2 -> (0 < total e1)%Z -> (loaded e1 <= loaded e2)%Z ->
  (uploadPercent e1 <= uploadPercent e2)%Z.
Proof.
  intros Ht Hpos Hl. unfold uploadPercent, fmul, fdiv. rewrite <- Ht.
  apply Math_round_monotone, rnd_monotone.
  apply Qmult_le_compat_r; [|discriminate].
  apply rnd_monotone, ratio_monotone; assumption.
Qed.
(** Nothing sent is 0 on the scale, everything sent is 90. *)
Lemma uploadPercent_none (c : bool) (t : Z) :
  (0 < t)%Z -> uploadPercent (mkEvent c 0 t) = 0%Z.
Proof.
  intros Ht. unfold uploadPercent, fmul, fdiv. cbn [loaded total].
  apply Math_round_integer.
  assert (E0 : (rnd (inject_Z 0 / inject_Z t) == 0)%Q).
  { rewrite <- rnd_0. apply rnd_comp. unfold Qdiv. apply Qmult_0_l. }
  rewrite <- rnd_0 at 2. apply rnd_comp. rewrite E0. apply Qmult_0_l.
Qed.

Lemma uploadPercent_all (c : bool) (t : Z) :
  (0 < t)%Z -> uploadPercent (mkEvent c t t) = 90%Z.
Proof.
  intros Ht.
  assert (Htq : ~ (inject_Z t == 0)%Q).
  { change 0%Q with (inject_Z 0). rewrite inject_Z_injective. lia. }
  unfold uploadPercent, fmul, fdiv. cbn [loaded total].
  apply Math_round_integer.
  assert (E1 : (rnd (inject_Z t / inject_Z t) == 1)%Q).
  { rewrite <- rnd_1. apply rnd_comp. unfold Qdiv. now apply Qmult_inv_r. }
  rewrite <- rnd_90 at 2. apply rnd_comp. rewrite E1. apply Qmult_1_l.
Qed.

Lemma scale_upper (p l t : Z) :
  (0 < t)%Z -> (inject_Z p < inject_Z 90 * (inject_Z l / inject_Z t) + 1)%Q ->
  (p * t < 90 * l + t)%Z.
Proof.
  intros Ht H.
  assert (Htq : (0 < inject_Z t)%Q) by (change 0%Q with (inject_Z 0); now rewrite <- Zlt_Qlt).
  apply (Qmult_lt_compat_r _ _ (inject_Z t) Htq) in H.
  assert (E : ((inject_Z 90 * (inject_Z l / inject_Z t) + 1) * inject_Z t
               == inject_Z (90 * l + t))%Q).
  { rewrite inject_Z_plus, inject_Z_mult. field. intros E. rewrite E in Htq. discriminate. }
  rewrite E, <- inject_Z_mult, <- Zlt_Qlt in H. exact H.
Qed.

Lemma scale_lower (p l t : Z) :
  (0 < t)%Z -> (inject_Z 90 * (inject_Z l / inject_Z t) - 1 < inject_Z p)%Q ->
  (90 * l - t < p * t)%Z.
Proof.
  intros Ht H.
  assert (Htq : (0 < inject_Z t)%Q) by (change 0%Q with (inject_Z 0); now rewrite <- Zlt_Qlt).
  apply (Qmult_lt_compat_r _ _ (inject_Z t) Htq) in H.
  assert (E : ((inject_Z 90 * (inject_Z l / inject_Z t) - 1) * inject_Z t
               == inject_Z (90 * l - t))%Q).
  { unfold Z.sub. rewrite inject_Z_plus, inject_Z_mult, inject_Z_opp. field.
    intros E. rewrite E in Htq. discriminate. }
  rewrite E, <- inject_Z_mult, <- Zlt_Qlt in H. exact H.
Qed.

(** With accurate doubles the percent is within one point of
    [90 * loaded / total]. *)
Lemma uploadPercent_near (event : ProgressEvent) :
  accurate fa ->
  (0 < total event)%Z -> (0 <= loaded event <= total event)%Z ->
  (total event <= 2 ^ 53)%Z ->
  (Z.abs (uploadPercent event * total event - 90 * loaded event) < total event)%Z.
Proof.
  intros Hacc Ht [Hl0 Hlt] Hbig.
  destruct event as [c l t]. cbn [loaded total] in *.
  destruct (Z.eq_dec l 0) as [->|Hl].
  { rewrite (uploadPercent_none c t Ht). cbn. lia. }
  assert (Htq : (0 < inject_Z t)%Q) by (change 0%Q with (inject_Z 0); now rewrite <- Zlt_Qlt).
  destruct (ratio_bounds l t Ht (conj Hl0 Hlt)) as [_ Hq1].
  assert (Hq0 : (1 # 9007199254740992 <= inject_Z l / inject_Z t)%Q).
  { apply Qle_shift_div_l; [exact Htq|].
    unfold Qle, Qmult, inject_Z. cbn [Qnum Qden].
    change (2 ^ 53)%Z with 9007199254740992%Z in Hbig. lia. }
  unfold uploadPercent, fmul, fdiv, Math_round. cbn [loaded total].
  set (q := (inject_Z l / inject_Z t)%Q) in *.
  destruct (Hacc q) as [Hrq0 Hrq1].
  { eapply Qle_trans; [|exact Hq0]. discriminate. }
  { eapply Qle_trans; [exact Hq1|]. discriminate. }
  set (rq := rnd q) in *.
  change (inject_Z 90) with (90 # 1)%Q in *.
  destruct (Hacc (rq * (90 # 1))%Q) as [Hry0 Hry1].
  { lra. }
  { change (inject_Z 1152921504606846976) with (1152921504606846976 # 1)%Q. lra. }
  set (ry := rnd (rq * (90 # 1))%Q) in *.
  pose proof (Qfloor_le (ry + (1 # 2))%Q) as Hlo.
  pose proof (Qlt_floor (ry + (1 # 2))%Q) as Hhi.
  set (p := Qfloor (ry + (1 # 2))%Q) in *.
  rewrite inject_Z_plus in Hhi. change (inject_Z 1) with 1%Q in Hhi.
  assert (Hup : (p * t < 90 * l + t)%Z).
  { apply scale_upper; [exact Ht|]. fold q.
    change (inject_Z 90) with (90 # 1)%Q. lra. }
  assert (Hdown : (90 * l - t < p * t)%Z).
  { apply scale_lower; [exact Ht|]. fold q.
    change (inject_Z 90) with (90 # 1)%Q. lra. }
  lia.
Qed.
End Percent.

Section BatchUpload.
Import JS Flow Upload.
Context {rt : JsRuntime} {fa : FloatArith}.

Lemma trace_app (os1 os2 : list Occurrence) (st : AdminState) :
  trace (os1 ++ os2) st = (trace os1 st ++ trace os2 (run os1 st))%list.
Proof.
  revert st. induction os1 as [|o os1 IH]; intros st; [reflexivity|].
  cbn [app trace]. now rewrite IH.
Qed.

Lemma step_quiet (st : AdminState) : timers st = [] -> step TimerFires st = st.
Proof. intros H. unfold step. now rewrite H. Qed.

Lemma trace_quiet (n : nat) (st : AdminState) :
  timers st = [] -> trace (repeat TimerFires n) st = repeat st n.
Proof.
  intros H. induction n as [|n IH]; [reflexivity|].
  cbn [repeat trace]. now rewrite (step_quiet st H), IH.
Qed.

Lemma reports_tail (size : Z) (event : ProgressEvent) (progress : list ProgressEvent) :
  reports size (event :: progress) ->
  reports size progress
  /\ (lengthComputable event = true ->
      total event = size /\ (0 <= loaded event <= size)%Z)
  /\ Forall (fun later => lengthComputable event = true ->
                          lengthComputable later = true ->
                          (loaded event <= loaded later)%Z) progress.
Proof.
  intros (Hsize & Hall & Hsorted).
  inversion Hall; subst. apply StronglySorted_inv in Hsorted.
  destruct Hsorted as [Hsorted Hle].
  split; [|split]; [repeat split; assumption | assumption | assumption].
Qed.

Lemma reports_bounds (size : Z) (progress : list ProgressEvent) (event : ProgressEvent) :
  reports size progress -> In event progress -> lengthComputable event = true ->
  total event = size /\ (0 <= uploadPercent event <= 90)%Z.
Proof.
  intros (Hsize & Hall & _) Hin Hc. rewrite Forall_forall in Hall.
  destruct (Hall event Hin Hc) as [Ht Hl]. split; [exact Ht|].
  apply uploadPercent_bounds; rewrite Ht; assumption.
Qed.

(** What a progress event with a computable length displays. *)
Lemma on_progress_computable (event : ProgressEvent) (st : AdminState) :
  lengthComputable event = true ->
  on_progress event st =
  setBatchProgress (mkProgress (uploadPercent event) "Uploading" true) st.
Proof. intros H. unfold on_progress. now rewrite H. Qed.

(** Its guard leaves the state as it is without a computable length. *)
Lemma on_progress_not_computable (event : ProgressEvent) (st : AdminState) :
  lengthComputable event = false -> on_progress event st = st.
Proof. intros H. unfold on_progress. now rewrite H. Qed.

Lemma on_load_success (status : Z) (statusText responseText : string)
    (result : JsValue) (st : AdminState) :
  (200 <= status < 300)%Z ->
  JSON_parse responseText = Some result ->
  on_load status statusText responseText st =
  setTimeout (ShowComplete result) (setBatchProgress (mkProgress 95 "Queued" true) st).
Proof.
  intros [H1 H2] Hparse. unfold on_load.
  apply Z.leb_le in H1. apply Z.ltb_lt in H2. rewrite H1, H2. cbn [andb].
  unfold exec, try_catch, bind, orThrow. rewrite Hparse. reflexivity.
Qed.

Lemma succeeded_dec (final : Completion) : succeeded final \/ ~ succeeded final.
Proof.
  destruct final as [status statusText responseText| |].
  - destruct (Z_le_dec 200 status) as [H1|H1];
      [destruct (Z_lt_dec status 300) as [H2|H2]|];
      [destruct (JSON_parse responseText) as [result|] eqn:Hparse| |].
    + left. now exists status, statusText, responseText, result.
    + right. intros (? & ? & ? & ? & Heq & _ & Hp). inversion Heq; subst. congruence.
    + right. intros (? & ? & ? & ? & Heq & Hs & _). inversion Heq; subst. lia.
    + right. intros (? & ? & ? & ? & Heq & Hs & _). inversion Heq; subst. lia.
  - right. intros (? & ? & ? & ? & Heq & _). discriminate.
  - right. intros (? & ? & ? & ? & Heq & _). discriminate.
Qed.

(** A request that did not succeed resets the bar and sets no timer. *)
Lemma completes_failed (final : Completion) (st : AdminState) :
  ~ succeeded final ->
  batchProgress (step (Completes final) st) = idle
  /\ timers (step (Completes final) st) = timers st.
Proof.
  intros Hfail. destruct final as [status statusText responseText| |];
    [|split; reflexivity|split; reflexivity].
  cbn [step]. unfold on_load.
  destruct ((200 <=? status) && (status <? 300))%Z eqn:Hs; [|split; reflexivity].
  unfold exec, try_catch, bind, orThrow.
  destruct (JSON_parse responseText) as [result|] eqn:Hparse; [|split; reflexivity].
  exfalso. apply Hfail. apply andb_prop in Hs. destruct Hs as [H1 H2].
  apply Z.leb_le in H1. apply Z.ltb_lt in H2.
  exists status, statusText, responseText, result. repeat split; assumption.
Qed.

(** The first timer shows [Complete]; it sets the second timer unless the
    count of the queued files throws. *)
Lemma show_complete_display (result : JsValue) (st : AdminState) :
  let st' := exec (show_complete result) st in
  batchProgress st' = mkProgress 100 "Complete" true
  /\ (timers st' = timers st \/ timers st' = (timers st ++ [ResetBatch])%list).
Proof.
  unfold show_complete, exec, bind, modify, orThrow.
  destruct (Get result "results") as [results|]; cbn; [|now split; [|left]].
  destruct (filter_queued results) as [queued|]; cbn; [|now split; [|left]].
  split; [reflexivity | now right].
Qed.

Lemma show_complete_resets (result results : JsValue) (queued : list JsValue)
    (st : AdminState) :
  Get result "results" = Some results ->
  filter_queued results = Some queued ->
  timers (exec (show_complete result) st) = (timers st ++ [ResetBatch])%list.
Proof.
  intros H1 H2. unfold show_complete, exec, bind, modify, orThrow.
  rewrite H1. cbn. rewrite H2. reflexivity.
Qed.

Lemma step_fire (t : Timer) (waiting : list Timer) (st : AdminState) :
  timers st = t :: waiting ->
  step TimerFires st =
  let st := mkAdmin (selectedFile st) (metadata st) (batchMode st) (batchFiles st)
                    (isBatchUploading st) (batchProgress st) waiting (effects st) in
  match t with
  | ShowComplete result => exec (show_complete result) st
  | ResetBatch => reset_batch st
  end.
Proof. intros H. unfold step. now rewrite H. Qed.

(** With files selected and a display name on each, [handleBatchUpload]
    starts the upload: the bar shows [Preparing] at 0 and the request is
    sent. *)
Lemma handleBatchUpload_starts (st : AdminState) :
  batchFiles st <> [] ->
  Forall (fun f => ToBoolean (JStr (trim (displayName (fields f)))) = true) (batchFiles st) ->
  handleBatchUpload st =
  perform (XhrSend "POST" "/api/ingestion/bulk-upload" (batchFiles st))
          (setBatchProgress (mkProgress 0 "Preparing" true) (setIsBatchUploading true st)).
Proof.
  intros Hfiles Hnamed. unfold handleBatchUpload.
  assert (Hnone : filter (fun f => negb (ToBoolean (JStr (trim (displayName (fields f))))))
                         (batchFiles st) = []).
  { clear Hfiles. induction Hnamed as [|x xs Hx _ IH]; [reflexivity|].
    cbn [filter]. rewrite Hx. exact IH. }
  rewrite Hnone.
  destruct (batchFiles st) as [|f fs]; [contradiction | reflexivity].
Qed.

Lemma rendered_shown (st : AdminState) :
  batchMode st = true -> batchFiles st <> [] ->
  rendered_percent st =
  if isActive (batchProgress st) then Some (percent (batchProgress st)) else None.
Proof.
  intros Hmode Hfiles. unfold rendered_percent. rewrite Hmode.
  destruct (batchFiles st); [contradiction | reflexivity].
Qed.

Lemma rendered_hidden (st : AdminState) :
  isActive (batchProgress st) = false -> rendered_percent st = None.
Proof. intros H. unfold rendered_percent. rewrite H. now rewrite andb_false_r. Qed.

(** The upload phase changes the display only, as [upload_displays] has
    it. *)
Lemma upload_trace (progress : list ProgressEvent) (st : AdminState) :
  map batchProgress (trace (uploading progress) st)
  = upload_displays (batchProgress st) progress
  /\ batchMode (run (uploading progress) st) = batchMode st
  /\ batchFiles (run (uploading progress) st) = batchFiles st
  /\ timers (run (uploading progress) st) = timers st
  /\ batchProgress (run (uploading progress) st)
     = last (upload_displays (batchProgress st) progress) (batchProgress st).
Proof.
  revert st. induction progress as [|event progress IH]; intros st.
  - cbn. repeat split.
  - cbn [uploading map trace run fold_left step upload_displays].
    fold (uploading progress). fold (run (uploading progress) (on_progress event st)).
    rewrite last_cons_default.
    destruct (IH (on_progress event st)) as (Hmap & Hmode & Hfiles & Htimers & Hlast).
    unfold on_progress in *. destruct (lengthComputable event);
      cbn [setBatchProgress batchProgress batchMode batchFiles timers] in *;
      (split; [now rewrite Hmap|]); repeat split; assumption.
Qed.

(** While the bar is rendered, the upload phase shows the percent of each of
    its displays. *)
Lemma rendered_upload (progress : list ProgressEvent) (st : AdminState) :
  batchMode st = true -> batchFiles st <> [] -> isActive (batchProgress st) = true ->
  map rendered_percent (trace (uploading progress) st)
  = map Some (map percent (upload_displays (batchProgress st) progress)).
Proof.
  revert st. induction progress as [|event progress IH]; intros st Hmode Hfiles Hactive;
    [reflexivity|].
  cbn [uploading map trace step upload_displays]. fold (uploading progress).
  unfold on_progress. destruct (lengthComputable event).
  - set (st' := setBatchProgress _ st).
    rewrite (rendered_shown st' Hmode Hfiles). cbn [st' setBatchProgress batchProgress isActive percent].
    f_equal. apply (IH st' Hmode Hfiles eq_refl).
  - rewrite (rendered_shown st Hmode Hfiles), Hactive.
    f_equal. apply (IH st Hmode Hfiles Hactive).
Qed.

(** With progress events as a request reports them, the percents of the
    upload phase rise from the one before and stay within 0 and 90. *)
Lemma upload_displays_rise (size : Z) (progress : list ProgressEvent) :
  reports size progress ->
  forall prev,
  (forall event, In event progress -> lengthComputable event = true ->
                 (percent prev <= uploadPercent event)%Z) ->
  StronglySorted Z.le (percent prev :: map percent (upload_displays prev progress))
  /\ Forall (fun d => lengthComputable d = true -> (0 <= uploadPercent d <= 90)%Z) progress.
Proof.
  induction progress as [|event progress IH]; intros Hrep prev Hnext.
  - cbn. split; repeat constructor.
  - pose proof (fun Hc => reports_bounds size _ event Hrep (or_introl eq_refl) Hc) as Hevent.
    apply reports_tail in Hrep. destruct Hrep as (Hrep & _ & Hlater).
    assert (Hsize : (0 < size)%Z) by apply Hrep.
    cbn [upload_displays map].
    set (next := if lengthComputable event
                 then mkProgress (uploadPercent event) "Uploading" true else prev).
    assert (Hstep : (percent prev <= percent next)%Z).
    { unfold next. destruct (lengthComputable event) eqn:Hc; [|lia].
      cbn [percent]. apply Hnext; [now left | exact Hc]. }
    destruct (IH Hrep next) as [Hsorted Hbounds].
    { intros later Hin Hlc. unfold next. destruct (lengthComputable event) eqn:Hc.
      - cbn [percent]. destruct (Hevent eq_refl) as [Htotal _].
        rewrite Forall_forall in Hlater.
        apply uploadPercent_monotone.
        + rewrite Htotal. symmetry. apply (reports_bounds size _ later Hrep Hin Hlc).
        + now rewrite Htotal.
        + apply (Hlater later Hin eq_refl Hlc).
      - apply Hnext; [now right | exact Hlc]. }
    split.
    + constructor; [exact Hsorted|]. constructor; [exact Hstep|].
      apply StronglySorted_inv in Hsorted. destruct Hsorted as [_ Hle].
      eapply Forall_impl; [|exact Hle]. intros p Hp. cbv beta in Hp. lia.
    + constructor; [|exact Hbounds]. intros Hc. apply (Hevent Hc).
Qed.

(** The percents of the upload phase are percents of its events, or the one
    before. *)
Lemma upload_displays_within (progress : list ProgressEvent) (prev : BatchProgress) :
  (0 <= percent prev <= 90)%Z ->
  Forall (fun d => lengthComputable d = true -> (0 <= uploadPercent d <= 90)%Z) progress ->
  Forall (fun p => (0 <= p <= 90)%Z) (map percent (upload_displays prev progress)).
Proof.
  revert prev. induction progress as [|event progress IH]; intros prev Hprev Hall;
    [constructor|].
  inversion Hall as [|? ? Hevent Hrest]; subst.
  cbn [upload_displays map].
  assert (Hnext : (0 <= percent (if lengthComputable event
                                 then mkProgress (uploadPercent event) "Uploading" true
                                 else prev) <= 90)%Z)
    by (destruct (lengthComputable event); [apply Hevent; reflexivity | exact Hprev]).
  constructor; [exact Hnext | exact (IH _ Hnext Hrest)].
Qed.

Lemma sorted_app (l1 l2 : list Z) :
  StronglySorted Z.le l1 -> StronglySorted Z.le l2 ->
  (forall x y, In x l1 -> In y l2 -> (x <= y)%Z) ->
  StronglySorted Z.le (l1 ++ l2).
Proof.
  intros H1 H2 Hcross. induction H1 as [|x l1 H1 IH Hx]; [exact H2|].
  cbn [app]. constructor.
  - apply IH. intros a b Ha Hb. apply Hcross; [now right | exact Hb].
  - apply Forall_app. split; [exact Hx|].
    apply Forall_forall. intros y Hy. apply Hcross; [now left | exact Hy].
Qed.

Lemma sorted_repeat (x : Z) (n : nat) : StronglySorted Z.le (repeat x n).
Proof.
  induction n as [|n IH]; [constructor|]. cbn [repeat]. constructor; [exact IH|].
  apply Forall_forall. intros y Hy. apply repeat_spec in Hy. subst. lia.
Qed.

(** What the first timer leaves: [Complete] at 100, and the second timer
    set unless the count of the queued files throws. *)
Lemma show_complete_cases (result : JsValue) (st : AdminState) :
  let st' := exec (show_complete result) st in
  batchProgress st' = mkProgress 100 "Complete" true
  /\ batchMode st' = batchMode st
  /\ batchFiles st' = batchFiles st
  /\ (timers st' = timers st \/ timers st' = (timers st ++ [ResetBatch])%list).
Proof.
  unfold show_complete, exec, bind, modify, orThrow.
  destruct (Get result "results") as [results|]; cbn; [|now repeat split; [left]].
  destruct (filter_queued results) as [queued|]; cbn; [|now repeat split; [left]].
  repeat split. now right.
Qed.

(** From the end of the request on. A request that did not succeed hides
    the bar. After a success the bar shows 95, the first timer 100, and the
    second timer hides the bar; where the second timer is not set the bar
    stays at 100. A state with percent 100 occurs only after a success. *)
Lemma ending_shown (final : Completion) (n : nat) (st : AdminState) :
  batchMode st = true -> batchFiles st <> [] -> timers st = [] ->
  exists ending hidden,
    map rendered_percent (trace (Completes final :: repeat TimerFires n) st)
    = (map Some ending ++ repeat None hidden)%list
    /\ StronglySorted Z.le ending
    /\ Forall (fun p => p = 95%Z \/ p = 100%Z) ending
    /\ (ending <> [] -> succeeded final)
    /\ (succeeded final -> firstn (S n) [95; 100]%Z = firstn 2 ending)
    /\ (forall s, In s (trace (Completes final :: repeat TimerFires n) st) ->
                  percent (batchProgress s) = 100%Z -> succeeded final).
Proof.
  intros Hmode Hfiles Htimers.
  destruct (succeeded_dec final) as [Hok|Hfail].
  - pose proof Hok as Hsuccess.
    destruct Hok as (status & statusText & responseText & result & -> & Hs & Hparse).
    cbn [trace step map] in *.
    rewrite (on_load_success _ _ _ _ st Hs Hparse) in *.
    set (st1 := setTimeout _ _) in *.
    assert (Hr1 : rendered_percent st1 = Some 95%Z).
    { now rewrite (rendered_shown st1 Hmode Hfiles). }
    rewrite Hr1.
    destruct n as [|n].
    { exists [95%Z], 0%nat. cbn [repeat trace map app].
      split; [reflexivity|]. split; [repeat constructor|].
      split; [constructor; [now left | constructor]|]. split; [intros _; exact Hsuccess|].
      split; [reflexivity | intros _ _ _; exact Hsuccess]. }
    cbn [repeat trace map] in *.
    assert (Hst1 : timers st1 = [ShowComplete result]) by (cbn; now rewrite Htimers).
    rewrite (step_fire _ _ st1 Hst1) in *. cbv zeta in *.
    set (st2 := exec (show_complete result) _) in *.
    destruct (show_complete_cases result
                (mkAdmin (selectedFile st1) (metadata st1) (batchMode st1) (batchFiles st1)
                         (isBatchUploading st1) (batchProgress st1) [] (effects st1)))
      as (Hshown & Hmode2 & Hfiles2 & Hnext).
    fold st2 in Hshown, Hmode2, Hfiles2, Hnext.
    cbn [timers batchMode batchFiles] in Hnext, Hmode2, Hfiles2.
    change (batchMode st1) with (batchMode st) in Hmode2.
    change (batchFiles st1) with (batchFiles st) in Hfiles2.
    assert (Hr2 : rendered_percent st2 = Some 100%Z).
    { rewrite rendered_shown; [now rewrite Hshown | congruence | congruence]. }
    rewrite Hr2.
    destruct Hnext as [Hnext|Hnext].
    + exists (95 :: 100 :: repeat 100 n)%Z, 0%nat.
      rewrite (trace_quiet n st2 Hnext), !map_repeat, Hr2.
      split; [cbn [map app repeat]; now rewrite map_repeat, app_nil_r|].
      split.
      { constructor.
        - apply (sorted_repeat 100 (S n)).
        - constructor; [lia|]. apply Forall_forall. intros y Hy.
          apply repeat_spec in Hy. subst. lia. }
      split.
      { constructor; [now left|]. constructor; [now right|].
        apply Forall_forall. intros y Hy. apply repeat_spec in Hy. now right. }
      split; [intros _; exact Hsuccess|]. split; [intros _; cbn [firstn]; now rewrite ?firstn_nil | intros _ _ _; exact Hsuccess].
    + destruct n as [|n].
      { exists [95; 100]%Z, 0%nat. cbn [repeat trace map app].
        split; [reflexivity|]. split; [repeat constructor; lia|].
        split; [constructor; [now left|]; constructor; [now right | constructor]|].
        split; [intros _; exact Hsuccess|]. split; [intros _; cbn [firstn]; now rewrite ?firstn_nil | intros _ _ _; exact Hsuccess]. }
      cbn [repeat trace map] in *.
      rewrite (step_fire _ _ st2 Hnext) in *. cbv zeta in *.
      set (st3 := reset_batch _) in *.
      exists [95; 100]%Z, (S n).
      rewrite (trace_quiet n st3 eq_refl), !map_repeat.
      assert (Hr3 : rendered_percent st3 = None) by (now apply rendered_hidden).
      rewrite Hr3.
      split; [reflexivity|]. split; [repeat constructor; lia|].
      split; [constructor; [now left|]; constructor; [now right | constructor]|].
      split; [intros _; exact Hsuccess|]. split; [intros _; cbn [firstn]; now rewrite ?firstn_nil | intros _ _ _; exact Hsuccess].
  - destruct (completes_failed final st Hfail) as [Hidle Hquiet].
    cbn [trace map].
    set (st1 := step (Completes final) st) in *.
    rewrite Htimers in Hquiet.
    rewrite (trace_quiet n st1 Hquiet), map_repeat.
    assert (Hr1 : rendered_percent st1 = None)
      by (apply rendered_hidden; now rewrite Hidle).
    rewrite Hr1.
    exists [], (S n). split; [reflexivity|]. split; [constructor|].
    split; [constructor|]. split; [congruence|]. split; [intros Hok; contradiction|].
    intros s Hin H100. exfalso.
    assert (s = st1) as ->.
    { destruct Hin as [Hin|Hin]; [now symmetry | now apply repeat_spec in Hin]. }
    rewrite Hidle in H100. discriminate.
Qed.

(** The stages of the upload phase: [Uploading] from the first event with a
    computable length on, the stage before until then. *)
Lemma upload_stages_from (p : Z) (progress : list ProgressEvent) :
  map stage (upload_displays (mkProgress p "Uploading" true) progress)
  = repeat "Uploading" (List.length progress).
Proof.
  revert p. induction progress as [|event progress IH]; intros p; [reflexivity|].
  cbn [upload_displays map List.length repeat].
  destruct (lengthComputable event); cbn [stage]; now rewrite IH.
Qed.

Lemma upload_stages (prev : BatchProgress) (progress : list ProgressEvent) :
  exists waiting uploading,
    map stage (upload_displays prev progress)
    = (repeat (stage prev) waiting ++ repeat "Uploading" uploading)%list
    /\ (waiting + uploading = List.length progress)%nat
    /\ (uploading = 0%nat <-> Forall (fun event => lengthComputable event = false) progress).
Proof.
  induction progress as [|event progress IH].
  - exists 0%nat, 0%nat. repeat split. constructor.
  - cbn [upload_displays map List.length]. destruct (lengthComputable event) eqn:Hc.
    + exists 0%nat, (S (List.length progress)).
      rewrite upload_stages_from. repeat split.
      * discriminate.
      * intros Hall. inversion Hall; subst. congruence.
    + destruct IH as (waiting & uploading & Hmap & Hlen & Hnone).
      exists (S waiting), uploading. rewrite Hmap.
      split; [reflexivity|]. split; [cbn; lia|].
      rewrite Hnone. split.
      * intros Hall. now constructor.
      * intros Hall. now inversion Hall.
Qed.

(** C7. A batch upload that [handleBatchUpload] starts in batch mode while
    no timer of an earlier upload waits, with progress events as a request
    reports them, one end of the request and any number of timer callbacks
    after it. The states are the one [handleBatchUpload] leaves and the one
    after each callback. The progress bar shows a percent in the first of
    them and is hidden in the rest, and the percents it shows never fall:
    they are 0, then for each progress event the percent of the upload
    phase, within 0 and 90, then 95 and 100 after a success and nothing after
    a failure. A state with percent 100 occurs only if the request ended
    with a success status and a body that parses, whether the bar is shown
    or not. *)
Theorem progress_rises_until_reset (st : AdminState) (size : Z)
    (progress : list ProgressEvent) (final : Completion) (n : nat) :
  batchMode st = true ->
  batchFiles st <> [] ->
  Forall (fun f => ToBoolean (JStr (trim (displayName (fields f)))) = true) (batchFiles st) ->
  timers st = [] ->
  reports size progress ->
  let st0 := handleBatchUpload st in
  let states := st0 :: trace (execution progress final n) st0 in
  let during := map percent (upload_displays (mkProgress 0 "Preparing" true) progress) in
  exists ending hidden,
    map rendered_percent states
    = (map Some (0%Z :: during ++ ending) ++ repeat None hidden)%list
    /\ StronglySorted Z.le (0%Z :: during ++ ending)
    /\ Forall (fun p => (0 <= p <= 90)%Z) during
    /\ Forall (fun p => p = 95%Z \/ p = 100%Z) ending
    /\ (ending <> [] -> succeeded final)
    /\ (succeeded final -> firstn (S n) [95; 100]%Z = firstn 2 ending)
    /\ (forall s, In s states -> percent (batchProgress s) = 100%Z -> succeeded final).
Proof.
  intros Hmode Hfiles Hnamed Htimers Hrep st0. subst st0.
  rewrite (handleBatchUpload_starts st Hfiles Hnamed).
  set (st0 := perform _ _). cbv zeta.
  assert (Hbp : batchProgress st0 = mkProgress 0 "Preparing" true) by reflexivity.
  assert (Hmode0 : batchMode st0 = true) by exact Hmode.
  assert (Hfiles0 : batchFiles st0 <> []) by exact Hfiles.
  destruct (upload_trace progress st0) as (Hmap & Hmode1 & Hfiles1 & Htimers1 & _).
  set (st1 := run (uploading progress) st0) in *.
  destruct (upload_displays_rise size progress Hrep (batchProgress st0))
    as [Hsorted Hevents].
  { intros event Hin Hc. rewrite Hbp. cbn [percent].
    apply (reports_bounds size _ event Hrep Hin Hc). }
  pose proof (upload_displays_within progress (batchProgress st0)) as Hwithin.
  rewrite Hbp in Hsorted, Hwithin, Hmap. cbn [percent] in Hsorted, Hwithin.
  specialize (Hwithin ltac:(lia) Hevents).
  destruct (ending_shown final n st1) as (ending & hidden & Hshown & Hrise & Hvalues
                                          & Hend & Hfirst & H100).
  { now rewrite Hmode1. }
  { now rewrite Hfiles1. }
  { rewrite Htimers1. exact Htimers. }
  exists ending, hidden.
  split; [|split; [|split; [|split; [|split; [|split]]]]];
    [| | exact Hwithin | exact Hvalues | exact Hend | exact Hfirst |].
  - unfold execution. rewrite trace_app. fold st1.
    cbn [map app]. rewrite map_app, Hshown.
    rewrite (rendered_shown st0 Hmode0 Hfiles0), Hbp. cbn [isActive percent].
    rewrite (rendered_upload progress st0 Hmode0 Hfiles0) by (now rewrite Hbp).
    rewrite Hbp, map_app, <- app_assoc. reflexivity.
  - change (0%Z :: map percent (upload_displays (mkProgress 0 "Preparing" true) progress)
                ++ ending)%list
      with ((0%Z :: map percent (upload_displays (mkProgress 0 "Preparing" true) progress))
              ++ ending)%list.
    apply sorted_app; [exact Hsorted | exact Hrise |].
    intros x y Hx Hy.
    assert (x <= 90)%Z.
    { destruct Hx as [<-|Hx]; [lia|]. rewrite Forall_forall in Hwithin.
      apply (Hwithin x Hx). }
    rewrite Forall_forall in Hvalues. destruct (Hvalues y Hy); lia.
  - intros s Hin Hs. destruct Hin as [<-|Hin]; [rewrite Hbp in Hs; discriminate|].
    unfold execution in Hin. rewrite trace_app in Hin. fold st1 in Hin.
    apply in_app_or in Hin. destruct Hin as [Hin|Hin]; [|exact (H100 s Hin Hs)].
    exfalso. apply (in_map batchProgress) in Hin. rewrite Hmap in Hin.
    apply (in_map percent) in Hin. rewrite Forall_forall in Hwithin.
    specialize (Hwithin _ Hin). lia.
Qed.

(** C8, as amended. The scale: a progress event with a computable length, a
    total above zero and a load within it shows the stage [Uploading] at the
    percent [Math.round((loaded / total) * 90)], which lies within 0 and 90,
    is 0 when nothing is loaded and 90 when everything is, does not fall
    when the load grows and, with accurate doubles and a total within
    [2^53], is within one point of [90 * loaded / total]. An event without a
    computable length leaves the state as it is. The stages: when the
    request ends with a success status and a body whose [results] can be
    counted, and both timers have run, the display after each callback is
    the one of the upload phase for each progress event, then [Queued] at
    95, [Complete] at 100, and the reset to idle; the stages are [Preparing]
    until the first event with a computable length, [Uploading] from then
    on, then [Queued], [Complete] and the empty stage of the reset, with no
    [Uploading] exactly when no event has a computable length. *)
Theorem stages_of_successful_upload (st : AdminState)
    (progress : list ProgressEvent) (status : Z) (statusText responseText : string)
    (result results : JsValue) (queued : list JsValue) :
  batchFiles st <> [] ->
  Forall (fun f => ToBoolean (JStr (trim (displayName (fields f)))) = true) (batchFiles st) ->
  timers st = [] ->
  (200 <= status < 300)%Z ->
  JSON_parse responseText = Some result ->
  Get result "results" = Some results ->
  filter_queued results = Some queued ->
  let st0 := handleBatchUpload st in
  let shown := displayed (execution progress (Load status statusText responseText) 2) st0 in
  (forall event s,
     lengthComputable event = true ->
     (0 < total event)%Z -> (0 <= loaded event <= total event)%Z ->
     batchProgress (on_progress event s) = mkProgress (uploadPercent event) "Uploading" true
     /\ (0 <= uploadPercent event <= 90)%Z
     /\ (loaded event = 0%Z -> uploadPercent event = 0%Z)
     /\ (loaded event = total event -> uploadPercent event = 90%Z)
     /\ (forall later, total later = total event -> (loaded event <= loaded later)%Z ->
                       (uploadPercent event <= uploadPercent later)%Z)
     /\ (accurate fa -> (total event <= 2 ^ 53)%Z ->
         (Z.abs (uploadPercent event * total event - 90 * loaded event) < total event)%Z))
  /\ (forall event s, lengthComputable event = false -> on_progress event s = s)
  /\ shown = (upload_displays (mkProgress 0 "Preparing" true) progress
              ++ [mkProgress 95 "Queued" true; mkProgress 100 "Complete" true; idle])%list
  /\ exists waiting uploading,
       map stage shown
       = (repeat "Preparing" waiting ++ repeat "Uploading" uploading
          ++ ["Queued"; "Complete"; ""])%list
       /\ (waiting + uploading = List.length progress)%nat
       /\ (uploading = 0%nat
           <-> Forall (fun event => lengthComputable event = false) progress).
Proof.
  intros Hfiles Hnamed Htimers Hs Hparse Hresults Hqueued st0. subst st0.
  rewrite (handleBatchUpload_starts st Hfiles Hnamed).
  set (st0 := perform _ _). cbv zeta.
  assert (Hbp : batchProgress st0 = mkProgress 0 "Preparing" true) by reflexivity.
  assert (Hshown : displayed (execution progress (Load status statusText responseText) 2) st0
                   = (upload_displays (mkProgress 0 "Preparing" true) progress
                      ++ [mkProgress 95 "Queued" true; mkProgress 100 "Complete" true;
                          idle])%list).
  { destruct (upload_trace progress st0) as (Hmap & _ & _ & Hq & _).
    unfold displayed, execution. rewrite trace_app, map_app, Hmap, Hbp. f_equal.
    set (st1 := run (uploading progress) st0) in *.
    cbn [app repeat trace map].
    change (step (Completes (Load status statusText responseText)) st1)
      with (on_load status statusText responseText st1).
    rewrite (on_load_success _ _ _ _ st1 Hs Hparse).
    set (st2 := setTimeout _ _).
    assert (Hst2 : timers st2 = [ShowComplete result]).
    { unfold st2. cbn [timers setTimeout setBatchProgress]. rewrite Hq.
      change (timers st0) with (timers st). now rewrite Htimers. }
    rewrite (step_fire _ _ st2 Hst2). cbv zeta.
    set (st3 := exec (show_complete result) _).
    assert (Hst3 : timers st3 = [ResetBatch]).
    { unfold st3. now rewrite (show_complete_resets _ _ _ _ Hresults Hqueued). }
    assert (Hcomplete : batchProgress st3 = mkProgress 100 "Complete" true).
    { apply show_complete_display. }
    rewrite (step_fire _ _ st3 Hst3). cbv zeta.
    rewrite Hcomplete. reflexivity. }
  split; [|split; [|split]].
  - intros event s Hc Ht Hl. rewrite (on_progress_computable _ _ Hc).
    split; [reflexivity|]. split; [now apply uploadPercent_bounds|].
    destruct event as [c l t]. cbn [loaded total] in *.
    split; [intros ->; now apply uploadPercent_none|].
    split; [intros ->; now apply uploadPercent_all|].
    split.
    + intros later Hsame Hmore. apply uploadPercent_monotone; cbn [loaded total];
        [now symmetry | exact Ht | exact Hmore].
    + intros Hacc Hbig.
      apply (uploadPercent_near (mkEvent c l t) Hacc Ht Hl Hbig).
  - intros event s Hc. now apply on_progress_not_computable.
  - exact Hshown.
  - rewrite Hshown.
    destruct (upload_stages (mkProgress 0 "Preparing" true) progress)
      as (waiting & uploading & Hmap & Hlen & Hnone).
    exists waiting, uploading. rewrite map_app, Hmap, <- app_assoc.
    split; [reflexivity|]. split; [exact Hlen | exact Hnone].
Qed.
End BatchUpload.

(** ** The theorems on the sample streams and uploads *)

Section OnSamples.
Import JS Flow Flow.Notations Chat Upload.

Notation reference := Json.reference_runtime.

(** C1. An [error] event neither ends the stream nor shows the fallback
    text. The body is an [error] event followed by a [content] event: the
    [content] event is still handled, the assistant message shows its
    fragment and is still streaming, and the success toast is shown. The
    [throw] of the [error] branch is inside the [try] of the line, whose
    [catch] takes it. *)
Theorem error_event_does_not_end_stream :
  let final :=
    handleSendMessage (rt := reference) "hi"
      (Sample.responds [Sample.error_event ++ nl; Sample.content_Hel ++ nl] Closed)
      Sample.no_messages in
  messages final =
    [Msg.mk "msg-1000-user" "hi" user 1000 None None;
     Msg.mk "msg-1001-assistant" "Hel" assistant 1001 (Some true) (Some (JArr []))]
  /\ toasts final = [toast_success "Response completed!"]
  /\ events (exec (read_loop (rt := reference) "msg-1001-assistant"
                     [Sample.error_event ++ nl; Sample.content_Hel ++ nl] Closed)
                  Sample.started)
     = [EvError (JStr "boom"); EvContent (JStr "Hel")].
Proof. vm_compute. repeat split. Qed.

(** A read that fails does end the stream with the fallback text. *)
Example read_failure_shows_fallback :
  messages (handleSendMessage (rt := reference) "hi"
              (Sample.responds [Sample.content_Hel ++ nl] Failed) Sample.no_messages)
  = [Msg.mk "msg-1000-user" "hi" user 1000 None None;
     Msg.mk "msg-1001-assistant" fallback_text assistant 1001 (Some false)
            (Some (JArr []))].
Proof. vm_compute. reflexivity. Qed.

(** The stream of four events, chunk by line and cut at other places. *)
Lemma chunking_invariance_witness :
  handleSendMessage (rt := reference) "hi" (Sample.responds Sample.by_line Closed)
    Sample.no_messages
  = handleSendMessage (rt := reference) "hi" (Sample.responds Sample.ragged Closed)
      Sample.no_messages.
Proof.
  unfold Sample.responds.
  apply (proj2 (chunking_invariance (rt := reference) Sample.by_line Sample.ragged Closed
                  eq_refl eq_refl)).
Defined.

(** A [content] line cut after its first seven characters, in a first chunk
    that starts with the rest of a [sources] line the buffer carries: the
    three events are there once each, that of the cut line in its place. *)
Lemma split_line_handled_once_witness :
  events (exec (on_chunk (rt := reference) "msg-1001-assistant"
                  (slice 7 Sample.sources_event ++ nl ++ "data: {")
                ;; on_chunk (rt := reference) "msg-1001-assistant"
                     (slice 7 Sample.content_Hel ++ nl ++ Sample.done_event ++ nl))
               (with_buffer "data: {" Sample.started))
  = [EvSources (JArr [Sample.guide]); EvContent (JStr "Hel"); EvDone]
  /\ events (exec (on_chunk (rt := reference) "msg-1001-assistant"
                     (slice 7 Sample.sources_event ++ nl ++ "data: {")
                   ;; on_chunk (rt := reference) "msg-1001-assistant"
                        (slice 7 Sample.content_Hel ++ nl ++ Sample.done_event ++ nl))
                  (with_buffer "data: {" Sample.started))
     = (events (exec (on_chunk (rt := reference) "msg-1001-assistant"
                        (slice 7 Sample.sources_event ++ nl ++ "data: {"))
                     (with_buffer "data: {" Sample.started))
        ++ line_events (rt := reference)
             (residual ("data: {" ++ slice 7 Sample.sources_event ++ nl ++ "data: {")
              ++ slice 7 Sample.content_Hel)
        ++ flat_map (line_events (rt := reference))
             (complete_lines (Sample.done_event ++ nl)))%list.
Proof.
  split; [vm_compute; reflexivity|].
  apply (proj1 (proj2 (proj2 (proj2
           (split_line_handled_once (rt := reference) "msg-1001-assistant"
              (slice 7 Sample.sources_event ++ nl ++ "data: {")
              (slice 7 Sample.content_Hel) (Sample.done_event ++ nl)
              (with_buffer "data: {" Sample.started) eq_refl))))).
Defined.

(** A [content] line without its line feed at the end of the body. *)
Lemma unterminated_tail_discarded_witness :
  handleSendMessage (rt := reference) "hi"
    (Sample.responds (Sample.by_line ++ [Sample.content_lo])%list Closed) Sample.no_messages
  = handleSendMessage (rt := reference) "hi" (Sample.responds Sample.by_line Closed)
      Sample.no_messages.
Proof.
  unfold Sample.responds.
  apply (proj2 (unterminated_tail_discarded (rt := reference) Sample.by_line
                  Sample.content_lo Closed eq_refl)).
Defined.

Lemma sample_decodes (line : string) :
  startsWith line "data: " = true ->
  Json.parse (slice 6 line) = Some (Sample.parsed line) ->
  decodes (rt := reference) line (Sample.parsed line).
Proof. intros H1 H2. split; assumption. Qed.

(** The stream of four events in ragged chunks shows the two fragments joined. *)
Lemma sources_contents_done_rendered_witness :
  exists earlier rendered,
    messages (handleSendMessage (rt := reference) "hi"
                (Sample.responds Sample.ragged Closed) Sample.no_messages)
    = (earlier ++ [rendered])%list
    /\ Msg.id rendered = "msg-" ++ dec 1001 ++ "-assistant"
    /\ Msg.role rendered = assistant
    /\ Msg.content rendered = text ["Hel"; "lo"]
    /\ Msg.isStreaming rendered = Some false
    /\ isLoading (handleSendMessage (rt := reference) "hi"
                    (Sample.responds Sample.ragged Closed) Sample.no_messages) = false.
Proof.
  unfold Sample.responds.
  apply (sources_contents_done_rendered (rt := reference) "hi" 1000 1000 1001 1001 200
           Sample.ragged Sample.sources_event Sample.done_event (JArr [Sample.guide])
           [Sample.content_Hel; Sample.content_lo] ["Hel"; "lo"] Sample.no_messages).
  - reflexivity.
  - reflexivity.
  - reflexivity.
  - reflexivity.
  - repeat constructor.
  - exists (Sample.parsed Sample.sources_event).
    split; [apply sample_decodes; reflexivity | split; reflexivity].
  - constructor; [|constructor; [|constructor]].
    + exists (Sample.parsed Sample.content_Hel).
      split; [apply sample_decodes; reflexivity | split; reflexivity].
    + exists (Sample.parsed Sample.content_lo).
      split; [apply sample_decodes; reflexivity | split; reflexivity].
  - exists (Sample.parsed Sample.done_event).
    split; [apply sample_decodes; reflexivity | reflexivity].
Defined.

(** A record of the unknown type [ping] is skipped. *)
Lemma handle_line_total_and_skips_witness :
  exec (handle_line (rt := reference) "msg-1001-assistant" Sample.ping_event) Sample.started
  = Sample.started.
Proof.
  apply (proj1 (proj2 (proj2 (proj2
           (handle_line_total_and_skips (rt := reference) "msg-1001-assistant"))))
         Sample.ping_event (Sample.parsed Sample.ping_event) (JStr "ping")).
  - reflexivity.
  - reflexivity.
  - reflexivity.
Defined.



Notation exact := Upload.exact_arith.

(** A file of exactly 1,610,612,736 bytes is taken. *)
Lemma size_limit_enforced_witness :
  selectedFile (handleFileSelect (rt := reference) (fa := exact)
                  (Some [Sample.lecture]) Sample.console) = Some Sample.lecture
  /\ effects (handleFileSelect (rt := reference) (fa := exact)
                (Some [Sample.lecture]) Sample.console) = effects Sample.console.
Proof.
  apply (proj2 (proj1 (size_limit_enforced (rt := reference) (fa := exact))
                  Sample.lecture [] Sample.console)).
  vm_compute. discriminate.
Defined.

Lemma sample_reports :
  reports 1048576 [Sample.half; Sample.unknown_length; Sample.whole].
Proof.
  split; [reflexivity|]. split.
  - repeat constructor; cbn; intros; try discriminate; lia.
  - repeat constructor; cbn; intros; try discriminate; lia.
Qed.

Lemma sample_named :
  Forall (fun f => ToBoolean (JStr (trim (displayName (fields f)))) = true)
         (batchFiles Sample.ready).
Proof. repeat constructor. Qed.

Lemma exact_accurate : accurate exact.
Proof.
  intros x Hlo Hhi. cbn [rnd exact_arith]. split; lra.
Qed.

(** The percent of the state returns to 0 in the one update that hides the
    bar: the state holds 45, 90, 95, 100 and 0, the bar shows 45, 90, 95 and
    100 and is hidden then. *)
Example percent_drops_at_reset :
  ~ non_decreasing
      (map percent
         (displayed (rt := reference) (fa := exact)
            (execution [Sample.half; Sample.whole] Sample.queued_response 2)
            (handleBatchUpload Sample.ready)))
  /\ map rendered_percent
       (trace (rt := reference) (fa := exact)
          (execution [Sample.half; Sample.whole] Sample.queued_response 2)
          (handleBatchUpload Sample.ready))
     = [Some 45; Some 90; Some 95; Some 100; None]%Z.
Proof.
  split; [|vm_compute; reflexivity].
  intros H. specialize (H 3%nat 4%nat 100%Z 0%Z).
  assert (100 <= 0)%Z; [|lia].
  apply H; [lia | reflexivity | reflexivity].
Qed.

(** The sample upload: the bar shows 0, 45, 45, 90, 95 and 100 and is
    hidden from the second timer on. *)
Lemma progress_rises_until_reset_witness :
  map rendered_percent
    (handleBatchUpload Sample.ready
     :: trace (rt := reference) (fa := exact)
          (execution [Sample.half; Sample.unknown_length; Sample.whole]
                     Sample.queued_response 4)
          (handleBatchUpload Sample.ready))
  = [Some 0; Some 45; Some 45; Some 90; Some 95; Some 100; None; None; None]%Z
  /\ exists ending hidden,
       map rendered_percent
         (handleBatchUpload Sample.ready
          :: trace (rt := reference) (fa := exact)
               (execution [Sample.half; Sample.unknown_length; Sample.whole]
                          Sample.queued_response 4)
               (handleBatchUpload Sample.ready))
       = (map Some (0 :: [45; 45; 90] ++ ending)%Z ++ repeat None hidden)%list
       /\ StronglySorted Z.le (0 :: [45; 45; 90] ++ ending)%Z
       /\ [95; 100]%Z = firstn 2 ending.
Proof.
  split; [vm_compute; reflexivity|].
  destruct (progress_rises_until_reset (rt := reference) (fa := exact)
              Sample.ready 1048576 [Sample.half; Sample.unknown_length; Sample.whole]
              Sample.queued_response 4)
    as (ending & hidden & Hshown & Hsorted & _ & _ & _ & Hfirst & _).
  - reflexivity.
  - discriminate.
  - exact sample_named.
  - reflexivity.
  - exact sample_reports.
  - exists ending, hidden. split; [exact Hshown|]. split; [exact Hsorted|].
    apply Hfirst. exists 200%Z, "OK", 
      (Json.quoted "{'results':[{'filename':'annual_report-2024.pdf','status':'queued'}]}"),
      (Sample.parsed (Json.quoted "123456{'results':[{'filename':'annual_report-2024.pdf','status':'queued'}]}")).
    split; [reflexivity|]. split; [lia | reflexivity].
Defined.

(** C8, a counterexample to the claim as stated. A successful upload whose
    progress event has no computable length never shows the stage
    [Uploading]: the guard of the listener skips the event, and the bar goes
    from [Preparing] to [Queued]. *)
Lemma success_without_uploading_stage :
  displayed (rt := reference) (fa := exact)
    (execution [Sample.unknown_length] Sample.queued_response 2)
    (handleBatchUpload Sample.ready)
  = [mkProgress 0 "Preparing" true; mkProgress 95 "Queued" true;
     mkProgress 100 "Complete" true; idle]
  /\ ~ In "Uploading"
         (map stage
            (displayed (rt := reference) (fa := exact)
               (execution [Sample.unknown_length] Sample.queued_response 2)
               (handleBatchUpload Sample.ready))).
Proof.
  split; [reflexivity|].
  intros [H|[H|[H|[H|[]]]]]; discriminate.
Qed.

(** The sample upload goes through its stages in order: [Preparing] for the
    event without a computable length, [Uploading] at 45 for half of the
    bytes and at 90 for all of them, then [Queued], [Complete] and the
    reset. *)
Lemma stages_of_successful_upload_witness :
  displayed (rt := reference) (fa := exact)
    (execution [Sample.unknown_length; Sample.half; Sample.whole] Sample.queued_response 2)
    (handleBatchUpload Sample.ready)
  = [mkProgress 0 "Preparing" true; mkProgress 45 "Uploading" true;
     mkProgress 90 "Uploading" true; mkProgress 95 "Queued" true;
     mkProgress 100 "Complete" true; idle]
  /\ batchProgress (on_progress (fa := exact) Sample.half Sample.ready)
     = mkProgress 45 "Uploading" true
  /\ (Z.abs (uploadPercent (fa := exact) Sample.half * 1048576 - 90 * 524288) < 1048576)%Z
  /\ exists waiting uploading,
       map stage
         (displayed (rt := reference) (fa := exact)
            (execution [Sample.unknown_length; Sample.half; Sample.whole]
                       Sample.queued_response 2)
            (handleBatchUpload Sample.ready))
       = (repeat "Preparing" waiting ++ repeat "Uploading" uploading
          ++ ["Queued"; "Complete"; ""])%list
       /\ (waiting + uploading = 3)%nat.
Proof.
  pose proof (stages_of_successful_upload (rt := reference) (fa := exact)
                Sample.ready [Sample.unknown_length; Sample.half; Sample.whole] 200 "OK"
                (Json.quoted "{'results':[{'filename':'annual_report-2024.pdf','status':'queued'}]}")
                (Sample.parsed (Json.quoted "123456{'results':[{'filename':'annual_report-2024.pdf','status':'queued'}]}"))
                (JArr [Sample.parsed (Json.quoted "123456{'filename':'annual_report-2024.pdf','status':'queued'}")])
                [Sample.parsed (Json.quoted "123456{'filename':'annual_report-2024.pdf','status':'queued'}")])
    as H.
  cbv zeta in H.
  destruct H as (Hscale & _ & Hshown & waiting & uploading & Hstages & Hcount & _).
  - discriminate.
  - exact sample_named.
  - reflexivity.
  - lia.
  - reflexivity.
  - reflexivity.
  - reflexivity.
  - destruct (Hscale Sample.half Sample.ready) as (Hshows & _ & _ & _ & _ & Hnear).
    + reflexivity.
    + reflexivity.
    + cbn. lia.
    + split; [exact Hshown|]. split; [exact Hshows|].
      split; [apply Hnear; [exact exact_accurate | vm_compute; discriminate]|].
      exists waiting, uploading. split; [exact Hstages | exact Hcount].
Defined.

(** A success response without [results]: the first timer shows [Complete]
    and throws on [result.results.filter], the second timer is never set,
    and the bar stays at 100 with the upload marked as running. *)
Example complete_without_results_stays :
  let final :=
    run (rt := reference) (fa := exact)
      (execution [Sample.whole] Sample.bare_response 5) (handleBatchUpload Sample.ready) in
  batchProgress final = mkProgress 100 "Complete" true
  /\ isBatchUploading final = true
  /\ timers final = [].
Proof. vm_compute. repeat split. Qed.
End OnSamples.

(** * Further properties *)

(** ** The decoder: what the split keeps *)

Section SplitKeeps.
Import JS Flow Chat.

Lemma unlines_residual (s : string) :
  unlines (complete_lines s) ++ residual s = s.
Proof.
  induction s as [|c s IH]; [reflexivity|].
  unfold complete_lines, residual in *.
  pose proof (split_nl_not_nil s) as Hne.
  destruct (Ascii.eqb c LF) eqn:Hc.
  - apply Ascii.eqb_eq in Hc. subst c. rewrite split_nl_LF.
    destruct (split_nl s) as [|x xs] eqn:E; [contradiction|].
    change (removelast ("" :: x :: xs)) with ("" :: removelast (x :: xs)).
    change (last ("" :: x :: xs) "") with (last (x :: xs) "").
    rewrite unlines_cons. cbn [String.append]. unfold nl. cbn [String.append].
    now rewrite IH.
  - rewrite (split_nl_other _ _ Hc).
    destruct (split_nl s) as [|x [|y xs]] eqn:E; [contradiction| |].
    + cbn in IH |- *. now rewrite IH.
    + cbn [hd tl].
      change (removelast (String c x :: y :: xs)) with (String c x :: removelast (y :: xs)).
      change (last (String c x :: y :: xs) "") with (last (y :: xs) "").
      change (removelast (x :: y :: xs)) with (x :: removelast (y :: xs)) in IH.
      change (last (x :: y :: xs) "") with (last (y :: xs) "") in IH.
      rewrite unlines_cons in *. cbn [String.append]. now rewrite IH.
Qed.

(** X1. Splitting loses nothing: the lines left in the array after [pop],
    each with its line feed, followed by the new buffer, are the text that
    was split. *)
Theorem split_pop_keeps_text (s : string) :
  let '(popped, lines) := pop (split_nl s) in
  unlines lines ++ or_empty popped = s.
Proof.
  rewrite pop_split_nl, or_empty_Some. apply unlines_residual.
Qed.

Lemma complete_lines_segments (s : string) :
  Forall (fun line => no_LF line = true) (complete_lines s).
Proof.
  unfold complete_lines. pose proof (split_nl_segments s) as H.
  pose proof (split_nl_not_nil s) as Hne.
  rewrite (app_removelast_last "" Hne) in H.
  apply Forall_app in H. now destruct H as [H _].
Qed.
End SplitKeeps.

(** ** The decoder: what a line can change *)

Section LineFrame.
Import JS Flow Flow.Notations Chat ChatMore.
Context {rt : JsRuntime}.
Variable assistantMessageId : string.

Notation handle_line := (handle_line assistantMessageId).
Notation handle_lines := (handle_lines assistantMessageId).
Notation shown := (update_assistant assistantMessageId).

Lemma shown_nothing (msgs : list Msg.t) : shown (fun msg => msg) msgs = msgs.
Proof.
  unfold update_assistant. rewrite <- (map_id msgs) at 2. apply map_ext.
  intros msg. now destruct (String.eqb (Msg.id msg) assistantMessageId).
Qed.

Lemma keeps_identity_same : keeps_identity (fun msg => msg).
Proof. intros msg. repeat split. Qed.

Lemma keeps_identity_compose (f g : Msg.t -> Msg.t) :
  keeps_identity f -> keeps_identity g -> keeps_identity (fun msg => g (f msg)).
Proof.
  intros Hf Hg msg. destruct (Hf msg) as (H1 & H2 & H3).
  destruct (Hg (f msg)) as (G1 & G2 & G3). repeat split; congruence.
Qed.

(** A line changes the component only through an update of the messages
    that carry the id of the assistant message, and only the text before
    it can get longer. *)
Lemma handle_line_frame (line : string) (r : Run) :
  exists f added,
    keeps_identity f
    /\ ui (exec (handle_line line) r) =
       mkChat (shown f (messages (ui r))) (isLoading (ui r)) (toasts (ui r))
    /\ accumulatedContent (exec (handle_line line) r) = accumulatedContent r ++ added.
Proof.
  assert (Hsame : exists f added,
             keeps_identity f
             /\ ui r = mkChat (shown f (messages (ui r))) (isLoading (ui r)) (toasts (ui r))
             /\ accumulatedContent r = accumulatedContent r ++ added).
  { exists (fun msg => msg), "". split; [apply keeps_identity_same|].
    rewrite shown_nothing, append_empty_r. now destruct (ui r). }
  unfold Chat.handle_line, Chat.dispatch.
  destruct (startsWith line "data: "); [|exact Hsame].
  flow_compute.
  destruct (JSON_parse (slice 6 line)) as [data|]; [|exact Hsame].
  destruct (Get data "type") as [type|]; [|exact Hsame].
  destruct (strict_eq_str type "sources").
  { destruct (Get data "sources"); exact Hsame. }
  destruct (strict_eq_str type "sources_update").
  { destruct (Get data "sources") as [payload|]; [|exact Hsame].
    exists (fun msg => Msg.with_sources msg (or_else payload (JArr []))), "".
    cbn. rewrite append_empty_r. repeat split. }
  destruct (strict_eq_str type "content").
  { destruct (Get data "content") as [payload|]; [|exact Hsame].
    destruct (ToString payload) as [fragment|]; [|exact Hsame].
    exists (fun msg => Msg.with_content msg (accumulatedContent r ++ fragment) (sources r)),
           fragment.
    cbn. repeat split. }
  destruct (strict_eq_str type "done").
  { exists Msg.finished, "". cbn. rewrite append_empty_r. repeat split. }
  destruct (strict_eq_str type "error"); [|exact Hsame].
  destruct (Get data "error") as [payload|]; [|exact Hsame].
  destruct payload; try exact Hsame;
    match goal with |- context [ToString ?v] => destruct (ToString v); exact Hsame end.
Qed.

Lemma handle_lines_frame (lines : list string) (r : Run) :
  exists f added,
    keeps_identity f
    /\ ui (handle_lines lines r) =
       mkChat (shown f (messages (ui r))) (isLoading (ui r)) (toasts (ui r))
    /\ accumulatedContent (handle_lines lines r) = accumulatedContent r ++ added.
Proof.
  revert r. induction lines as [|line lines IH]; intros r.
  - exists (fun msg => msg), "". split; [apply keeps_identity_same|].
    unfold Chat.handle_lines. cbn [fold_left].
    rewrite shown_nothing, append_empty_r. now destruct (ui r).
  - unfold Chat.handle_lines in *. cbn [fold_left].
    destruct (handle_line_frame line r) as (f & a & Hf & Hui & Hacc).
    destruct (IH (exec (handle_line line) r)) as (g & b & Hg & Hui' & Hacc').
    exists (fun msg => g (f msg)), (a ++ b).
    split; [now apply keeps_identity_compose|]. split.
    + rewrite Hui', Hui. cbn [messages isLoading toasts].
      rewrite shown_twice by (intros msg; apply Hf). reflexivity.
    + rewrite Hacc', Hacc. apply append_assoc.
Qed.
End LineFrame.

(** ** [handleSendMessage]: its guards, its shape, its failures *)

Section SendShape.
Import JS Flow Flow.Notations Chat ChatMore.
Context {rt : JsRuntime}.

Lemma list_ascii_app (a b : string) :
  list_ascii_of_string (a ++ b) = (list_ascii_of_string a ++ list_ascii_of_string b)%list.
Proof. induction a as [|c a IH]; [reflexivity|]. cbn. now rewrite IH. Qed.

Lemma last_char_app (a b : string) :
  b <> "" -> last_char (a ++ b) = last_char b.
Proof.
  intros Hb. unfold last_char. rewrite list_ascii_app, rev_app_distr.
  destruct b as [|c b]; [contradiction|].
  cbn [list_ascii_of_string rev].
  destruct (rev (list_ascii_of_string b)) as [|x xs]; reflexivity.
Qed.

Lemma user_id_not_assistant_id (a b : string) :
  "msg-" ++ a ++ "-user" <> "msg-" ++ b ++ "-assistant".
Proof.
  intros H. apply (f_equal last_char) in H.
  rewrite <- !append_assoc in H.
  rewrite (last_char_app _ "-user"), (last_char_app _ "-assistant") in H
    by discriminate.
  discriminate.
Qed.

Lemma trimStart_only_spaces (s : string) : only_spaces s = true -> trimStart s = "".
Proof.
  induction s as [|c s IH]; [reflexivity|]. cbn. intros H.
  apply andb_prop in H. destruct H as [Hc Hs]. rewrite Hc. now apply IH.
Qed.

(** The [try] block ends in an exception exactly when the request fails;
    either way the messages changed only through an update of the assistant
    message. *)
Lemma request_shape (assistantMessageId : string) (env : Env) (st : ChatState) :
  exists f,
    keeps_identity f
    /\ ((fails env
         /\ exists e, request assistantMessageId env st =
                      (Exn e, mkChat (update_assistant assistantMessageId f (messages st))
                                     (isLoading st) (toasts st)))
        \/ (~ fails env
            /\ request assistantMessageId env st =
               (Ok tt, mkChat (update_assistant assistantMessageId f (messages st))
                              (isLoading st)
                              (toasts st ++ [toast_success "Response completed!"])%list))).
Proof.
  assert (Hnone : forall e, fails env -> request assistantMessageId env st = (Exn e, st) ->
            exists f, keeps_identity f
              /\ ((fails env
                   /\ exists e, request assistantMessageId env st =
                        (Exn e, mkChat (update_assistant assistantMessageId f (messages st))
                                       (isLoading st) (toasts st)))
                  \/ (~ fails env
                      /\ request assistantMessageId env st =
                         (Ok tt, mkChat (update_assistant assistantMessageId f (messages st))
                                        (isLoading st)
                                        (toasts st ++ [toast_success "Response completed!"])%list)))).
  { intros e Hfails Hreq. exists (fun msg => msg). split; [apply keeps_identity_same|].
    left. split; [exact Hfails|]. exists e. rewrite shown_nothing, Hreq. now destruct st. }
  destruct (fetched env) as [|status body] eqn:Hf.
  - apply (Hnone NetworkFailure).
    + unfold fails. now rewrite Hf.
    + unfold request. now rewrite Hf.
  - destruct (ok status) eqn:Hok.
    + destruct body as [[chunks ending]|].
      * rewrite (request_streams assistantMessageId env status chunks ending st Hf Hok).
        cbv zeta.
        destruct (handle_lines_frame assistantMessageId (complete_lines (text chunks))
                    (fresh st)) as (f & added & Hkeeps & Hui & _).
        exists f. split; [exact Hkeeps|]. rewrite Hui. cbn [messages isLoading toasts ui fresh].
        destruct ending.
        -- right. split; [|reflexivity].
           unfold fails. rewrite Hf. intros [H|[H|(c & H)]]; congruence.
        -- left. split; [|now exists NetworkFailure].
           unfold fails. rewrite Hf. right; right. now exists chunks.
      * apply (Hnone (Error "No response body reader available")).
        -- unfold fails. rewrite Hf. right; now left.
        -- unfold request. now rewrite Hf, Hok.
    + apply (Hnone (Error ("HTTP error! status: " ++ dec status))).
      * unfold fails. rewrite Hf. now left.
      * unfold request. now rewrite Hf, Hok.
Qed.

(** What an accepted call of [handleSendMessage] ends in: the two new
    messages after the earlier ones, the assistant messages updated, and the
    fallback text with the error toast exactly when the request fails. *)
Lemma handleSendMessage_shape (message : string) (env : Env) (st : ChatState) :
  ToBoolean (JStr (trim message)) = true ->
  isLoading st = false ->
  exists f,
    keeps_identity f
    /\ ((fails env
         /\ handleSendMessage message env st =
            mkChat (update_assistant (assistant_id env)
                      (fun msg => Msg.failed (f msg) fallback_text)
                      (messages st ++ [user_message message env; streaming_message env]))
                   false (toasts st ++ [error_toast])%list)
        \/ (~ fails env
            /\ handleSendMessage message env st =
               mkChat (update_assistant (assistant_id env) f
                         (messages st ++ [user_message message env; streaming_message env]))
                      false (toasts st ++ [success_toast])%list)).
Proof.
  intros Hmsg Hload. unfold handleSendMessage. rewrite Hmsg, Hload. cbn [negb orb].
  fold (assistant_id env). fold (user_message message env). fold (streaming_message env).
  set (st2 := appendMessage _ (setIsLoading true (appendMessage _ st))).
  assert (Hm : messages st2 =
               (messages st ++ [user_message message env; streaming_message env])%list).
  { unfold st2. cbn. now rewrite <- app_assoc. }
  destruct (request_shape (assistant_id env) env st2) as (f & Hkeeps & Hreq).
  exists f. split; [exact Hkeeps|].
  unfold exec, try_finally, try_catch.
  destruct Hreq as [(Hfails & e & Hreq)|(Hok & Hreq)]; rewrite Hreq, Hm.
  - left. split; [exact Hfails|]. unfold on_failure, bind, modify, toast.
    cbn [messages isLoading toasts setIsLoading].
    rewrite shown_twice by (intros msg; apply Hkeeps). reflexivity.
  - right. split; [exact Hok|]. reflexivity.
Qed.

Lemma nth_error_update_assistant (id : string) (f : Msg.t -> Msg.t)
    (msgs : list Msg.t) (i : nat) :
  nth_error (update_assistant id f msgs) i =
  option_map (fun msg => if String.eqb (Msg.id msg) id then f msg else msg)
             (nth_error msgs i).
Proof. unfold update_assistant. apply nth_error_map. Qed.

(** An accepted call leaves the message of the user right after the earlier
    messages. *)
Lemma accepted_send_user_message (message : string) (env : Env) (st : ChatState) :
  ToBoolean (JStr (trim message)) = true ->
  isLoading st = false ->
  nth_error (messages (handleSendMessage message env st)) (List.length (messages st))
  = Some (user_message message env).
Proof.
  intros Hmsg Hload.
  destruct (handleSendMessage_shape message env st Hmsg Hload) as (f & _ & Hshape).
  assert (Hne : String.eqb (Msg.id (user_message message env)) (assistant_id env) = false).
  { apply String.eqb_neq, user_id_not_assistant_id. }
  destruct Hshape as [(_ & ->)|(_ & ->)]; cbn [messages];
    rewrite nth_error_update_assistant, nth_error_app2 by lia;
    rewrite Nat.sub_diag; cbn [nth_error option_map]; now rewrite Hne.
Qed.

(** X2. An accepted call of [handleSendMessage], whatever the request does:
    it ends with [isLoading] false; the messages are the earlier ones, the
    message of the user and the assistant message, in this order; an earlier
    message with another id than the new assistant message is as it was, the
    message of the user is as it was added, and the assistant message keeps
    its id, role and timestamp. *)
Theorem send_keeps_history (message : string) (env : Env) (st : ChatState) :
  ToBoolean (JStr (trim message)) = true ->
  isLoading st = false ->
  let final := handleSendMessage message env st in
  let n := List.length (messages st) in
  isLoading final = false
  /\ List.length (messages final) = (n + 2)%nat
  /\ (forall i msg, nth_error (messages st) i = Some msg ->
                   Msg.id msg <> assistant_id env ->
                   nth_error (messages final) i = Some msg)
  /\ nth_error (messages final) n = Some (user_message message env)
  /\ (exists rendered,
        nth_error (messages final) (S n) = Some rendered
        /\ Msg.id rendered = assistant_id env
        /\ Msg.role rendered = assistant
        /\ Msg.timestamp rendered = date_assistant env)
  /\ ChatMore.conversationTitle final = "Active Conversation".
Proof.
  intros Hmsg Hload final n.
  destruct (handleSendMessage_shape message env st Hmsg Hload) as (f & Hkeeps & Hshape).
  assert (Hform : exists g, keeps_identity g
            /\ isLoading final = false
            /\ messages final =
               update_assistant (assistant_id env) g
                 (messages st ++ [user_message message env; streaming_message env])).
  { subst final. destruct Hshape as [(_ & ->)|(_ & ->)].
    - exists (fun msg => Msg.failed (f msg) fallback_text). split; [|split; reflexivity].
      intros msg. destruct (Hkeeps msg) as (H1 & H2 & H3). repeat split; assumption.
    - exists f. split; [exact Hkeeps | split; reflexivity]. }
  clear Hshape f Hkeeps. destruct Hform as (g & Hkeeps & Hloading & Hmessages).
  assert (Hlen : List.length (messages final) = (n + 2)%nat).
  { rewrite Hmessages. unfold update_assistant. rewrite length_map, length_app. reflexivity. }
  split; [exact Hloading|]. split; [exact Hlen|]. split; [|split; [|split]].
  - intros i msg Hnth Hid. rewrite Hmessages, nth_error_update_assistant.
    rewrite nth_error_app1 by (apply nth_error_Some; congruence).
    rewrite Hnth. cbn [option_map]. apply String.eqb_neq in Hid. now rewrite Hid.
  - rewrite Hmessages, nth_error_update_assistant.
    rewrite nth_error_app2 by (unfold n; lia).
    replace (n - List.length (messages st))%nat with 0%nat by (unfold n; lia).
    cbn [nth_error option_map].
    assert (Hne : String.eqb (Msg.id (user_message message env)) (assistant_id env) = false).
    { apply String.eqb_neq, user_id_not_assistant_id. }
    now rewrite Hne.
  - exists (g (streaming_message env)).
    rewrite Hmessages, nth_error_update_assistant.
    rewrite nth_error_app2 by (unfold n; lia).
    replace (S n - List.length (messages st))%nat with 1%nat by (unfold n; lia).
    cbn [nth_error option_map streaming_message Msg.id]. rewrite String.eqb_refl.
    destruct (Hkeeps (streaming_message env)) as (H1 & H2 & H3).
    repeat split; assumption.
  - unfold ChatMore.conversationTitle. rewrite Hlen.
    replace (n + 2)%nat with (S (S n)) by lia. reflexivity.
Qed.

(** X3. A request that fails (a rejected [fetch], a status that is no
    success, a response without a body, a read that fails after any number of
    chunks) ends an accepted call with the fallback text on the assistant
    message, its [isStreaming] false, the error toast as the only new toast
    and [isLoading] false. A request that does not fail ends it with the
    success toast as the only new toast. *)
Theorem failed_request_shows_fallback (message : string) (env : Env) (st : ChatState) :
  ToBoolean (JStr (trim message)) = true ->
  isLoading st = false ->
  let final := handleSendMessage message env st in
  (fails env ->
     (exists earlier rendered,
        messages final = (earlier ++ [rendered])%list
        /\ Msg.id rendered = assistant_id env
        /\ Msg.content rendered = fallback_text
        /\ Msg.isStreaming rendered = Some false)
     /\ toasts final = (toasts st ++ [error_toast])%list
     /\ isLoading final = false)
  /\ (~ fails env -> toasts final = (toasts st ++ [success_toast])%list).
Proof.
  intros Hmsg Hload final.
  destruct (handleSendMessage_shape message env st Hmsg Hload) as (f & Hkeeps & Hshape).
  subst final. split.
  - intros Hfails. destruct Hshape as [(_ & ->)|(Hok & _)]; [|contradiction].
    split; [|split; reflexivity].
    exists (update_assistant (assistant_id env)
              (fun msg => Msg.failed (f msg) fallback_text)
              (messages st ++ [user_message message env])),
           (Msg.failed (f (streaming_message env)) fallback_text).
    cbn [messages].
    change [user_message message env; streaming_message env]
      with ([user_message message env] ++ [streaming_message env])%list.
    rewrite app_assoc, update_assistant_app.
    rewrite (update_assistant_own (assistant_id env) _ (streaming_message env) eq_refl).
    destruct (Hkeeps (streaming_message env)) as (H1 & _).
    repeat split. exact H1.
  - intros Hok. destruct Hshape as [(Hfails & _)|(_ & ->)]; [contradiction | reflexivity].
Qed.

(** X4. The guard of [handleSendMessage]: a message of white space only, the
    empty one with it, or a call while [isLoading] leaves the state as it
    is, whatever the request would do. *)
Theorem blank_or_busy_send_ignored (message : string) (env : Env) (st : ChatState) :
  only_spaces message = true \/ isLoading st = true ->
  handleSendMessage message env st = st.
Proof.
  intros [Hblank|Hbusy]; unfold handleSendMessage.
  - unfold trim. rewrite (trimStart_only_spaces _ Hblank). reflexivity.
  - rewrite Hbusy. now rewrite orb_true_r.
Qed.
End SendShape.

(** ** The decoder: the carry-over buffer and the streamed text *)

Section Buffer.
Import JS Flow Flow.Notations Chat ChatMore.
Context {rt : JsRuntime}.

(** X5. The carry-over buffer. After a chunk the buffer holds no line feed,
    and no line handed to the handler holds one. A chunk that brings no line
    feed to a buffer without one, the empty chunk with it, hands no line to
    the handler: it is appended to the buffer and nothing else changes. *)
Theorem buffer_holds_partial_line (assistantMessageId : string) :
  (forall chunk r, no_LF (buffer (exec (on_chunk assistantMessageId chunk) r)) = true)
  /\ (forall s, Forall (fun line => no_LF line = true) (snd (pop (split_nl s))))
  /\ (forall chunks ending st,
        no_LF (buffer (exec (read_loop assistantMessageId chunks ending) (fresh st))) = true)
  /\ (forall chunk r,
        no_LF (buffer r ++ chunk) = true ->
        on_chunk assistantMessageId chunk r = (Ok tt, with_buffer (buffer r ++ chunk) r)).
Proof.
  split; [|split; [|split]].
  - intros chunk r. unfold exec. rewrite on_chunk_spec. cbn [snd].
    rewrite buffer_with_buffer. apply residual_no_LF.
  - intros s. rewrite pop_split_nl. cbn [snd]. apply complete_lines_segments.
  - intros chunks ending st. unfold exec.
    rewrite read_loop_fresh by reflexivity. cbn [snd].
    rewrite buffer_with_buffer. apply residual_no_LF.
  - intros chunk r H. rewrite on_chunk_spec.
    rewrite (complete_lines_no_LF _ H), (residual_of_no_LF _ H). reflexivity.
Qed.

(** X6. The streamed text only grows: whatever chunks follow, the text
    accumulated after them is the text accumulated before, with something
    appended. *)
Theorem streamed_text_only_grows (assistantMessageId : string)
    (chunks : list string) (ending : Ending) (r : Run) :
  no_LF (buffer r) = true ->
  exists added,
    accumulatedContent (exec (read_loop assistantMessageId chunks ending) r)
    = accumulatedContent r ++ added.
Proof.
  intros Hb. unfold exec. rewrite (read_loop_spec _ _ _ _ Hb). cbn [snd].
  destruct (handle_lines_frame assistantMessageId
              (complete_lines (buffer r ++ text chunks)) r) as (f & added & _ & _ & Hacc).
  exists added. exact Hacc.
Qed.
End Buffer.

(** ** Editing the batch *)

Section BatchEdits.
Import JS Upload Batch.

Lemma map_indexed_nth {A B : Type} (f : A -> nat -> B) (i j : nat) (a : list A) :
  nth_error (map_indexed f i a) j = option_map (fun x => f x (i + j)%nat) (nth_error a j).
Proof.
  revert i j. induction a as [|x a IH]; intros i j.
  - now destruct j.
  - destruct j as [|j]; cbn.
    + now rewrite Nat.add_0_r.
    + rewrite IH. now rewrite Nat.add_succ_r.
Qed.

Lemma map_indexed_length {A B : Type} (f : A -> nat -> B) (i : nat) (a : list A) :
  List.length (map_indexed f i a) = List.length a.
Proof. revert i. induction a as [|x a IH]; intros i; cbn; [reflexivity | now rewrite IH]. Qed.

Lemma filter_indexed_past {A : Type} (index k : nat) (a : list A) :
  (index < k)%nat ->
  filter_indexed (fun _ i => negb (i =? index)%nat) k a = a.
Proof.
  revert k. induction a as [|x a IH]; intros k H; [reflexivity|].
  cbn. assert (E : (k =? index)%nat = false) by (apply Nat.eqb_neq; lia).
  rewrite E. cbn. now rewrite IH by lia.
Qed.

Lemma filter_indexed_remove {A : Type} (index k : nat) (a : list A) :
  filter_indexed (fun _ i => negb (i =? k + index)%nat) k a
  = (firstn index a ++ skipn (S index) a)%list.
Proof.
  revert k index. induction a as [|x a IH]; intros k index.
  - now destruct index.
  - destruct index as [|index]; cbn [filter_indexed firstn skipn app].
    + rewrite Nat.add_0_r, Nat.eqb_refl. cbn [negb].
      apply filter_indexed_past. lia.
    + assert (E : (k =? k + S index)%nat = false) by (apply Nat.eqb_neq; lia).
      rewrite E. cbn [negb]. f_equal.
      replace (k + S index)%nat with (S k + index)%nat by lia. apply IH.
Qed.

Lemma with_field_file (item : BatchFileMetadata) (field : Field) (value : string) :
  file (with_field item field value) = file item.
Proof. now destruct field. Qed.

Lemma change_files (index : nat) (field : Field) (value : string) (k : nat)
    (a : list BatchFileMetadata) :
  map file (map_indexed (fun item i => if (i =? index)%nat then with_field item field value
                                       else item) k a) = map file a.
Proof.
  revert k. induction a as [|x a IH]; intros k; [reflexivity|].
  cbn. rewrite IH. f_equal. destruct (k =? index)%nat; [apply with_field_file | reflexivity].
Qed.

Lemma remove_spec (index : nat) (st : AdminState) :
  batchFiles (handleRemoveBatchFile index st) =
    (firstn index (batchFiles st) ++ skipn (S index) (batchFiles st))%list.
Proof.
  unfold handleRemoveBatchFile. cbn [setBatchFiles batchFiles].
  apply (filter_indexed_remove index 0).
Qed.

Lemma change_nth (index : nat) (field : Field) (value : string) (st : AdminState) (j : nat) :
  nth_error (batchFiles (handleBatchMetadataChange index field value st)) j =
  if (j =? index)%nat
  then option_map (fun item => with_field item field value) (nth_error (batchFiles st) j)
  else nth_error (batchFiles st) j.
Proof.
  unfold handleBatchMetadataChange. cbn [setBatchFiles batchFiles].
  rewrite map_indexed_nth. cbn [Nat.add].
  destruct (j =? index)%nat; [reflexivity|].
  now destruct (nth_error (batchFiles st) j).
Qed.

(** X7. [handleRemoveBatchFile] drops the entry at the index and keeps the
    others in their order; an index past the end changes nothing. *)
Theorem remove_batch_file_at_index (index : nat) (st : AdminState) :
  batchFiles (handleRemoveBatchFile index st) =
    (firstn index (batchFiles st) ++ skipn (S index) (batchFiles st))%list
  /\ ((index < List.length (batchFiles st))%nat ->
      S (List.length (batchFiles (handleRemoveBatchFile index st)))
      = List.length (batchFiles st))
  /\ ((List.length (batchFiles st) <= index)%nat -> handleRemoveBatchFile index st = st).
Proof.
  pose proof (remove_spec index st) as H.
  split; [exact H|]. split.
  - intros Hin. rewrite H, length_app, length_firstn, length_skipn. lia.
  - intros Hout. unfold handleRemoveBatchFile, setBatchFiles.
    rewrite (filter_indexed_remove index 0).
    rewrite firstn_all2 by exact Hout. rewrite skipn_all2 by lia.
    rewrite app_nil_r. now destruct st.
Qed.

(** X8. [handleBatchMetadataChange] writes the value to the field of the
    entry at the index and to nothing else: the other entries are as they
    were, no entry changes its file, the number of entries is the same, and
    an index past the end changes nothing. *)
Theorem change_touches_one_field (index : nat) (field : Field) (value : string)
    (st : AdminState) :
  let st' := handleBatchMetadataChange index field value st in
  (forall j, nth_error (batchFiles st') j =
             if (j =? index)%nat
             then option_map (fun item => with_field item field value)
                             (nth_error (batchFiles st) j)
             else nth_error (batchFiles st) j)
  /\ map file (batchFiles st') = map file (batchFiles st)
  /\ List.length (batchFiles st') = List.length (batchFiles st)
  /\ ((List.length (batchFiles st) <= index)%nat -> st' = st).
Proof.
  intros st'. subst st'. pose proof (change_nth index field value st) as Hnth.
  unfold handleBatchMetadataChange in *. cbn [setBatchFiles batchFiles] in *.
  split; [exact Hnth|]. split; [apply change_files|]. split; [apply map_indexed_length|].
  intros Hout.
  assert (Hsame : map_indexed (fun item i => if (i =? index)%nat
                                             then with_field item field value else item)
                              0 (batchFiles st) = batchFiles st).
  { apply nth_error_ext. intros j. rewrite Hnth.
    destruct (j =? index)%nat eqn:E; [|reflexivity].
    apply Nat.eqb_eq in E. subst j.
    assert (Hnone : nth_error (batchFiles st) index = None) by now apply nth_error_None.
    now rewrite Hnone. }
  unfold setBatchFiles. cbv beta. rewrite Hsame. now destruct st.
Qed.
End BatchEdits.

(** ** What the batch upload sends *)

Section BatchRequest.
Import JS Upload Batch.

Lemma edit_keeps_limit (e : Edit) (st : AdminState) :
  Forall within_limit (batchFiles st) -> Forall within_limit (batchFiles (edit st e)).
Proof.
  intros H. destruct e as [files|index field value|index|]; cbn [edit].
  - unfold handleBatchFileSelect. destruct files as [[|first others]|]; try exact H.
    destruct (collect_spec (first :: others) [] st) as (alerts & Heq & _).
    rewrite Heq. cbn [setBatchFiles perform batchFiles app].
    apply Forall_app. split; [exact H|].
    apply Forall_forall. intros item Hin. apply in_map_iff in Hin.
    destruct Hin as (f & <- & Hf). apply filter_In in Hf. destruct Hf as [_ Hs].
    unfold within_limit, small in *. cbn. now apply Z.leb_le.
  - apply Forall_forall. intros item Hin. apply In_nth_error in Hin.
    destruct Hin as [j Hj].
    rewrite change_nth in Hj. rewrite Forall_forall in H.
    destruct (j =? index)%nat.
    + destruct (nth_error (batchFiles st) j) as [old|] eqn:Hold; [|discriminate].
      cbn in Hj. injection Hj as <-. unfold within_limit. rewrite with_field_file.
      apply H. eapply nth_error_In. exact Hold.
    + apply H. eapply nth_error_In. exact Hj.
  - rewrite remove_spec.
    rewrite Forall_forall in *. intros item Hin. apply H.
    apply in_app_or in Hin. destruct Hin as [Hin|Hin].
    + rewrite <- (firstn_skipn index (batchFiles st)). apply in_or_app. now left.
    + rewrite <- (firstn_skipn (S index) (batchFiles st)). apply in_or_app. now right.
  - constructor.
Qed.

Lemma blank_names (a : list BatchFileMetadata) :
  existsb (fun f => negb (ToBoolean (JStr (trim (displayName (fields f)))))) a = false ->
  Forall (fun f => ToBoolean (JStr (trim (displayName (fields f)))) = true) a.
Proof.
  induction a as [|x a IH]; intros H; [constructor|].
  cbn [existsb] in H. apply orb_false_iff in H. destruct H as [Hx Ha].
  constructor; [now apply negb_false_iff | now apply IH].
Qed.

(** X9. The size limit holds of the batch whatever the user does to it:
    after any selections, changes of metadata, removals and cancellations,
    every file of the batch is within the limit when every file was before,
    and so is every file of a request [handleBatchUpload] then sends. *)
Theorem edits_keep_size_limit (edits : list Edit) (st : AdminState) :
  Forall within_limit (batchFiles st) ->
  let st' := fold_left edit edits st in
  Forall within_limit (batchFiles st')
  /\ forall method url files,
       In (XhrSend method url files) (effects (handleBatchUpload st')) ->
       In (XhrSend method url files) (effects st') \/ Forall within_limit files.
Proof.
  intros H st'.
  assert (Hall : Forall within_limit (batchFiles st')).
  { subst st'. revert st H. induction edits as [|e edits IH]; intros st H; [exact H|].
    cbn [fold_left]. apply IH. now apply edit_keeps_limit. }
  split; [exact Hall|]. intros method url files Hin.
  unfold handleBatchUpload in Hin.
  destruct (List.length (batchFiles st') =? 0)%nat.
  - cbn in Hin. apply in_app_or in Hin. destruct Hin as [Hin|[Hin|[]]];
      [now left | discriminate].
  - destruct (0 <? List.length _)%nat.
    + cbn in Hin. apply in_app_or in Hin. destruct Hin as [Hin|[Hin|[]]];
        [now left | discriminate].
    + cbn in Hin. apply in_app_or in Hin. destruct Hin as [Hin|[Hin|[]]]; [now left|].
      injection Hin as _ _ <-. now right.
Qed.

(** X10. The upload button and the handler agree on the display names, and
    only the button looks at a running upload. With a batch that is not
    empty and the button enabled, [handleBatchUpload] sends the request with
    the whole batch; with an empty batch, or a display name that is blank
    after trimming, it alerts and does nothing else. A running upload does
    not stop the handler: what it does outside the state is the same
    whatever [isBatchUploading] holds. *)
Theorem upload_button_guards_request :
  (forall st,
     batchFiles st <> [] -> upload_disabled st = false ->
     handleBatchUpload st =
     perform (XhrSend "POST" "/api/ingestion/bulk-upload" (batchFiles st))
             (setBatchProgress (mkProgress 0 "Preparing" true)
                               (setIsBatchUploading true st)))
  /\ (forall st,
        batchFiles st = []
        \/ (exists f, In f (batchFiles st) /\ trim (displayName (fields f)) = "") ->
        exists text, handleBatchUpload st = alert text st)
  /\ (forall st b,
        effects (handleBatchUpload (setIsBatchUploading b st))
        = effects (handleBatchUpload st)).
Proof.
  split; [|split].
  - intros st Hfiles Hbutton. unfold upload_disabled in Hbutton.
    apply orb_false_iff in Hbutton. destruct Hbutton as [_ Hnames].
    apply handleBatchUpload_starts; [exact Hfiles | now apply blank_names].
  - intros st [Hempty|(f & Hin & Hblank)]; unfold handleBatchUpload.
    + rewrite Hempty. now eexists.
    + destruct (List.length (batchFiles st) =? 0)%nat; [now eexists|].
      assert (Hmissing : In f (filter (fun f => negb (ToBoolean (JStr (trim (displayName
                                 (fields f)))))) (batchFiles st))).
      { apply filter_In. split; [exact Hin|]. now rewrite Hblank. }
      destruct (filter _ (batchFiles st)) as [|m ms]; [contradiction|].
      cbn. now eexists.
  - intros st b. unfold handleBatchUpload. cbn [setIsBatchUploading batchFiles].
    destruct (List.length (batchFiles st) =? 0)%nat; [reflexivity|].
    destruct (0 <? List.length _)%nat; reflexivity.
Qed.
End BatchRequest.

(** ** How a batch upload ends *)

Section Outcome.
Import JS Flow Upload Batch.
Context {rt : JsRuntime} {fa : FloatArith}.

Lemma run_cons (o : Occurrence) (os : list Occurrence) (st : AdminState) :
  run (o :: os) st = run os (step o st).
Proof. reflexivity. Qed.

Lemma run_quiet (n : nat) (st : AdminState) :
  timers st = [] -> run (repeat TimerFires n) st = st.
Proof.
  intros H. induction n as [|n IH]; [reflexivity|].
  cbn [repeat]. rewrite run_cons, (step_quiet st H). exact IH.
Qed.

Lemma queued_items_filter (items : list JsValue) :
  Forall (fun r => Get r "status" <> None) items ->
  queued_items items = Some (filter is_queued items).
Proof.
  induction 1 as [|r items Hr _ IH]; [reflexivity|].
  cbn [queued_items filter]. unfold is_queued at 1.
  destruct (Get r "status") as [status|]; [|contradiction].
  rewrite IH. now destruct (strict_eq_str status "queued").
Qed.

Lemma queued_items_null (items : list JsValue) :
  queued_items items = None <-> exists r, In r items /\ Get r "status" = None.
Proof.
  induction items as [|r items IH]; cbn [queued_items].
  - split; [discriminate | intros (r & [] & _)].
  - destruct (Get r "status") as [status|] eqn:Hr.
    + destruct (queued_items items) as [kept|].
      * split; [discriminate|]. intros (x & [<-|Hin] & Hx); [congruence|].
        assert (Hnone : @None (list JsValue) = None) by reflexivity.
        destruct IH as [_ IH]. discriminate IH. now exists x.
      * split; [|reflexivity]. intros _. destruct IH as [IH _].
        destruct (IH eq_refl) as (x & Hin & Hx). exists x. split; [now right | exact Hx].
    + split; [|reflexivity]. intros _. exists r. split; [now left | exact Hr].
Qed.

Lemma show_complete_ok (result results : JsValue) (queued : list JsValue)
    (st : AdminState) :
  Get result "results" = Some results ->
  filter_queued results = Some queued ->
  exec (show_complete result) st =
  setTimeout ResetBatch
    (alert (complete_text (List.length queued))
           (setBatchProgress (mkProgress 100 "Complete" true) st)).
Proof.
  intros H1 H2. unfold show_complete, exec, bind, modify, orThrow.
  rewrite H1. cbn. rewrite H2. reflexivity.
Qed.

Lemma show_complete_stops (result : JsValue) (st : AdminState) :
  match Get result "results" with
  | Some results => filter_queued results = None
  | None => True
  end ->
  exec (show_complete result) st = setBatchProgress (mkProgress 100 "Complete" true) st.
Proof.
  intros H. unfold show_complete, exec, bind, modify, orThrow.
  destruct (Get result "results") as [results|]; cbn; [|reflexivity].
  rewrite H. reflexivity.
Qed.

(** X11. A successful batch upload ends clean. When the request ends with a
    success status and a body that parses to a value whose [results] is an
    array without [null], the two timers leave the batch empty, batch mode
    off, the bar idle and the upload flag down; the single-file form is as it
    was; and what happened outside the state is one alert, giving the number
    of results whose status is [queued], and then one reload of the document
    list. Further timer ticks change nothing. *)
Theorem successful_upload_ends_clean (status : Z) (statusText responseText : string)
    (result : JsValue) (items : list JsValue) (n : nat) (st : AdminState) :
  timers st = [] ->
  (200 <= status < 300)%Z ->
  JSON_parse responseText = Some result ->
  Get result "results" = Some (JArr items) ->
  Forall (fun r => Get r "status" <> None) items ->
  let st' := run (Completes (Load status statusText responseText)
                  :: repeat TimerFires (2 + n)) st in
  batchFiles st' = [] /\ batchMode st' = false /\ batchProgress st' = idle
  /\ isBatchUploading st' = false /\ timers st' = []
  /\ selectedFile st' = selectedFile st /\ metadata st' = metadata st
  /\ effects st' =
     (effects st ++ [Alert (complete_text (List.length (filter is_queued items)));
                     FetchDocuments])%list.
Proof.
  intros Htimers Hstatus Hparse Hresults Hitems st'. subst st'.
  rewrite run_cons. cbn [step].
  rewrite (on_load_success _ _ _ _ st Hstatus Hparse).
  cbn [Nat.add repeat]. rewrite run_cons.
  rewrite (step_fire (ShowComplete result) []) by (cbn; now rewrite Htimers).
  cbv zeta.
  rewrite (show_complete_ok result (JArr items) (filter is_queued items))
    by (try exact Hresults; now apply queued_items_filter).
  rewrite run_cons.
  rewrite (step_fire ResetBatch []) by reflexivity.
  rewrite run_quiet by reflexivity.
  cbn. rewrite <- app_assoc. repeat split; reflexivity.
Qed.

(** X12. A batch upload that fails can be tried again. When the request
    does not end with a success status and a body that parses, the batch
    and the batch mode are as they were, the bar is idle, the upload flag is
    down, no timer is left, and outside the state there is at most one alert
    and no reload of the document list. *)
Theorem failed_upload_keeps_batch (final : Completion) (n : nat) (st : AdminState) :
  timers st = [] ->
  ~ succeeded final ->
  let st' := run (Completes final :: repeat TimerFires n) st in
  batchFiles st' = batchFiles st /\ batchMode st' = batchMode st
  /\ batchProgress st' = idle /\ isBatchUploading st' = false /\ timers st' = []
  /\ (effects st' = effects st \/ exists text, effects st' = (effects st ++ [Alert text])%list).
Proof.
  intros Htimers Hfail st'. subst st'. rewrite run_cons.
  assert (Hstep :
    let s := step (Completes final) st in
    batchFiles s = batchFiles st /\ batchMode s = batchMode st
    /\ batchProgress s = idle /\ isBatchUploading s = false /\ timers s = []
    /\ (effects s = effects st \/ exists text, effects s = (effects st ++ [Alert text])%list)).
  { destruct final as [status statusText responseText| |]; cbn [step].
    - unfold on_load.
      destruct ((200 <=? status) && (status <? 300))%Z eqn:Hs.
      + unfold exec, try_catch, bind, orThrow.
        destruct (JSON_parse responseText) as [result|] eqn:Hparse.
        * exfalso. apply Hfail. apply andb_prop in Hs. destruct Hs as [H1 H2].
          apply Z.leb_le in H1. apply Z.ltb_lt in H2.
          exists status, statusText, responseText, result. repeat split; assumption.
        * cbn. rewrite Htimers. repeat split; try reflexivity. right. now eexists.
      + cbn. rewrite Htimers. repeat split; try reflexivity. right. now eexists.
    - cbn. rewrite Htimers. repeat split; try reflexivity. right. now eexists.
    - cbn. rewrite Htimers. repeat split; try reflexivity. now left. }
  cbv zeta in Hstep. destruct Hstep as (H1 & H2 & H3 & H4 & H5 & H6).
  rewrite (run_quiet n _ H5). repeat split; assumption.
Qed.

(** X13. A success whose body has no list of results leaves the upload
    hanging. When the request ends with a success status and a body that
    parses, but [results] of the parsed value is no array or holds [null],
    the first timer shows [Complete] at 100 and its callback stops there:
    the upload flag stays up, the batch stays, there is no alert, no reload
    and no timer, and no later tick changes that. *)
Theorem complete_without_results_hangs (final : Completion) (n : nat) (st : AdminState) :
  timers st = [] ->
  succeeded_without_results final ->
  let st' := run (Completes final :: repeat TimerFires (1 + n)) st in
  batchProgress st' = mkProgress 100 "Complete" true
  /\ isBatchUploading st' = isBatchUploading st
  /\ batchFiles st' = batchFiles st /\ batchMode st' = batchMode st
  /\ timers st' = [] /\ effects st' = effects st.
Proof.
  intros Htimers (status & statusText & responseText & result & -> & Hs & Hparse & Hres) st'.
  subst st'. rewrite run_cons. cbn [step].
  rewrite (on_load_success _ _ _ _ st Hs Hparse).
  cbn [Nat.add repeat]. rewrite run_cons.
  rewrite (step_fire (ShowComplete result) []) by (cbn; now rewrite Htimers).
  cbv zeta. rewrite (show_complete_stops result _ Hres).
  rewrite run_quiet by reflexivity. cbn. repeat split; reflexivity.
Qed.
End Outcome.

(** ** The percent of the progress bar *)

Section Scale.
Import Upload.
Context {fa : FloatArith}.

(** X14. The scale of the upload percent, whatever the rounding of the
    doubles: for a total above zero the percent is 0 when nothing is loaded
    and 90 when everything is, it lies between the two for a load in
    between, and it does not fall when the load grows. *)
Theorem upload_percent_scale (t : Z) :
  (0 < t)%Z ->
  uploadPercent (mkEvent true 0 t) = 0%Z
  /\ uploadPercent (mkEvent true t t) = 90%Z
  /\ (forall l, (0 <= l <= t)%Z -> (0 <= uploadPercent (mkEvent true l t) <= 90)%Z)
  /\ (forall l1 l2, (l1 <= l2)%Z ->
        (uploadPercent (mkEvent true l1 t) <= uploadPercent (mkEvent true l2 t))%Z).
Proof.
  intros Ht.
  assert (Htq : ~ (inject_Z t == 0)%Q).
  { change 0%Q with (inject_Z 0). rewrite inject_Z_injective. lia. }
  split; [|split; [|split]].
  - unfold uploadPercent, fmul, fdiv. cbn [loaded total].
    apply Math_round_integer.
    assert (E0 : (rnd (inject_Z 0 / inject_Z t) == 0)%Q).
    { rewrite <- rnd_0. apply rnd_comp. unfold Qdiv. apply Qmult_0_l. }
    rewrite <- rnd_0 at 2. apply rnd_comp. rewrite E0. apply Qmult_0_l.
  - unfold uploadPercent, fmul, fdiv. cbn [loaded total].
    apply Math_round_integer.
    assert (E1 : (rnd (inject_Z t / inject_Z t) == 1)%Q).
    { rewrite <- rnd_1. apply rnd_comp. unfold Qdiv. now apply Qmult_inv_r. }
    rewrite <- rnd_90 at 2. apply rnd_comp. rewrite E1. apply Qmult_1_l.
  - intros l Hl. now apply uploadPercent_bounds.
  - intros l1 l2 Hl. now apply uploadPercent_monotone.
Qed.
End Scale.

(** ** Names derived from the file name *)

Section Names.
Import JS Upload Batch.

Lemma append_all_chars (p : ascii -> bool) (a b : string) :
  all_chars p (a ++ b) = all_chars p a && all_chars p b.
Proof.
  induction a as [|c a IH]; [reflexivity|]. cbn. rewrite IH. apply andb_assoc.
Qed.

Lemma strip_extension_at_dot (base ext : string) :
  ext <> "" ->
  all_chars (fun d => negb (is_char d "/.")) ext = true ->
  strip_extension (base ++ "." ++ ext) = base.
Proof.
  intros Hne Hext. change ("." ++ ext) with (String "." ext).
  induction base as [|c base IH].
  - cbn [append strip_extension]. rewrite Hext.
    destruct ext; [contradiction | reflexivity].
  - cbn [append strip_extension].
    assert (Hrest : all_chars (fun d => negb (is_char d "/.")) (base ++ String "." ext)
                    = false).
    { rewrite append_all_chars. apply andb_false_iff. right. reflexivity. }
    rewrite Hrest, andb_false_r. now rewrite IH.
Qed.

Lemma strip_extension_no_dot (s : string) :
  all_chars (fun d => negb (Ascii.eqb d ".")) s = true -> strip_extension s = s.
Proof.
  induction s as [|c s IH]; [reflexivity|]. cbn [all_chars strip_extension].
  intros H. apply andb_prop in H. destruct H as [Hc Hs].
  apply negb_true_iff in Hc. rewrite Hc. cbn [andb]. now rewrite IH.
Qed.

Lemma spaces_for_separators_length (s : string) :
  String.length (spaces_for_separators s) = String.length s.
Proof. induction s as [|c s IH]; [reflexivity|]. cbn. now rewrite IH. Qed.

Lemma spaces_for_separators_clean (s : string) :
  all_chars (fun c => negb (is_char c "_-")) (spaces_for_separators s) = true.
Proof.
  induction s as [|c s IH]; [reflexivity|]. cbn [spaces_for_separators all_chars].
  rewrite IH, andb_true_r. destruct (is_char c "_-") eqn:E; [reflexivity | now rewrite E].
Qed.

Lemma spaces_for_separators_keeps (s : string) :
  all_chars (fun c => negb (is_char c "_-")) s = true -> spaces_for_separators s = s.
Proof.
  induction s as [|c s IH]; [reflexivity|]. cbn [spaces_for_separators all_chars].
  intros H. apply andb_prop in H. destruct H as [Hc Hs].
  apply negb_true_iff in Hc. rewrite Hc. now rewrite IH.
Qed.

(** X15. The display name a selected file gets. For a file name that ends
    in a dot and an extension without [/] and [.], the name before that dot
    is kept and every [_] and [-] of it becomes a space; a file name without
    a dot is taken whole. The result has the length of the part kept and no
    [_] or [-], and a name without them is not changed. *)
Theorem display_name_from_file_name :
  (forall base ext size,
     ext <> "" ->
     all_chars (fun d => negb (is_char d "/.")) ext = true ->
     displayName (fields (batch_entry (mkFile (base ++ "." ++ ext) size)))
     = spaces_for_separators base)
  /\ (forall name size,
        all_chars (fun d => negb (Ascii.eqb d ".")) name = true ->
        displayName (fields (batch_entry (mkFile name size))) = spaces_for_separators name)
  /\ (forall s,
        String.length (spaces_for_separators s) = String.length s
        /\ all_chars (fun c => negb (is_char c "_-")) (spaces_for_separators s) = true
        /\ (all_chars (fun c => negb (is_char c "_-")) s = true ->
            spaces_for_separators s = s)).
Proof.
  split; [|split].
  - intros base ext size Hne Hext. cbn [batch_entry fields displayName name].
    now rewrite strip_extension_at_dot.
  - intros name size Hname. cbn [batch_entry fields displayName Upload.name].
    now rewrite strip_extension_no_dot.
  - intros s. split; [apply spaces_for_separators_length|].
    split; [apply spaces_for_separators_clean | apply spaces_for_separators_keeps].
Qed.

Lemma lower_lower (c : ascii) : lower (lower c) = lower c.
Proof. destruct c as [[] [] [] [] [] [] [] []]; reflexivity. Qed.

Lemma lower_dot (c : ascii) : lower c = "."%char -> c = "."%char.
Proof. destruct c as [[] [] [] [] [] [] [] []]; cbn; intros H; try discriminate H; reflexivity. Qed.

Lemma lowercase_lowercase (s : string) : lowercase (lowercase s) = lowercase s.
Proof. induction s as [|c s IH]; [reflexivity|]. cbn. now rewrite lower_lower, IH. Qed.

Lemma lowercase_app (a b : string) : lowercase (a ++ b) = lowercase a ++ lowercase b.
Proof. induction a as [|c a IH]; [reflexivity|]. cbn. now rewrite IH. Qed.

Lemma lowercase_split (s p q : string) :
  lowercase s = p ++ q -> exists a b, s = a ++ b /\ lowercase a = p /\ lowercase b = q.
Proof.
  revert s. induction p as [|c p IH]; intros s H.
  - exists "", s. now repeat split.
  - destruct s as [|d s]; [discriminate|]. cbn in H. injection H as Hc Hs.
    destruct (IH s Hs) as (a & b & -> & Ha & Hb).
    exists (String d a), b. cbn. now rewrite Hc, Ha.
Qed.

Lemma ends_with_suffix (s suffix : string) :
  ends_with s suffix = true <-> exists prefix, s = prefix ++ suffix.
Proof.
  induction s as [|c s IH]; cbn [ends_with].
  - rewrite orb_false_r. split.
    + intros H. apply String.eqb_eq in H. exists "". now rewrite <- H.
    + intros ([|d p] & H); [|discriminate]. cbn in H. rewrite <- H. reflexivity.
  - split.
    + intros H. apply orb_prop in H. destruct H as [H|H].
      * apply String.eqb_eq in H. exists "". now rewrite <- H.
      * apply IH in H. destruct H as (p & ->). now exists (String c p).
    + intros ([|d p] & H).
      * cbn in H. rewrite <- H, String.eqb_refl. reflexivity.
      * cbn in H. injection H as -> ->. apply orb_true_iff. right.
        apply IH. now exists p.
Qed.

(** X16. [isVideoFile] goes by the extension and not by its case: the answer
    for a name is the answer for the name in lower case, and it is yes
    exactly for the names that end in a dot and one of [mp4], [webm], [mov],
    [avi] and [mkv] in any mix of cases. *)
Theorem video_file_by_extension :
  (forall name, isVideoFile (lowercase name) = isVideoFile name)
  /\ (forall name,
        isVideoFile name = true
        <-> exists base ext,
              name = base ++ "." ++ ext
              /\ In (lowercase ext) ["mp4"; "webm"; "mov"; "avi"; "mkv"]).
Proof.
  split.
  - intros name. unfold isVideoFile. now rewrite lowercase_lowercase.
  - intros name. unfold isVideoFile. rewrite existsb_exists. split.
    + intros (suffix & Hin & Hends). apply ends_with_suffix in Hends.
      destruct Hends as (prefix & Hname).
      destruct (lowercase_split _ _ _ Hname) as (base & tail & -> & _ & Htail).
      assert (Hdot : exists ext, suffix = "." ++ ext
                /\ In ext ["mp4"; "webm"; "mov"; "avi"; "mkv"]).
      { cbn in Hin. destruct Hin as [<-|[<-|[<-|[<-|[<-|[]]]]]];
          eexists; (split; [reflexivity|]); cbn; tauto. }
      destruct Hdot as (ext' & -> & Hext).
      destruct tail as [|c ext]; [discriminate|]. cbn in Htail. injection Htail as Hc Htail.
      apply lower_dot in Hc. subst c. exists base, ext. split; [reflexivity|].
      now rewrite Htail.
    + intros (base & ext & -> & Hin). exists ("." ++ lowercase ext). split.
      * cbn in Hin. destruct Hin as [<-|[<-|[<-|[<-|[<-|[]]]]]]; cbn; tauto.
      * apply ends_with_suffix. exists (lowercase base).
        now rewrite !lowercase_app.
Qed.
End Names.

(** ** The decoder and the other messages *)

Section Untouched.
Import JS Flow Flow.Notations Chat ChatMore.
Context {rt : JsRuntime}.

(** X17. The read loop edits nothing but the messages with the id of the
    assistant message. Whatever the chunks are and however the body ends,
    the list keeps its length, a message with another id is as it was, and
    [isLoading] and the toasts are as they were. After [handleNewChat] has
    emptied the list, the rest of a running stream shows nothing. *)
Theorem stream_edits_only_assistant_message (assistantMessageId : string)
    (chunks : list string) (ending : Ending) (r : Run) :
  no_LF (buffer r) = true ->
  let r' := exec (read_loop assistantMessageId chunks ending) r in
  List.length (messages (ui r')) = List.length (messages (ui r))
  /\ (forall i msg, nth_error (messages (ui r)) i = Some msg ->
                   Msg.id msg <> assistantMessageId ->
                   nth_error (messages (ui r')) i = Some msg)
  /\ isLoading (ui r') = isLoading (ui r)
  /\ toasts (ui r') = toasts (ui r)
  /\ (forall st, ui r = handleNewChat st ->
                 messages (ui r') = []
                 /\ conversationTitle (ui r') = "New Conversation").
Proof.
  intros Hb r'. subst r'. unfold exec. rewrite (read_loop_spec _ _ _ _ Hb). cbn [snd].
  destruct (handle_lines_frame assistantMessageId
              (complete_lines (buffer r ++ text chunks)) r) as (f & added & _ & Hui & _).
  unfold with_buffer. cbn [ui]. rewrite Hui. cbn [messages isLoading toasts].
  split; [unfold update_assistant; apply length_map|].
  split; [|split; [reflexivity|split; [reflexivity|]]].
  - intros i msg Hi Hid. rewrite nth_error_update_assistant, Hi. cbn [option_map].
    apply String.eqb_neq in Hid. now rewrite Hid.
  - intros st Hst. rewrite Hst. cbn. now split.
Qed.
End Untouched.

(** ** Selecting one file, and the rows of the batch *)

Section Rows.
Import JS Upload Batch.

Lemma substring_length (n : nat) (s : string) :
  String.length (substring 0 n s) = Nat.min n (String.length s).
Proof.
  revert s. induction n as [|n IH]; intros s.
  - now destruct s.
  - destruct s as [|c s]; [reflexivity|]. cbn. now rewrite IH.
Qed.

Lemma substring_whole (s : string) : substring 0 (String.length s) s = s.
Proof. induction s as [|c s IH]; [reflexivity|]. cbn. now rewrite IH. Qed.

Lemma substring_split (n : nat) (s : string) :
  (n <= String.length s)%nat ->
  s = substring 0 n s ++ substring n (String.length s - n) s.
Proof.
  revert s. induction n as [|n IH]; intros s Hs.
  - rewrite Nat.sub_0_r, substring_whole. now destruct s.
  - destruct s as [|c s]; [cbn in Hs; lia|]. cbn in Hs.
    cbn [substring append String.length Nat.sub]. f_equal. apply IH. lia.
Qed.

Lemma append_length (a b : string) :
  String.length (a ++ b) = (String.length a + String.length b)%nat.
Proof. induction a as [|c a IH]; [reflexivity|]. cbn. now rewrite IH. Qed.

(** X18. The file name a row of the batch shows is never longer than 25: a
    name of at most 25 is shown whole, a longer one as its first 22 and three
    dots. *)
Theorem shown_filename_fits (item : BatchFileMetadata) :
  (String.length (shown_filename item) <= 25)%nat
  /\ ((String.length (filename item) <= 25)%nat -> shown_filename item = filename item)
  /\ ((25 < String.length (filename item))%nat ->
      String.length (shown_filename item) = 25%nat
      /\ exists rest, filename item = substring 0 22 (filename item) ++ rest
                      /\ shown_filename item = substring 0 22 (filename item) ++ "...").
Proof.
  unfold shown_filename.
  destruct (25 <? String.length (filename item))%nat eqn:E.
  - apply Nat.ltb_lt in E.
    assert (Hlen : String.length (substring 0 22 (filename item) ++ "...") = 25%nat).
    { rewrite append_length, substring_length. cbn [String.length]. lia. }
    split; [lia|]. split; [lia|]. intros _. split; [exact Hlen|].
    exists (substring 22 (String.length (filename item) - 22) (filename item)).
    split; [|reflexivity].
    apply substring_split. lia.
  - apply Nat.ltb_ge in E. split; [exact E|]. split; [reflexivity | lia].
Qed.
End Rows.

Section OneFile.
Import JS Upload.
Context {rt : JsRuntime} {fa : FloatArith}.

(** X19. Selecting one file within the limit and the form. The file becomes
    the selected one and nothing happens outside the state. With the display
    name of the form empty, the name and the type are derived from the file
    name and the other fields stay; with a display name in the form, the
    form stays as it is, the type with it, video or not. Without a file the
    handler does nothing. *)
Theorem file_select_keeps_typed_name (file : File) (others : list File)
    (st : AdminState) :
  (size file <= MAX_FILE_SIZE)%Z ->
  let st' := handleFileSelect (Some (file :: others)) st in
  selectedFile st' = Some file
  /\ effects st' = effects st
  /\ batchFiles st' = batchFiles st
  /\ (displayName (metadata st) = "" ->
      displayName (metadata st') = spaces_for_separators (strip_extension (name file))
      /\ documentType (metadata st') = (if isVideoFile (name file) then "video" else "article")
      /\ documentSource (metadata st') = documentSource (metadata st)
      /\ humanCapabilityDomain (metadata st') = humanCapabilityDomain (metadata st)
      /\ author (metadata st') = author (metadata st)
      /\ publicationDate (metadata st') = publicationDate (metadata st)
      /\ description (metadata st') = description (metadata st)
      /\ allowDownload (metadata st') = allowDownload (metadata st)
      /\ showInViewer (metadata st') = showInViewer (metadata st))
  /\ (displayName (metadata st) <> "" -> metadata st' = metadata st)
  /\ handleFileSelect None st = st /\ handleFileSelect (Some []) st = st.
Proof.
  intros Hsize st'. subst st'. unfold handleFileSelect.
  assert (Hgt : (size file >? MAX_FILE_SIZE)%Z = false).
  { rewrite Z.gtb_ltb. apply Z.ltb_ge. exact Hsize. }
  rewrite Hgt. cbn [ToBoolean].
  destruct (String.eqb (displayName (metadata st)) "") eqn:E; cbn [negb].
  - apply String.eqb_eq in E. cbn. repeat split; try reflexivity; congruence.
  - apply String.eqb_neq in E. cbn. repeat split; try reflexivity; congruence.
Qed.
End OneFile.

(** ** The further properties on the samples *)

Section FurtherSamples.
Import JS Flow Flow.Notations Chat ChatMore Upload Batch.

Notation reference := Json.reference_runtime.
Notation exact := Upload.exact_arith.

(** The sample stream sent into an empty chat. *)
Lemma send_keeps_history_witness :
  List.length (messages (handleSendMessage (rt := reference) "hi"
                           (Sample.responds Sample.by_line Closed) Sample.no_messages))
  = 2%nat.
Proof.
  apply (proj1 (proj2 (send_keeps_history (rt := reference) "hi"
                         (Sample.responds Sample.by_line Closed) Sample.no_messages
                         eq_refl eq_refl))).
Defined.

(** A read that fails after the first fragment. *)
Lemma failed_request_shows_fallback_witness :
  toasts (handleSendMessage (rt := reference) "hi"
            (Sample.responds [Sample.content_Hel ++ nl] Failed) Sample.no_messages)
  = [error_toast].
Proof.
  refine (proj1 (proj2 (proj1 (failed_request_shows_fallback (rt := reference) "hi"
                                 (Sample.responds [Sample.content_Hel ++ nl] Failed)
                                 Sample.no_messages eq_refl eq_refl) _))).
  right. right. now eexists.
Defined.

(** A message of two spaces. *)
Lemma blank_or_busy_send_ignored_witness :
  handleSendMessage (rt := reference) "  " (Sample.responds Sample.by_line Closed)
    Sample.no_messages = Sample.no_messages.
Proof.
  apply (blank_or_busy_send_ignored (rt := reference) "  "
           (Sample.responds Sample.by_line Closed) Sample.no_messages).
  left. reflexivity.
Defined.

Lemma streamed_text_only_grows_witness :
  exists added,
    accumulatedContent (exec (read_loop (rt := reference) "msg-1001-assistant"
                                Sample.ragged Closed) Sample.started)
    = accumulatedContent Sample.started ++ added.
Proof.
  apply (streamed_text_only_grows (rt := reference) "msg-1001-assistant" Sample.ragged
           Closed Sample.started).
  reflexivity.
Defined.

(** Two selections, one with a file over the limit, a change and a removal
    past the end. *)
Lemma edits_keep_size_limit_witness :
  Forall within_limit
    (batchFiles (fold_left edit
                   [Select (Some [Sample.report; Sample.archive]);
                    Change 0 K_displayName "Report"; Remove 5;
                    Select (Some [Sample.lecture])]
                   Sample.console)).
Proof.
  apply (proj1 (edits_keep_size_limit
                  [Select (Some [Sample.report; Sample.archive]);
                   Change 0 K_displayName "Report"; Remove 5;
                   Select (Some [Sample.lecture])]
                  Sample.console (Forall_nil _))).
Defined.

(** The sample upload with the response that queues its file. *)
Lemma successful_upload_ends_clean_witness :
  effects (run (rt := reference) (fa := exact)
             (Completes Sample.queued_response :: repeat TimerFires 2)
             (handleBatchUpload Sample.ready))
  = (effects (handleBatchUpload Sample.ready)
     ++ [Alert (complete_text 1); FetchDocuments])%list.
Proof.
  refine (proj2 (proj2 (proj2 (proj2 (proj2 (proj2 (proj2
    (successful_upload_ends_clean (rt := reference) (fa := exact) 200 "OK"
       (Json.quoted "{'results':[{'filename':'annual_report-2024.pdf','status':'queued'}]}")
       (JObj [("results",
               JArr [JObj [("filename", JStr "annual_report-2024.pdf");
                           ("status", JStr "queued")]])])
       [JObj [("filename", JStr "annual_report-2024.pdf"); ("status", JStr "queued")]]
       0 (handleBatchUpload Sample.ready) eq_refl _ eq_refl eq_refl _)))))))).
  - lia.
  - repeat constructor. discriminate.
Defined.

(** The sample upload ended by a network error. *)
Lemma failed_upload_keeps_batch_witness :
  batchFiles (run (rt := reference) (fa := exact)
                (Completes NetworkError :: repeat TimerFires 3)
                (handleBatchUpload Sample.ready))
  = batchFiles (handleBatchUpload Sample.ready).
Proof.
  refine (proj1 (failed_upload_keeps_batch (rt := reference) (fa := exact) NetworkError 3
                   (handleBatchUpload Sample.ready) eq_refl _)).
  intros (status & statusText & responseText & result & H & _). discriminate H.
Defined.

(** The sample upload with the response [{}]. *)
Lemma complete_without_results_hangs_witness :
  isBatchUploading (run (rt := reference) (fa := exact)
                      (Completes Sample.bare_response :: repeat TimerFires 4)
                      (handleBatchUpload Sample.ready))
  = isBatchUploading (handleBatchUpload Sample.ready).
Proof.
  refine (proj1 (proj2 (complete_without_results_hangs (rt := reference) (fa := exact)
                          Sample.bare_response 3 (handleBatchUpload Sample.ready)
                          eq_refl _))).
  exists 200%Z, "OK", "{}", (JObj []). split; [reflexivity|].
  split; [lia|]. split; reflexivity.
Defined.

Lemma upload_percent_scale_witness :
  uploadPercent (fa := exact) Sample.whole = 90%Z.
Proof.
  apply (proj1 (proj2 (upload_percent_scale (fa := exact) 1048576 ltac:(lia)))).
Defined.

Lemma stream_edits_only_assistant_message_witness :
  toasts (ui (exec (read_loop (rt := reference) "msg-1001-assistant" Sample.ragged Closed)
                   Sample.started))
  = toasts (ui Sample.started).
Proof.
  apply (proj1 (proj2 (proj2 (proj2
           (stream_edits_only_assistant_message (rt := reference) "msg-1001-assistant"
              Sample.ragged Closed Sample.started eq_refl))))).
Defined.

(** The sample report selected into the blank form. *)
Lemma file_select_keeps_typed_name_witness :
  selectedFile (handleFileSelect (rt := reference) (fa := exact)
                  (Some [Sample.report]) Sample.console)
  = Some Sample.report.
Proof.
  apply (proj1 (file_select_keeps_typed_name (rt := reference) (fa := exact)
                  Sample.report [] Sample.console ltac:(vm_compute; discriminate))).
Defined.
End FurtherSamples.

(** ** The chat input and the chat *)

Section Input.
Import JS Flow Chat ChatMore Composer.
Context {rt : JsRuntime}.

(** X20. The input is cleared only for a message that the chat takes. The
    send button, [handleSend] and [handleSendMessage] go by the same test:
    with the button disabled [handleSend] changes nothing; with it enabled
    the input is emptied, the chat is what [handleSendMessage] makes of the
    text, and the text is there as the message of the user, right after the
    earlier messages, whatever its length. [Enter] does what the button
    does; with [Shift], or for another key, nothing changes. *)
Theorem input_cleared_only_when_sent (env : Env) (c : Composer) :
  let c' := handleSend env c in
  (send_disabled c = true -> c' = c)
  /\ (send_disabled c = false ->
      message c' = ""
      /\ chat c' = handleSendMessage (message c) env (chat c)
      /\ nth_error (messages (chat c')) (List.length (messages (chat c)))
         = Some (user_message (message c) env))
  /\ handleKeyPress "Enter" false env c = c'
  /\ (forall key, handleKeyPress key true env c = c)
  /\ (forall key, key <> "Enter" -> handleKeyPress key false env c = c).
Proof.
  intros c'. subst c'.
  assert (Hkeys : handleKeyPress "Enter" false env c = handleSend env c
                  /\ (forall key, handleKeyPress key true env c = c)
                  /\ (forall key, key <> "Enter" -> handleKeyPress key false env c = c)).
  { split; [reflexivity|]. split.
    - intros key. unfold handleKeyPress. now rewrite andb_false_r.
    - intros key Hkey. unfold handleKeyPress. apply String.eqb_neq in Hkey.
      now rewrite Hkey. }
  split; [|split; [|exact Hkeys]]; clear Hkeys; unfold handleSend, send_disabled;
    destruct (ToBoolean (JStr (trim (message c)))) eqn:Hmsg;
    destruct (isLoading (chat c)) eqn:Hload; cbn [negb andb orb];
    intros H; try discriminate H; try reflexivity.
  split; [reflexivity|]. split; [reflexivity|]. cbn [chat].
  now apply accepted_send_user_message.
Qed.
End Input.

(** ** Opening a source: the URL, the requests and the viewer *)

Section Opening.
Import JS Upload Viewer.

Lemma append_not_empty (a b : string) (c : ascii) : a ++ String c b <> "".
Proof. destruct a; discriminate. Qed.

Lemma fallback_truthy (API_BASE_URL : string) (source : Source) :
  ToBoolean (JStr (API_BASE_URL ++ fallback_path source)) = true.
Proof.
  cbn [ToBoolean]. apply negb_true_iff, String.eqb_neq.
  unfold fallback_path. cbn [append]. apply append_not_empty.
Qed.

Lemma listed_url_truthy (name : string) (docsData url : JsValue) :
  listed_url name docsData = Some url -> ToBoolean url = true.
Proof.
  unfold listed_url. destruct (Get docsData "documents") as [[| | | | |documents|]|];
    try discriminate.
  destruct (find_document name documents) as [doc|]; [|discriminate].
  destruct (ToBoolean doc); [|discriminate].
  destruct (Get doc "fileUrl") as [u|]; [|discriminate].
  destruct (ToBoolean u) eqn:Hu; [|discriminate]. intros H. now injection H as <-.
Qed.

(** X21. Where the URL of an opened source comes from, and what is asked for
    it, for a file name of code units below 256, which
    [encodeURIComponent] takes without an exception. A source with a URL of
    its own is opened with it and no request is
    made. Otherwise the download endpoint is asked, and a URL it gives is
    taken. Only when it gives none is the list of documents asked, and the
    URL of the first document with the file name of the source is taken if it
    has one; failing that the URL is the document path with the encoded
    file name. The URL of the opened document is never missing or empty, and
    at most two requests are made, in this order. *)
Theorem source_url_resolution (API_BASE_URL : string) (source : Source)
    (download documents : Reply) (st : ViewerState) :
  let st' := handleSourceClick API_BASE_URL source download documents st in
  exists url,
    selectedDocument st' = Some (with_fileUrl source url)
    /\ ToBoolean url = true
    /\ ((ToBoolean (fileUrl source) = true
         /\ url = fileUrl source /\ requests st' = requests st)
        \/ (ToBoolean (fileUrl source) = false
            /\ download_gives download url
            /\ requests st' = (requests st ++ [download_path source])%list)
        \/ (ToBoolean (fileUrl source) = false
            /\ (forall u, ~ download_gives download u)
            /\ requests st' = (requests st ++ [download_path source; documents_path])%list
            /\ (list_gives (filename source) documents url
                \/ ((forall u, ~ list_gives (filename source) documents u)
                    /\ url = JStr (API_BASE_URL ++ fallback_path source))))).
Proof.
  intros st'. subst st'. unfold handleSourceClick.
  destruct (ToBoolean (fileUrl source)) eqn:Hown; cbn [negb].
  { do 3 (try rewrite Hown; cbn [negb]). exists (fileUrl source).
    split; [reflexivity|]. split; [exact Hown|]. left. now repeat split. }
  (* what the download endpoint leaves *)
  assert (Hdown :
    (exists url, download_gives download url
                 /\ match download with
                    | Answers true (Some urlData) =>
                        match Get urlData "url" with
                        | Some u => (u, fetch (download_path source) st)
                        | None => (fileUrl source, fetch (download_path source) st)
                        end
                    | _ => (fileUrl source, fetch (download_path source) st)
                    end = (url, fetch (download_path source) st))
    \/ ((forall u, ~ download_gives download u)
        /\ exists left, ToBoolean left = false
           /\ match download with
              | Answers true (Some urlData) =>
                  match Get urlData "url" with
                  | Some u => (u, fetch (download_path source) st)
                  | None => (fileUrl source, fetch (download_path source) st)
                  end
              | _ => (fileUrl source, fetch (download_path source) st)
              end = (left, fetch (download_path source) st))).
  { destruct download as [|[|] [urlData|]].
    1, 3, 4, 5: right; split;
      [intros u (d & Heq & _); discriminate Heq | exists (fileUrl source); now split].
    destruct (Get urlData "url") as [u|] eqn:Hget.
    - destruct (ToBoolean u) eqn:Hu.
      + left. exists u. split; [|reflexivity]. exists urlData. now repeat split.
      + right. split; [|exists u; now split].
        intros v (d & Heq & Hd & Hv). injection Heq as <-. congruence.
    - right. split; [|exists (fileUrl source); now split].
      intros v (d & Heq & Hd & Hv). injection Heq as <-. congruence. }
  destruct Hdown as [(url & Hgives & ->)|(Hnone & left & Hleft & ->)].
  { assert (Hurl : ToBoolean url = true) by (destruct Hgives as (d & _ & _ & H); exact H).
    rewrite Hurl. cbn [negb]. rewrite Hurl. cbn [negb]. exists url.
    split; [reflexivity|]. split; [exact Hurl|]. right. left. now repeat split. }
  rewrite Hleft. cbn [negb].
  assert (Hlist :
    (exists url, list_gives (filename source) documents url
                 /\ match documents with
                    | Answers _ (Some docsData) =>
                        match listed_url (filename source) docsData with
                        | Some u => (u, fetch documents_path (fetch (download_path source) st))
                        | None => (left, fetch documents_path (fetch (download_path source) st))
                        end
                    | _ => (left, fetch documents_path (fetch (download_path source) st))
                    end = (url, fetch documents_path (fetch (download_path source) st)))
    \/ ((forall u, ~ list_gives (filename source) documents u)
        /\ match documents with
           | Answers _ (Some docsData) =>
               match listed_url (filename source) docsData with
               | Some u => (u, fetch documents_path (fetch (download_path source) st))
               | None => (left, fetch documents_path (fetch (download_path source) st))
               end
           | _ => (left, fetch documents_path (fetch (download_path source) st))
           end = (left, fetch documents_path (fetch (download_path source) st)))).
  { destruct documents as [|ok [docsData|]].
    1, 3: right; split; [intros u (o & d & Heq & _); discriminate Heq | reflexivity].
    destruct (listed_url (filename source) docsData) as [u|] eqn:Hl.
    - left. exists u. split; [|reflexivity]. exists ok, docsData. now split.
    - right. split; [|reflexivity].
      intros v (o & d & Heq & Hd). injection Heq as <- <-. congruence. }
  destruct Hlist as [(url & Hgives & ->)|(Hnolist & ->)].
  - assert (Hurl : ToBoolean url = true).
    { destruct Hgives as (o & d & _ & H). eapply listed_url_truthy. exact H. }
    rewrite Hurl. cbn [negb]. exists url.
    split; [reflexivity|]. split; [exact Hurl|]. right. right.
    split; [reflexivity|]. split; [exact Hnone|]. split; [|now left].
    cbn. now rewrite <- app_assoc.
  - rewrite Hleft. cbn [negb]. exists (JStr (API_BASE_URL ++ fallback_path source)).
    split; [reflexivity|]. split; [apply fallback_truthy|]. right. right.
    split; [reflexivity|]. split; [exact Hnone|]. split; [|right; now split].
    cbn. now rewrite <- app_assoc.
Qed.

Lemma handleSourceClick_selected (API_BASE_URL : string) (source : Source)
    (download documents : Reply) (st : ViewerState) :
  exists url asked,
    handleSourceClick API_BASE_URL source download documents st =
    mkViewer (Some (with_fileUrl source url))
             (notices st ++ [Opening ("Opening " ++ title source ++ "...")
                                     (if isVideo source then Camera else Page) 1000])%list
             asked.
Proof.
  unfold handleSourceClick.
  destruct (ToBoolean (fileUrl source)) eqn:Hown; cbn [negb].
  - rewrite Hown. cbn [negb]. now eexists _, _.
  - destruct (match download with
              | Answers true (Some urlData) => _
              | _ => _
              end) as [u1 st1] eqn:H1.
    assert (Hst1 : notices st1 = notices st).
    { destruct download as [|[|] [urlData|]]; try (now injection H1 as _ <-).
      destruct (Get urlData "url"); now injection H1 as _ <-. }
    destruct (negb (ToBoolean u1)).
    + destruct (match documents with
                | Answers _ (Some docsData) => _
                | _ => _
                end) as [u2 st2] eqn:H2.
      assert (Hst2 : notices st2 = notices st).
      { rewrite <- Hst1.
        destruct documents as [|ok [docsData|]]; try (now injection H2 as _ <-).
        destruct (listed_url (filename source) docsData); now injection H2 as _ <-. }
      unfold toast, setSelectedDocument. cbn. rewrite Hst2. now eexists _, _.
    + unfold toast, setSelectedDocument. cbn. rewrite Hst1. now eexists _, _.
Qed.

(** X22. A click on a source always opens it, for a file name of code units
    below 256. Whatever the two requests are answered, the handler selects the source with its title, file name,
    content type and start time as they are, and shows one toast, the
    opening one and never the error one. The icon of the toast and the viewer
    that is rendered go by the same test: the camera with the video viewer,
    the page with the document viewer. Closing leaves no viewer. *)
Theorem source_click_opens (API_BASE_URL : string) (source : Source)
    (download documents : Reply) (st : ViewerState) :
  let st' := handleSourceClick API_BASE_URL source download documents st in
  (exists opened,
     selectedDocument st' = Some opened
     /\ title opened = title source /\ filename opened = filename source
     /\ content_type opened = content_type source
     /\ start_time opened = start_time source)
  /\ (exists icon,
        notices st' = (notices st ++ [Opening ("Opening " ++ title source ++ "...")
                                              icon 1000])%list
        /\ (icon = Camera <-> viewer st' = Some VideoViewer)
        /\ (icon = Page <-> viewer st' = Some DocumentViewer))
  /\ viewer (handleCloseDocument st') = None.
Proof.
  intros st'. subst st'.
  destruct (handleSourceClick_selected API_BASE_URL source download documents st)
    as (url & asked & ->).
  split; [|split; [|reflexivity]].
  - exists (with_fileUrl source url). now repeat split.
  - exists (if isVideo source then Camera else Page). split; [reflexivity|].
    unfold viewer. cbn [selectedDocument].
    replace (isVideo (with_fileUrl source url)) with (isVideo source) by reflexivity.
    destruct (isVideo source); split; split; intros H; try reflexivity; discriminate H.
Qed.

Lemma escape_safe (c : ascii) :
  all_chars (fun d => unreserved d || Ascii.eqb d "%") (escape c) = true.
Proof. destruct c as [[] [] [] [] [] [] [] []]; reflexivity. Qed.

Lemma escape_unreserved (c : ascii) : unreserved c = true -> escape c = String c "".
Proof. intros H. unfold escape. now rewrite H. Qed.

(** X23. [encodeURIComponent] keeps a file name inside its place in the
    path: the encoded name holds only letters, digits, [-_.!~*'()] and [%],
    so none of [/], [?], [#], [&], [=] and the space; a name of letters,
    digits and [-_.!~*'()] is not changed; and encoding goes piece by
    piece. *)
Theorem encoded_name_stays_in_segment :
  (forall s, all_chars (fun d => unreserved d || Ascii.eqb d "%") (encodeURIComponent s) = true)
  /\ (forall c, is_char c "/?#&= " = true -> unreserved c || Ascii.eqb c "%" = false)
  /\ (forall s, all_chars unreserved s = true -> encodeURIComponent s = s)
  /\ (forall a b, encodeURIComponent (a ++ b) = encodeURIComponent a ++ encodeURIComponent b).
Proof.
  split; [|split; [|split]].
  - induction s as [|c s IH]; [reflexivity|]. cbn [encodeURIComponent].
    rewrite append_all_chars, IH, escape_safe. reflexivity.
  - intros c H. unfold is_char in H. cbn [list_ascii_of_string existsb] in H.
    repeat (apply orb_prop in H; destruct H as [H|H];
            [apply Ascii.eqb_eq in H; subst c; reflexivity|]).
    discriminate H.
  - induction s as [|c s IH]; [reflexivity|]. cbn [all_chars encodeURIComponent].
    intros H. apply andb_prop in H. destruct H as [Hc Hs].
    rewrite (escape_unreserved c Hc), (IH Hs). reflexivity.
  - intros a b. induction a as [|c a IH]; [reflexivity|].
    cbn [append encodeURIComponent]. rewrite IH. symmetry. apply append_assoc.
Qed.
End Opening.

(** ** The source cards: the concept chips and the summary *)

Section Trim.
Import JS Upload.

Lemma trimStart_fixed (s : string) :
  match s with "" => True | String c _ => is_space c = false end -> trimStart s = s.
Proof. destruct s as [|c s]; [reflexivity|]. cbn. now intros ->. Qed.

Lemma trimStart_start (s : string) :
  match trimStart s with "" => True | String c _ => is_space c = false end.
Proof.
  induction s as [|c s IH]; [exact I|]. cbn.
  destruct (is_space c) eqn:E; [exact IH | exact E].
Qed.

Lemma trimEnd_start (s : string) :
  match s with "" => True | String c _ => is_space c = false end ->
  match trimEnd s with "" => True | String c _ => is_space c = false end.
Proof. destruct s as [|c s]; [trivial|]. cbn. intros H. now rewrite H. Qed.

Lemma trimEnd_trimEnd (s : string) : trimEnd (trimEnd s) = trimEnd s.
Proof.
  induction s as [|c s IH]; [reflexivity|]. cbn.
  destruct (is_space c && String.eqb (trimEnd s) "") eqn:E; [reflexivity|].
  cbn. now rewrite IH, E.
Qed.

Lemma trim_trim (s : string) : trim (trim s) = trim s.
Proof.
  unfold trim.
  rewrite (trimStart_fixed (trimEnd (trimStart s)))
    by (apply trimEnd_start, trimStart_start).
  apply trimEnd_trimEnd.
Qed.

Lemma trimStart_all_chars (p : ascii -> bool) (s : string) :
  all_chars p s = true -> all_chars p (trimStart s) = true.
Proof.
  induction s as [|c s IH]; [trivial|]. cbn [all_chars trimStart]. intros H.
  apply andb_prop in H. destruct H as [Hc Hs].
  destruct (is_space c); [now apply IH | cbn; now rewrite Hc, Hs].
Qed.

Lemma trimEnd_all_chars (p : ascii -> bool) (s : string) :
  all_chars p s = true -> all_chars p (trimEnd s) = true.
Proof.
  induction s as [|c s IH]; [trivial|]. cbn [all_chars trimEnd]. intros H.
  apply andb_prop in H. destruct H as [Hc Hs].
  destruct (is_space c && String.eqb (trimEnd s) ""); [reflexivity|].
  cbn. now rewrite Hc, IH.
Qed.

Lemma trim_all_chars (p : ascii -> bool) (s : string) :
  all_chars p s = true -> all_chars p (trim s) = true.
Proof. intros H. unfold trim. now apply trimEnd_all_chars, trimStart_all_chars. Qed.

Lemma trimStart_suffix (s : string) : exists before, s = before ++ trimStart s.
Proof.
  induction s as [|c s (before & IH)]; [now exists ""|]. cbn.
  destruct (is_space c); [|now exists ""].
  exists (String c before). cbn. now rewrite <- IH.
Qed.

Lemma trimEnd_prefix (s : string) : exists after, s = trimEnd s ++ after.
Proof.
  induction s as [|c s (after & IH)]; [now exists ""|]. cbn.
  destruct (is_space c && String.eqb (trimEnd s) ""); [now exists (String c s)|].
  exists after. cbn. now rewrite <- IH.
Qed.

Lemma trim_inside (s : string) : exists before after, s = before ++ trim s ++ after.
Proof.
  destruct (trimStart_suffix s) as (before & Hb).
  destruct (trimEnd_prefix (trimStart s)) as (after & Ha).
  exists before, after. unfold trim. now rewrite <- Ha.
Qed.
End Trim.

Section Chips.
Import JS Upload Cards.

Lemma split_pieces (sep : ascii) (s : string) :
  Forall (fun piece => all_chars (fun c => negb (Ascii.eqb c sep)) piece = true)
         (split sep s).
Proof.
  induction s as [|c s IH]; [repeat constructor|]. cbn [split].
  destruct (Ascii.eqb c sep) eqn:E; [constructor; [reflexivity | exact IH]|].
  destruct (split sep s) as [|seg segs]; [repeat constructor; cbn; now rewrite E|].
  inversion IH as [|? ? Hseg Hsegs]; subst.
  constructor; [cbn; now rewrite E, Hseg | exact Hsegs].
Qed.

Lemma split_not_nil (sep : ascii) (s : string) : split sep s <> [].
Proof.
  destruct s as [|c s]; [discriminate|]. cbn [split].
  destruct (Ascii.eqb c sep); [discriminate|]. destruct (split sep s); discriminate.
Qed.

Lemma split_sep (sep : ascii) (s : string) : split sep (String sep s) = "" :: split sep s.
Proof. cbn [split]. now rewrite Ascii.eqb_refl. Qed.

(** Splitting at the commas is the inverse of joining with commas: the
    pieces of a text are the one list of texts without a comma that the
    text joins. *)
Lemma split_joined (pieces : list string) :
  pieces <> [] ->
  Forall (fun piece => all_chars (fun c => negb (Ascii.eqb c ",")) piece = true) pieces ->
  split "," (joined pieces) = pieces.
Proof.
  intros Hne Hall. induction Hall as [|piece rest Hpiece Hrest IH]; [contradiction|].
  clear Hne. destruct rest as [|next rest].
  - clear IH Hrest. cbn [joined]. induction piece as [|c piece IHp]; [reflexivity|].
    cbn [all_chars] in Hpiece. apply andb_prop in Hpiece. destruct Hpiece as [Hc Hp].
    apply negb_true_iff in Hc. cbn [split]. rewrite Hc. now rewrite (IHp Hp).
  - specialize (IH ltac:(discriminate)).
    change (joined (piece :: next :: rest))
      with (piece ++ String "," (joined (next :: rest))).
    induction piece as [|c piece IHp].
    + cbn [append]. rewrite split_sep. now rewrite IH.
    + cbn [all_chars] in Hpiece. apply andb_prop in Hpiece. destruct Hpiece as [Hc Hp].
      apply negb_true_iff in Hc. cbn [append split]. rewrite Hc. now rewrite (IHp Hp).
Qed.

Lemma joined_split (s : string) : joined (split "," s) = s.
Proof.
  induction s as [|c s IH]; [reflexivity|]. cbn [split].
  destruct (Ascii.eqb c ",") eqn:E.
  - apply Ascii.eqb_eq in E. subst c.
    pose proof (split_not_nil "," s) as Hne.
    destruct (split "," s) as [|seg segs]; [contradiction|].
    change (joined ("" :: seg :: segs)) with ("" ++ "," ++ joined (seg :: segs)).
    now rewrite IH.
  - pose proof (split_not_nil "," s) as Hne.
    destruct (split "," s) as [|seg segs]; [contradiction|].
    destruct segs as [|seg2 segs].
    + cbn [joined] in *. now rewrite IH.
    + change (joined (String c seg :: seg2 :: segs))
        with (String c (seg ++ "," ++ joined (seg2 :: segs))).
      change (joined (seg :: seg2 :: segs))
        with (seg ++ "," ++ joined (seg2 :: segs)) in IH.
      now rewrite IH.
Qed.

(** X24. The concept chips of a card are the first four of the trimmed
    pieces of the [concepts] string that are not empty, in their order, the
    pieces being the texts between its commas: a text is the join of its
    pieces, and for every list of texts without a comma, the chips of their
    join are the first four of them that are not empty once trimmed. So
    there are at most four; each chip is not empty, has no white space at
    either end and no comma. Without [concepts], or with the empty string,
    there is no chip. *)
Theorem concept_chips_trimmed (concepts : option string) :
  (List.length (conceptsList concepts) <= 4)%nat
  /\ Forall (fun chip => chip <> ""
                         /\ trim chip = chip
                         /\ all_chars (fun c => negb (Ascii.eqb c ",")) chip = true)
            (conceptsList concepts)
  /\ conceptsList None = [] /\ conceptsList (Some "") = []
  /\ (forall pieces,
        pieces <> [] ->
        Forall (fun piece => all_chars (fun c => negb (Ascii.eqb c ",")) piece = true)
               pieces ->
        conceptsList (Some (joined pieces)) =
        firstn 4 (filter (fun chip => negb (String.eqb chip "")) (map trim pieces)))
  /\ (forall s,
        exists pieces,
          s = joined pieces /\ pieces <> []
          /\ Forall (fun piece => all_chars (fun c => negb (Ascii.eqb c ",")) piece = true)
                    pieces).
Proof.
  split; [|split; [|split; [reflexivity|split; [reflexivity|split]]]].
  - unfold conceptsList. destruct concepts as [s|]; [|cbn; lia].
    destruct (ToBoolean (JStr s)); [|cbn; lia]. rewrite length_firstn. lia.
  - unfold conceptsList. destruct concepts as [s|]; [|constructor].
    destruct (ToBoolean (JStr s)); [|constructor].
    apply Forall_forall. intros chip Hin.
    assert (Hin' : In chip (filter (fun c => ToBoolean (JStr c)) (map trim (split "," s)))).
    { rewrite <- (firstn_skipn 4 (filter _ _)). apply in_or_app. now left. }
    apply filter_In in Hin'. destruct Hin' as [Hmap Hchip].
    apply in_map_iff in Hmap. destruct Hmap as (piece & <- & Hpiece).
    split; [|split].
    + cbn [ToBoolean] in Hchip. apply negb_true_iff in Hchip. now apply String.eqb_neq.
    + apply trim_trim.
    + apply trim_all_chars.
      pose proof (split_pieces "," s) as Hall. rewrite Forall_forall in Hall.
      now apply Hall.
  - intros pieces Hne Hall. unfold conceptsList.
    rewrite (split_joined pieces Hne Hall). cbn [ToBoolean].
    destruct (String.eqb (joined pieces) "") eqn:E; cbn [negb]; [|reflexivity].
    apply String.eqb_eq in E.
    assert (Hone : pieces = [""]).
    { rewrite <- (split_joined pieces Hne Hall), E. reflexivity. }
    rewrite Hone. reflexivity.
  - intros s. exists (split "," s). split; [symmetry; apply joined_split|].
    split; [apply split_not_nil | apply split_pieces].
Qed.
End Chips.

Section Matching.
Import JS Upload Cards.

Lemma suffix_refl (s : string) : suffix s s.
Proof. destruct s; now left. Qed.

Lemma suffix_trans (a b c : string) : suffix a b -> suffix b c -> suffix a c.
Proof.
  revert a b. induction c as [|x c IH]; intros a b Hab Hbc.
  - destruct Hbc as [->|[]]. exact Hab.
  - destruct Hbc as [->|Hbc]; [exact Hab|]. right. now apply (IH a b).
Qed.

Lemma suffix_app (t s : string) : suffix t s -> exists before, s = before ++ t.
Proof.
  induction s as [|x s IH]; intros [->|H].
  - now exists "".
  - destruct H.
  - now exists "".
  - destruct (IH H) as (before & ->). now exists (String x before).
Qed.

Lemma iterate_suffix (m : string -> (string -> option string) -> option string) :
  (forall s k x, m s k = Some x -> exists s', suffix s' s /\ k s' = Some x) ->
  forall fuel s k x, iterate m k fuel s = Some x -> exists s', suffix s' s /\ k s' = Some x.
Proof.
  intros Hm. induction fuel as [|fuel IH]; intros s k x H; cbn [iterate] in H.
  - exists s. split; [apply suffix_refl | exact H].
  - destruct (m s _) as [y|] eqn:E.
    + injection H as ->. apply Hm in E. destruct E as (s1 & Hs1 & E).
      destruct (String.length s1 <? String.length s)%nat; [|discriminate].
      apply IH in E. destruct E as (s' & Hs' & E).
      exists s'. split; [now apply (suffix_trans _ s1) | exact E].
    + exists s. split; [apply suffix_refl | exact H].
Qed.

Lemma exec_re_suffix (r : Regex) (s : string) (k : string -> option string) (x : string) :
  exec_re r s k = Some x -> exists s', suffix s' s /\ k s' = Some x.
Proof.
  revert s k x. induction r as [p| |r1 IH1 r2 IH2|r1 IH1 r2 IH2|r IH];
    intros s k x H; cbn [exec_re] in H.
  - destruct s as [|c rest]; [discriminate|]. destruct (p c); [|discriminate].
    exists rest. split; [right; apply suffix_refl | exact H].
  - exists s. split; [apply suffix_refl | exact H].
  - apply IH1 in H. destruct H as (s1 & Hs1 & H).
    apply IH2 in H. destruct H as (s2 & Hs2 & H).
    exists s2. split; [now apply (suffix_trans _ s1) | exact H].
  - destruct (exec_re r1 s k) as [y|] eqn:E.
    + injection H as ->. now apply IH1.
    + now apply IH2.
  - eapply iterate_suffix; [|exact H]. intros s0 k0 x0. apply IH.
Qed.

Lemma replace_suffix (pattern : Regex) (text : string) : suffix (replace pattern text) text.
Proof.
  unfold replace. destruct (exec_re pattern text Some) as [rest|] eqn:E.
  - apply exec_re_suffix in E. destruct E as (s' & Hs' & E). now injection E as <-.
  - apply suffix_refl.
Qed.

(** A literal that fails at its first character *)
Lemma lit_i_first_fail (a c : ascii) (p rest : string) (r : Regex)
    (k : string -> option string) :
  lower c <> lower a -> exec_re (Seq (lit_i (String a p)) r) (String c rest) k = None.
Proof.
  intros H. cbn [exec_re lit_i chr_i]. apply Ascii.eqb_neq in H. now rewrite H.
Qed.

Lemma plain_not_h (c : ascii) :
  is_char c "HhSs" = false -> lower c <> "h"%char /\ lower c <> "s"%char.
Proof.
  destruct c as [[] [] [] [] [] [] [] []]; cbn; intros H; try discriminate H;
    split; discriminate.
Qed.

Lemma replace_plain (pattern : Regex) (text : string) :
  In pattern patterns -> plain_start text = true -> replace pattern text = text.
Proof.
  intros Hin Hplain. unfold replace.
  destruct text as [|c rest].
  - cbn in Hin. destruct Hin as [<-|[<-|[<-|[<-|[]]]]]; reflexivity.
  - cbn [plain_start] in Hplain. apply negb_true_iff in Hplain.
    destruct (plain_not_h c Hplain) as [Hh Hs].
    cbn in Hin. destruct Hin as [<-|[<-|[<-|[<-|[]]]]];
      unfold numbered_summary, here_is_summary, heres_summary, summary_colon;
      rewrite lit_i_first_fail; first [reflexivity | exact Hh | exact Hs].
Qed.

Lemma patterns_plain (text : string) :
  plain_start text = true ->
  fold_left (fun cleaned pattern => replace pattern cleaned) patterns text = text.
Proof.
  intros H. unfold patterns. cbn [fold_left].
  rewrite (replace_plain numbered_summary text) by (cbn; tauto).
  rewrite (replace_plain here_is_summary text) by (cbn; tauto).
  rewrite (replace_plain heres_summary text) by (cbn; tauto).
  apply replace_plain; [cbn; tauto | exact H].
Qed.

Lemma patterns_suffix (text : string) :
  suffix (fold_left (fun cleaned pattern => replace pattern cleaned) patterns text) text.
Proof.
  unfold patterns. cbn [fold_left].
  repeat (eapply suffix_trans; [apply replace_suffix|]). apply suffix_refl.
Qed.

(** X25. [cleanSummary] only takes away. Its result is a piece of the text
    it is given, with no white space at either end; a text that starts with
    none of [H], [h], [S] and [s] is trimmed and nothing else; the empty text
    gives the empty text. *)
Theorem clean_summary_only_removes :
  (forall text, exists before after, text = before ++ cleanSummary text ++ after)
  /\ (forall text, trim (cleanSummary text) = cleanSummary text)
  /\ (forall text, plain_start text = true -> cleanSummary text = trim text)
  /\ cleanSummary "" = "".
Proof.
  split; [|split; [|split; [|reflexivity]]].
  - intros text. unfold cleanSummary.
    destruct (negb (ToBoolean (JStr text))); [now exists "", text|].
    generalize (patterns_suffix text).
    generalize (fold_left (fun cleaned pattern => replace pattern cleaned) patterns text).
    intros cleaned Hs.
    apply suffix_app in Hs. destruct Hs as (before & ->).
    destruct (trim_inside cleaned) as (b & a & Hc).
    exists (before ++ b), a. rewrite append_assoc. now rewrite <- Hc.
  - intros text. unfold cleanSummary.
    destruct (negb (ToBoolean (JStr text))); [reflexivity | apply trim_trim].
  - intros text H. unfold cleanSummary. rewrite (patterns_plain text H).
    destruct text; reflexivity.
Qed.
End Matching.

Section Preambles.
Import JS Upload Cards.

Lemma exec_seq (r1 r2 : Regex) (s : string) (k : string -> option string) :
  exec_re (Seq r1 r2) s k = exec_re r1 s (fun s1 => exec_re r2 s1 k).
Proof. reflexivity. Qed.

Lemma lit_i_match (p p' rest : string) (k : string -> option string) :
  lowercase p' = lowercase p -> exec_re (lit_i p) (p' ++ rest) k = k rest.
Proof.
  revert p'. induction p as [|a p IH]; intros p' H.
  - destruct p'; [reflexivity | discriminate].
  - destruct p' as [|c p']; [discriminate|]. cbn in H. injection H as Hc Hp.
    cbn [lit_i exec_re chr_i append]. rewrite Hc, Ascii.eqb_refl. now apply IH.
Qed.

Lemma lit_i_step_ok (a c : ascii) (p rest : string) (k : string -> option string) :
  lower c = lower a ->
  exec_re (lit_i (String a p)) (String c rest) k = exec_re (lit_i p) rest k.
Proof. intros H. cbn [lit_i exec_re chr_i]. now rewrite H, Ascii.eqb_refl. Qed.

Lemma lit_i_step_fail (a c : ascii) (p rest : string) (k : string -> option string) :
  lower c <> lower a -> exec_re (lit_i (String a p)) (String c rest) k = None.
Proof. intros H. cbn [lit_i exec_re chr_i]. apply Ascii.eqb_neq in H. now rewrite H. Qed.

Lemma chr_i_ok (a c : ascii) (rest : string) (k : string -> option string) :
  lower c = lower a -> exec_re (chr_i a) (String c rest) k = k rest.
Proof. intros H. cbn [exec_re chr_i]. now rewrite H, Ascii.eqb_refl. Qed.

Lemma chr_i_fail (a c : ascii) (rest : string) (k : string -> option string) :
  lower c <> lower a -> exec_re (chr_i a) (String c rest) k = None.
Proof. intros H. cbn [exec_re chr_i]. apply Ascii.eqb_neq in H. now rewrite H. Qed.

Lemma exec_chr (p : ascii -> bool) (c : ascii) (rest : string)
    (k : string -> option string) :
  exec_re (Chr p) (String c rest) k = if p c then k rest else None.
Proof. reflexivity. Qed.

(** The greedy iteration of a class takes the characters of the class and
    goes on where they end, when the rest of the pattern matches there. *)
Lemma star_class (p : ascii -> bool) (a b : string) (k : string -> option string)
    (x : string) (fuel : nat) :
  all_chars p a = true ->
  match b with "" => True | String c _ => p c = false end ->
  k b = Some x ->
  (String.length (a ++ b) <= fuel)%nat ->
  iterate (exec_re (Chr p)) k fuel (a ++ b) = Some x.
Proof.
  intros Ha Hb Hk. revert fuel. induction a as [|c a IH]; intros fuel Hfuel.
  - cbn [append]. destruct fuel as [|fuel]; [exact Hk|]. cbn [iterate].
    destruct b as [|c rest]; [exact Hk|]. now rewrite exec_chr, Hb.
  - cbn [all_chars] in Ha. apply andb_prop in Ha. destruct Ha as [Hc Ha].
    cbn [append String.length] in *. destruct fuel as [|fuel]; [lia|].
    cbn [iterate]. rewrite exec_chr, Hc.
    assert (Hlt : (String.length (a ++ b) <? String.length (String c (a ++ b)))%nat = true)
      by (apply Nat.ltb_lt; cbn [String.length]; lia).
    rewrite Hlt. rewrite (IH Ha fuel) by lia. reflexivity.
Qed.

Lemma star_class_exec (p : ascii -> bool) (a b : string) (k : string -> option string)
    (x : string) :
  all_chars p a = true ->
  match b with "" => True | String c _ => p c = false end ->
  k b = Some x ->
  exec_re (Star (Chr p)) (a ++ b) k = Some x.
Proof. intros Ha Hb Hk. cbn [exec_re]. now apply star_class. Qed.

Lemma plus_class_exec (p : ascii -> bool) (c : ascii) (a b : string)
    (k : string -> option string) (x : string) :
  all_chars p (String c a) = true ->
  match b with "" => True | String c _ => p c = false end ->
  k b = Some x ->
  exec_re (Plus (Chr p)) (String c a ++ b) k = Some x.
Proof.
  intros Ha Hb Hk. cbn [all_chars] in Ha. apply andb_prop in Ha. destruct Ha as [Hc Ha].
  unfold Plus. rewrite exec_seq. cbn [append]. rewrite exec_chr, Hc.
  now apply star_class_exec.
Qed.

Lemma plus_class_fail (p : ascii -> bool) (c : ascii) (rest : string)
    (k : string -> option string) :
  p c = false -> exec_re (Plus (Chr p)) (String c rest) k = None.
Proof. intros H. unfold Plus. now rewrite exec_seq, exec_chr, H. Qed.

Lemma lowercase_cons (s r : string) (c : ascii) :
  lowercase s = String c r -> exists d s', s = String d s' /\ lower d = c /\ lowercase s' = r.
Proof.
  destruct s as [|d s']; [discriminate|]. cbn. intros H. injection H as Hd Hs.
  now exists d, s'.
Qed.

Lemma lowercase_nil (s : string) : lowercase s = "" -> s = "".
Proof. destruct s; [reflexivity | discriminate]. Qed.

Lemma letter_no_digit (c : ascii) :
  is_char (lower c) "bcs " = true ->
  ((48 <=? nat_of_ascii c) && (nat_of_ascii c <=? 57))%nat = false.
Proof. destruct c as [[] [] [] [] [] [] [] []]; cbn; intros H; try discriminate H; reflexivity. Qed.

Lemma not_space_start (body : string) :
  trimStart body = body ->
  match body with "" => True | String c _ => is_space c = false end.
Proof. intros H. pose proof (trimStart_start body) as Hs. now rewrite H in Hs. Qed.

Section Tail.
Variables topic ws body : string.
Hypothesis Htopic : all_chars (fun c => negb (Ascii.eqb c ":")) topic = true.
Hypothesis Hws : all_chars is_space ws = true.
Hypothesis Hbody : trimStart body = body.

Lemma spaces_then_body : exec_re (Star space) (ws ++ body) Some = Some body.
Proof.
  apply star_class_exec; [exact Hws | now apply not_space_start | reflexivity].
Qed.

Lemma colon_tail :
  exec_re (Seq (Star not_colon) (Seq (chr_i ":") (Star space)))
          (topic ++ ":" ++ ws ++ body) Some = Some body.
Proof.
  rewrite exec_seq. apply star_class_exec; [exact Htopic | reflexivity|].
  cbn [append]. rewrite exec_seq, chr_i_ok by reflexivity. apply spaces_then_body.
Qed.

Lemma summary_tail (word : string) :
  lowercase word = "summary" ->
  exec_re (Seq (lit_i "summary") (Seq (Star not_colon) (Seq (chr_i ":") (Star space))))
          (word ++ topic ++ ":" ++ ws ++ body) Some = Some body.
Proof. intros H. rewrite exec_seq, lit_i_match by exact H. apply colon_tail. Qed.
End Tail.
Lemma exec_alt (r1 r2 : Regex) (s : string) (k : string -> option string) :
  exec_re (Alt r1 r2) s k =
  match exec_re r1 s k with Some x => Some x | None => exec_re r2 s k end.
Proof. reflexivity. Qed.

(** What the first character of a text is like, when there is one *)
Lemma starts_word (P : ascii -> Prop) (word rest r0 : string) (c0 : ascii) :
  lowercase word = String c0 r0 ->
  (forall c, lower c = c0 -> P c) ->
  match word ++ rest with "" => True | String c _ => P c end.
Proof.
  intros H HP. destruct word as [|w r]; [discriminate|]. cbn in H. injection H as Hw _.
  cbn [append]. now apply HP.
Qed.

Lemma lit_i_fail_start (a : ascii) (p s : string) (k : string -> option string) :
  match s with "" => True | String c _ => lower c <> lower a end ->
  exec_re (lit_i (String a p)) s k = None.
Proof.
  intros H. destruct s as [|c rest]; [reflexivity|]. now apply lit_i_step_fail.
Qed.

Lemma opt_take (a c : ascii) (rest : string) (k : string -> option string) (x : string) :
  lower c = lower a -> k rest = Some x ->
  exec_re (Opt (chr_i a)) (String c rest) k = Some x.
Proof. intros H Hk. unfold Opt. now rewrite exec_alt, chr_i_ok, Hk. Qed.

Lemma opt_skip (a : ascii) (s : string) (k : string -> option string) :
  match s with "" => True | String c _ => lower c <> lower a end ->
  exec_re (Opt (chr_i a)) s k = k s.
Proof.
  intros H. unfold Opt. rewrite exec_alt. destruct s as [|c rest]; [reflexivity|].
  now rewrite chr_i_fail.
Qed.

Lemma plus_class_fail_start (p : ascii -> bool) (s : string) (k : string -> option string) :
  match s with "" => True | String c _ => p c = false end ->
  exec_re (Plus (Chr p)) s k = None.
Proof.
  intros H. destruct s as [|c rest]; [reflexivity|]. now apply plus_class_fail.
Qed.

Ltac spell H :=
  repeat first
    [ apply lowercase_nil in H; subst
    | apply lowercase_cons in H;
      let d := fresh "d" in
      let s := fresh "s" in
      let Hd := fresh "Hd" in
      destruct H as (d & s & -> & Hd & H) ].

Ltac differ := let E := fresh in intros E; vm_compute in E; discriminate E.

(** [Here is a ] does not match a text that starts with [Here's a ]. *)
Lemma here_is_not_heres (opening rest : string) (k : string -> option string) :
  lowercase opening = "here's a " ->
  exec_re (lit_i "Here is a ") (opening ++ rest) k = None.
Proof.
  intros H. spell H. cbn [append].
  do 4 (rewrite lit_i_step_ok by assumption).
  apply lit_i_step_fail. rewrite Hd3. differ.
Qed.

Lemma comprehensive_not_concise (kind' rest : string) (k : string -> option string) :
  lowercase kind' = "concise " ->
  exec_re (lit_i "comprehensive ") (kind' ++ rest) k = None.
Proof.
  intros H. spell H. cbn [append].
  do 2 (rewrite lit_i_step_ok by assumption).
  apply lit_i_step_fail. rewrite Hd1. differ.
Qed.

(** The optional group of kinds before the word [summary] *)
Lemma kind_match (kind' word rest : string) (k : string -> option string) (x : string) :
  In (lowercase kind') [""; "comprehensive "; "brief "; "concise "] ->
  lowercase word = "summary" ->
  k (word ++ rest) = Some x ->
  exec_re kind (kind' ++ word ++ rest) k = Some x.
Proof.
  intros Hin Hword Hk. unfold kind, Opt. rewrite !exec_alt.
  destruct Hin as [H|[H|[H|[H|[]]]]]; symmetry in H.
  - apply lowercase_nil in H. subst kind'. cbn [append].
    rewrite (lit_i_fail_start "c" "omprehensive ")
      by (apply (starts_word _ _ _ _ _ Hword); intros c Hc; rewrite Hc; differ).
    rewrite (lit_i_fail_start "b")
      by (apply (starts_word _ _ _ _ _ Hword); intros c Hc; rewrite Hc; differ).
    rewrite (lit_i_fail_start "c")
      by (apply (starts_word _ _ _ _ _ Hword); intros c Hc; rewrite Hc; differ).
    exact Hk.
  - rewrite (lit_i_match "comprehensive " kind') by exact H. now rewrite Hk.
  - rewrite (lit_i_fail_start "c" "omprehensive ")
      by (apply (starts_word _ _ _ _ _ H); intros c Hc; rewrite Hc; differ).
    rewrite (lit_i_match "brief " kind') by exact H. now rewrite Hk.
  - rewrite comprehensive_not_concise by exact H.
    rewrite (lit_i_fail_start "b")
      by (apply (starts_word _ _ _ _ _ H); intros c Hc; rewrite Hc; differ).
    rewrite (lit_i_match "concise " kind') by exact H. now rewrite Hk.
Qed.

(** The text after the opening starts with a letter, not with a digit. *)
Lemma kind_no_digit (kind' word rest : string) :
  In (lowercase kind') [""; "comprehensive "; "brief "; "concise "] ->
  lowercase word = "summary" ->
  match kind' ++ word ++ rest with
  | "" => True
  | String c _ => ((48 <=? nat_of_ascii c) && (nat_of_ascii c <=? 57))%nat = false
  end.
Proof.
  intros Hin Hword. destruct Hin as [H|[H|[H|[H|[]]]]]; symmetry in H.
  - apply lowercase_nil in H. subst kind'. cbn [append].
    apply (starts_word _ _ _ _ _ Hword). intros c Hc. apply letter_no_digit. now rewrite Hc.
  - apply (starts_word _ _ _ _ _ H). intros c Hc. apply letter_no_digit. now rewrite Hc.
  - apply (starts_word _ _ _ _ _ H). intros c Hc. apply letter_no_digit. now rewrite Hc.
  - apply (starts_word _ _ _ _ _ H). intros c Hc. apply letter_no_digit. now rewrite Hc.
Qed.

Lemma cleanSummary_steps (text : string) :
  text <> "" ->
  cleanSummary text =
  trim (replace summary_colon
          (replace heres_summary (replace here_is_summary (replace numbered_summary text)))).
Proof. intros H. unfold cleanSummary. destruct text; [contradiction | reflexivity]. Qed.

Lemma replace_none (pattern : Regex) (text : string) :
  exec_re pattern text Some = None -> replace pattern text = text.
Proof. intros H. unfold replace. now rewrite H. Qed.

Lemma replace_some (pattern : Regex) (text rest : string) :
  exec_re pattern text Some = Some rest -> replace pattern text = rest.
Proof. intros H. unfold replace. now rewrite H. Qed.

Lemma opening_not_empty (opening rest r0 : string) (c0 : ascii) :
  lowercase opening = String c0 r0 -> opening ++ rest <> "".
Proof. destruct opening; [discriminate|]. intros _. discriminate. Qed.
Lemma star_class_skip (p : ascii -> bool) (s : string) (k : string -> option string)
    (x : string) :
  match s with "" => True | String c _ => p c = false end ->
  k s = Some x ->
  exec_re (Star (Chr p)) s k = Some x.
Proof. intros Hs Hk. now apply (star_class_exec p "" s). Qed.

(** X26. The preambles [cleanSummary] takes away. Let the text go on with a
    topic without a colon, a colon, white space and a body that starts with
    none of [H], [h], [S], [s] and white space. Then [Here is a] or [Here's
    a], an optional [comprehensive], [brief] or [concise] and [summary], in
    any mix of cases, are removed with the topic, the colon and the white
    space, and the body is left, trimmed; so are [Here is a], a number or a
    range of two numbers and [sentence summary]; and so is [Summary:]
    followed by the white space. *)
Theorem preamble_removed (topic ws body : string) :
  all_chars (fun c => negb (Ascii.eqb c ":")) topic = true ->
  all_chars is_space ws = true ->
  trimStart body = body ->
  plain_start body = true ->
  (forall opening kind' word,
     In (lowercase opening) ["here is a "; "here's a "] ->
     In (lowercase kind') [""; "comprehensive "; "brief "; "concise "] ->
     lowercase word = "summary" ->
     cleanSummary (opening ++ kind' ++ word ++ topic ++ ":" ++ ws ++ body) = trim body)
  /\ (forall opening n1 n2 word,
        lowercase opening = "here is a " ->
        n1 <> "" ->
        all_chars (fun d => ((48 <=? nat_of_ascii d) && (nat_of_ascii d <=? 57))%nat) n1
        = true ->
        all_chars (fun d => ((48 <=? nat_of_ascii d) && (nat_of_ascii d <=? 57))%nat) n2
        = true ->
        lowercase word = " sentence summary" ->
        cleanSummary (opening ++ n1 ++ word ++ topic ++ ":" ++ ws ++ body) = trim body
        /\ cleanSummary (opening ++ n1 ++ "-" ++ n2 ++ word ++ topic ++ ":" ++ ws ++ body)
           = trim body)
  /\ (forall word,
        lowercase word = "summary:" -> cleanSummary (word ++ ws ++ body) = trim body).
Proof.
  intros Htopic Hws Hbody Hplain.
  assert (Hrest : forall p, In p patterns -> replace p body = body)
    by (intros p Hp; now apply replace_plain).
  assert (Hword_digit : forall word rest,
            lowercase word = " sentence summary" ->
            match word ++ rest with
            | "" => True
            | String c _ => ((48 <=? nat_of_ascii c) && (nat_of_ascii c <=? 57))%nat = false
            end).
  { intros word rest Hword. apply (starts_word _ _ _ _ _ Hword).
    intros c Hc. apply letter_no_digit. now rewrite Hc. }
  split; [|split].
  - intros opening kind' word Hop Hkind Hword.
    destruct Hop as [Hop|[Hop|[]]]; symmetry in Hop;
      rewrite cleanSummary_steps by (eapply opening_not_empty; exact Hop).
    + rewrite (replace_none numbered_summary).
      2: { unfold numbered_summary. rewrite exec_seq, lit_i_match by exact Hop.
           cbv beta. rewrite exec_seq. unfold digit. apply plus_class_fail_start.
           now apply kind_no_digit. }
      rewrite (replace_some here_is_summary _ body).
      2: { unfold here_is_summary. rewrite exec_seq, lit_i_match by exact Hop.
           cbv beta. rewrite exec_seq.
           apply kind_match; [exact Hkind | exact Hword|]. now apply summary_tail. }
      rewrite !Hrest by (cbn; tauto). reflexivity.
    + rewrite (replace_none numbered_summary)
        by (unfold numbered_summary; rewrite exec_seq; now apply here_is_not_heres).
      rewrite (replace_none here_is_summary)
        by (unfold here_is_summary; rewrite exec_seq; now apply here_is_not_heres).
      rewrite (replace_some heres_summary _ body).
      2: { unfold heres_summary. rewrite exec_seq, lit_i_match by exact Hop.
           cbv beta. rewrite exec_seq.
           apply kind_match; [exact Hkind | exact Hword|]. now apply summary_tail. }
      rewrite !Hrest by (cbn; tauto). reflexivity.
  - intros opening n1 n2 word Hop Hn1 Hd1 Hd2 Hword.
    destruct n1 as [|d n1]; [contradiction|]. split;
      rewrite cleanSummary_steps by (eapply opening_not_empty; exact Hop).
    + rewrite (replace_some numbered_summary _ body).
      2: { unfold numbered_summary. rewrite exec_seq, lit_i_match by exact Hop.
           cbv beta. rewrite exec_seq. unfold digit.
           apply plus_class_exec; [exact Hd1 | now apply Hword_digit|].
           rewrite exec_seq, opt_skip
             by (apply (starts_word _ _ _ _ _ Hword); intros c Hc; rewrite Hc; differ).
           rewrite exec_seq. apply star_class_skip; [now apply Hword_digit|].
           rewrite exec_seq, lit_i_match by exact Hword. now apply colon_tail. }
      rewrite !Hrest by (cbn; tauto). reflexivity.
    + rewrite (replace_some numbered_summary _ body).
      2: { unfold numbered_summary. rewrite exec_seq, lit_i_match by exact Hop.
           cbv beta. rewrite exec_seq. unfold digit.
           apply plus_class_exec; [exact Hd1 | reflexivity|].
           rewrite exec_seq. apply opt_take; [reflexivity|].
           rewrite exec_seq. apply star_class_exec; [exact Hd2 | now apply Hword_digit|].
           rewrite exec_seq, lit_i_match by exact Hword. now apply colon_tail. }
      rewrite !Hrest by (cbn; tauto). reflexivity.
  - intros word Hword.
    rewrite cleanSummary_steps by (eapply opening_not_empty; exact Hword).
    rewrite (replace_none numbered_summary)
      by (unfold numbered_summary; rewrite exec_seq; apply lit_i_fail_start;
          apply (starts_word _ _ _ _ _ Hword); intros c Hc; rewrite Hc; differ).
    rewrite (replace_none here_is_summary)
      by (unfold here_is_summary; rewrite exec_seq; apply lit_i_fail_start;
          apply (starts_word _ _ _ _ _ Hword); intros c Hc; rewrite Hc; differ).
    rewrite (replace_none heres_summary)
      by (unfold heres_summary; rewrite exec_seq; apply lit_i_fail_start;
          apply (starts_word _ _ _ _ _ Hword); intros c Hc; rewrite Hc; differ).
    rewrite (replace_some summary_colon _ body).
    2: { unfold summary_colon. rewrite exec_seq, lit_i_match by exact Hword.
         now apply spaces_then_body. }
    reflexivity.
Qed.
End Preambles.

(** ** The document list and the single upload *)

Section Documents.
Import JS Flow Flow.Notations Library.
Context {rt : JsRuntime}.
Variable engine_text : JsError -> string.

Notation fetchDocuments := (fetchDocuments engine_text).
Notation handleUpload := (handleUpload engine_text).

(** What [fetchDocuments] ends in once the answer gave a record. *)
Lemma fetchDocuments_record (status : Z) (text : string) (data err docs : JsValue)
    (st : Listing) :
  Chat.ok status = true ->
  JSON_parse text = Some data ->
  Get data "error" = Some err ->
  Get data "documents" = Some docs ->
  fetchDocuments (Response status (Some text)) st =
  let asked := fetch_documents (params st) (setError JNull (setIsLoading true st)) in
  let read := setDocuments (or_else docs (JArr []))
                (if ToBoolean err then setError err asked else asked) in
  setIsLoading false
    (if ToBoolean docs then
       match to_primitive (length_of docs) with
       | Some _ => read
       | None =>
           setDocuments (JArr [])
             (setError (JStr ("Failed to fetch documents: "
                              ++ String_of_error engine_text TypeError)) read)
       end
     else read).
Proof.
  intros Hok Hparse Herr Hdocs. unfold Library.fetchDocuments, load.
  unfold exec, try_finally, try_catch, bind, read, modify, orThrow, ret, throw.
  cbn. rewrite Hok. cbn. rewrite Hparse. cbn. rewrite Herr. cbn.
  destruct (ToBoolean err); cbn; rewrite Hdocs; cbn;
    (destruct (ToBoolean docs); cbn; [|reflexivity]);
    (destruct (to_primitive (length_of docs)); reflexivity).
Qed.

(** X27. What [fetchDocuments] leaves. It sends one query, with page 1 and
    limit 50 and with each filter only when it is set, and ends with
    [isLoading] false whatever the answer is. When the answer gives no
    record to read (the request is rejected, the body cannot be read, the
    status is no success, the text does not parse or parses to [null]) the
    list is empty and the error is a text that starts with [Failed to fetch
    documents: ]. So it is when the record has [documents] whose [length]
    the test before the logging cannot compare with 0: an object, or an
    array holding one, with a [toString] property of its own. Otherwise the
    list is [documents] of the record, or empty when that is missing, and
    the error is [error] of the record when there is one and [null] when
    not: an error of an earlier call does not stay. *)
Theorem document_list_after_fetch (answer : Answer) (st : Listing) :
  let st' := fetchDocuments answer st in
  isLoading st' = false
  /\ queries st' = (queries st ++ [params st])%list
  /\ (exists filters,
        params st = ([("page", "1"); ("limit", "50")] ++ filters)%list
        /\ forall k v, In (k, v) filters ->
             (k = "search" /\ v = searchTerm st /\ v <> "")
             \/ (k = "source" /\ v = filterSource st /\ v <> "all")
             \/ (k = "doc_type" /\ v = filterType st /\ v <> "all"))
  /\ (unreadable answer ->
      documents st' = JArr []
      /\ exists text, error st' = JStr ("Failed to fetch documents: " ++ text))
  /\ (forall status text data err docs,
        answer = Response status (Some text) ->
        Chat.ok status = true ->
        JSON_parse text = Some data ->
        Get data "error" = Some err ->
        Get data "documents" = Some docs ->
        (ToBoolean docs = true /\ to_primitive (length_of docs) = None ->
         documents st' = JArr []
         /\ exists text, error st' = JStr ("Failed to fetch documents: " ++ text))
        /\ (ToBoolean docs = false \/ to_primitive (length_of docs) <> None ->
            documents st' = or_else docs (JArr [])
            /\ error st' = (if ToBoolean err then err else JNull))).
Proof.
  intros st'. subst st'.
  assert (Hrecord : forall status text,
            answer = Response status (Some text) -> Chat.ok status = true ->
            forall data, JSON_parse text = Some data ->
            forall err, Get data "error" = Some err ->
            exists docs, Get data "documents" = Some docs).
  { intros status text _ _ data _ err Herr.
    destruct data as [| | | | | |fields]; try discriminate Herr; cbn;
      try (now eexists). destruct (lookup "documents" fields); now eexists. }
  split; [|split; [|split; [|split]]].
  - destruct answer as [|status [text|]]; try reflexivity.
    destruct (Chat.ok status) eqn:Hok.
    2: { unfold Library.fetchDocuments, load.
         unfold exec, try_finally, try_catch, bind, read, modify, orThrow, ret, throw.
         cbn. rewrite Hok. reflexivity. }
    destruct (JSON_parse text) as [data|] eqn:Hparse.
    2: { unfold Library.fetchDocuments, load.
         unfold exec, try_finally, try_catch, bind, read, modify, orThrow, ret, throw.
         cbn. rewrite Hok. cbn. rewrite Hparse. reflexivity. }
    destruct (Get data "error") as [err|] eqn:Herr.
    2: { unfold Library.fetchDocuments, load.
         unfold exec, try_finally, try_catch, bind, read, modify, orThrow, ret, throw.
         cbn. rewrite Hok. cbn. rewrite Hparse. cbn. rewrite Herr. reflexivity. }
    destruct (Hrecord _ _ eq_refl Hok _ Hparse _ Herr) as (docs & Hdocs).
    rewrite (fetchDocuments_record _ _ _ _ _ st Hok Hparse Herr Hdocs). reflexivity.
  - destruct answer as [|status [text|]]; try reflexivity.
    destruct (Chat.ok status) eqn:Hok.
    2: { unfold Library.fetchDocuments, load.
         unfold exec, try_finally, try_catch, bind, read, modify, orThrow, ret, throw.
         cbn. rewrite Hok. reflexivity. }
    destruct (JSON_parse text) as [data|] eqn:Hparse.
    2: { unfold Library.fetchDocuments, load.
         unfold exec, try_finally, try_catch, bind, read, modify, orThrow, ret, throw.
         cbn. rewrite Hok. cbn. rewrite Hparse. reflexivity. }
    destruct (Get data "error") as [err|] eqn:Herr.
    2: { unfold Library.fetchDocuments, load.
         unfold exec, try_finally, try_catch, bind, read, modify, orThrow, ret, throw.
         cbn. rewrite Hok. cbn. rewrite Hparse. cbn. rewrite Herr. reflexivity. }
    destruct (Hrecord _ _ eq_refl Hok _ Hparse _ Herr) as (docs & Hdocs).
    rewrite (fetchDocuments_record _ _ _ _ _ st Hok Hparse Herr Hdocs). cbv zeta.
    destruct (ToBoolean docs); [destruct (to_primitive (length_of docs))|];
      destruct (ToBoolean err); reflexivity.
  - eexists. split; [reflexivity|]. intros k v Hin.
    apply in_app_or in Hin. destruct Hin as [H|H].
    { cbn [ToBoolean] in H.
      destruct (String.eqb (searchTerm st) "") eqn:E; cbn [negb] in H; [destruct H|].
      destruct H as [H|[]]. injection H as <- <-. left.
      apply String.eqb_neq in E. now repeat split. }
    apply in_app_or in H. destruct H as [H|H].
    { destruct (String.eqb (filterSource st) "all") eqn:E; cbn [negb] in H; [destruct H|].
      destruct H as [H|[]]. injection H as <- <-. right. left.
      apply String.eqb_neq in E. now repeat split. }
    destruct (String.eqb (filterType st) "all") eqn:E; cbn [negb] in H; [destruct H|].
    destruct H as [H|[]]. injection H as <- <-. right. right.
    apply String.eqb_neq in E. now repeat split.
  - intros Hbad. unfold Library.fetchDocuments, load.
    unfold exec, try_finally, try_catch, bind, read, modify, orThrow, ret, throw.
    destruct answer as [|status [text|]]; cbn in Hbad |- *.
    + split; [reflexivity | now eexists].
    + destruct Hbad as [Hok|Hparse].
      * rewrite Hok. cbn. split; [reflexivity | now eexists].
      * destruct (Chat.ok status); cbn; [|split; [reflexivity | now eexists]].
        destruct (JSON_parse text) as [data|]; cbn; [|split; [reflexivity | now eexists]].
        rewrite Hparse. cbn. split; [reflexivity | now eexists].
    + split; [reflexivity | now eexists].
  - intros status text data err docs -> Hok Hparse Herr Hdocs.
    rewrite (fetchDocuments_record _ _ _ _ _ st Hok Hparse Herr Hdocs). cbv zeta. split.
    + intros [Htruthy Hthrows]. rewrite Htruthy, Hthrows. cbn.
      split; [reflexivity | now eexists].
    + intros Hfine.
      assert (Hread : forall asked,
                documents (setIsLoading false
                             (setDocuments (or_else docs (JArr []))
                                (if ToBoolean err then setError err asked else asked)))
                = or_else docs (JArr [])
                /\ (error asked = JNull ->
                    error (setIsLoading false
                             (setDocuments (or_else docs (JArr []))
                                (if ToBoolean err then setError err asked else asked)))
                    = (if ToBoolean err then err else JNull))).
      { intros asked. destruct (ToBoolean err); cbn; now split. }
      destruct (ToBoolean docs) eqn:Htruthy.
      * destruct Hfine as [Hfalse|Hconv]; [discriminate Hfalse|].
        destruct (to_primitive (length_of docs)) as [n|]; [|now destruct Hconv].
        split; [apply Hread | now apply Hread].
      * split; [apply Hread | now apply Hread].
Qed.
End Documents.

Section SingleUpload.
Import JS Flow Flow.Notations Upload Library.
Context {rt : JsRuntime}.
Variable engine_text : JsError -> string.

Notation handleUpload := (handleUpload engine_text).

(** X28. The single upload. Without a selected file, or with the display
    name empty, [handleUpload] only alerts: nothing is posted. Otherwise,
    for any display name that is not empty, white space included, it posts
    the file with the form once and ends with [isUploading] false whatever
    the answer is. When the upload is taken (a success status and a body
    that parses) the file is deselected, the form is reset and, outside the
    state, there is the success alert and then one reload of the list. When
    it is not, the file and the form stay for another try, and there is one
    alert and no reload. The batch is never touched. *)
Theorem single_upload_outcome (answer : Answer) (c : Console) :
  let c' := handleUpload answer c in
  ((selectedFile (admin c) = None \/ Upload.displayName (metadata (admin c)) = "") ->
   c' = on_admin (alert "Please select a file and provide a display name") c)
  /\ (forall file,
        selectedFile (admin c) = Some file ->
        Upload.displayName (metadata (admin c)) <> "" ->
        posted c' = (posted c ++ [(file, metadata (admin c))])%list
        /\ isUploading c' = false
        /\ batchFiles (admin c') = batchFiles (admin c)
        /\ (taken answer ->
            selectedFile (admin c') = None
            /\ metadata (admin c') = empty_form
            /\ effects (admin c') =
               (effects (admin c) ++ [Alert "Document uploaded successfully!";
                                      FetchDocuments])%list)
        /\ (~ taken answer ->
            selectedFile (admin c') = Some file
            /\ metadata (admin c') = metadata (admin c)
            /\ exists text, effects (admin c') = (effects (admin c) ++ [Alert text])%list)).
Proof.
  intros c'. subst c'. unfold Library.handleUpload. split.
  - intros [Hnone|Hname].
    + now rewrite Hnone.
    + destruct (selectedFile (admin c)); [|reflexivity]. now rewrite Hname.
  - intros file Hfile Hname. rewrite Hfile.
    apply String.eqb_neq in Hname. cbn [ToBoolean]. rewrite Hname. cbn [negb].
    unfold upload, exec, try_finally, try_catch, bind, modify, orThrow, ret, throw.
    assert (Hkept : forall text,
      let c' := setIsUploading false
                  (on_admin (alert text) (post file (metadata (admin c))
                                               (setIsUploading true c))) in
      ~ taken answer ->
      posted c' = (posted c ++ [(file, metadata (admin c))])%list
      /\ isUploading c' = false
      /\ batchFiles (admin c') = batchFiles (admin c)
      /\ (taken answer ->
          selectedFile (admin c') = None
          /\ metadata (admin c') = empty_form
          /\ effects (admin c') =
             (effects (admin c) ++ [Alert "Document uploaded successfully!";
                                    FetchDocuments])%list)
      /\ (~ taken answer ->
          selectedFile (admin c') = Some file
          /\ metadata (admin c') = metadata (admin c)
          /\ exists text, effects (admin c') = (effects (admin c) ++ [Alert text])%list)).
    { intros text c' Hnot. subst c'. cbn.
      split; [reflexivity|]. split; [reflexivity|]. split; [reflexivity|].
      split; [intros H; now destruct (Hnot H)|]. intros _.
      split; [exact Hfile|]. split; [reflexivity | now eexists]. }
    destruct answer as [|status body].
    { apply Hkept. intros (s & b & r & Heq & _). discriminate Heq. }
    destruct (Chat.ok status) eqn:Hok.
    + destruct (json body) as [result|] eqn:Hjson.
      * cbn. split; [reflexivity|]. split; [reflexivity|]. split; [reflexivity|].
        split.
        -- intros _. split; [reflexivity|]. split; [reflexivity|].
           now rewrite <- app_assoc.
        -- intros Hnot. exfalso. apply Hnot. now exists status, body, result.
      * apply Hkept. intros (s & b & r & Heq & _ & Hj). injection Heq as <- <-. congruence.
    + assert (Hnot : ~ taken (Response status body)).
      { intros (s & b & r & Heq & Hs & _). injection Heq as <- <-. congruence. }
      destruct body as [text|].
      * destruct (status =? 413)%Z; now apply Hkept.
      * now apply Hkept.
Qed.
End SingleUpload.

(** ** The actions on a document *)

Section Actions.
Import JS Flow Flow.Notations Library.
Context {rt : JsRuntime}.
Variable engine_text : JsError -> string.

Notation handleDeleteDocument := (handleDeleteDocument engine_text).

Lemma view_shape (doc : Document) (answer : Answer) (done : list Action) :
  (exists u, fileUrl doc = Some u /\ u <> ""
             /\ handleViewDocument doc answer done = (done ++ [Open (JStr u)])%list)
  \/ handleViewDocument doc answer done = done
  \/ exists after,
       handleViewDocument doc answer done =
       (done ++ Request "GET" (document_path doc ++ "/download?bucket=" ++ bucket_of doc)
             :: after)%list
       /\ (after = [] \/ (exists url, after = [Open url])
           \/ after = [Notify "Failed to open document"]).
Proof.
  unfold handleViewDocument.
  destruct (fileUrl doc) as [u|] eqn:Hu.
  - cbn [ToBoolean or_empty]. destruct (String.eqb u "") eqn:E; cbn [negb].
    + apply String.eqb_eq in E. subst u.
      destruct (negb (String.eqb (filename doc) "")); [|now right; left].
      right. right.
      unfold exec, try_catch, bind, act, modify, orThrow, ret, throw.
      destruct answer as [|status body]; cbn.
      { eexists. rewrite <- app_assoc. split; [reflexivity | now right; right]. }
      destruct (Chat.ok status); cbn.
      * destruct (json body) as [data|]; cbn.
        -- destruct (Get data "url") as [url|]; cbn;
             [destruct (to_primitive url); cbn|]; eexists; rewrite <- app_assoc;
             (split; [reflexivity|]);
             first [right; left; now eexists | now right; right].
        -- eexists. rewrite <- app_assoc. split; [reflexivity | now right; right].
      * eexists. split; [reflexivity | now left].
    + left. exists u. apply String.eqb_neq in E. now repeat split.
  - destruct (ToBoolean (JStr (filename doc))); [|now right; left].
    right. right.
    unfold exec, try_catch, bind, act, modify, orThrow, ret, throw.
    destruct answer as [|status body]; cbn.
    { eexists. rewrite <- app_assoc. split; [reflexivity | now right; right]. }
    destruct (Chat.ok status); cbn.
    * destruct (json body) as [data|]; cbn.
      -- destruct (Get data "url") as [url|]; cbn;
           [destruct (to_primitive url); cbn|]; eexists; rewrite <- app_assoc;
           (split; [reflexivity|]);
           first [right; left; now eexists | now right; right].
      -- eexists. rewrite <- app_assoc. split; [reflexivity | now right; right].
    * eexists. split; [reflexivity | now left].
Qed.

Lemma download_shape (doc : Document) (answer : Answer) (done : list Action) :
  allowDownload doc = true ->
  exists after,
    handleDownloadDocument doc answer done =
    (done ++ Request "GET" (document_path doc ++ "/download?bucket=" ++ bucket_of doc)
          :: [after])%list
    /\ ((exists url, after = Save url (displayName doc ++ ".pdf"))
        \/ after = Notify "Failed to download document").
Proof.
  intros Hallow. unfold handleDownloadDocument. rewrite Hallow. cbn [negb].
  unfold exec, try_catch, bind, act, modify, orThrow, ret, throw.
  destruct answer as [|status body]; cbn.
  { eexists. rewrite <- app_assoc. split; [reflexivity | now right]. }
  destruct (Chat.ok status); cbn.
  - destruct (json body) as [data|]; cbn.
    + destruct (Get data "url") as [url|]; cbn;
        [destruct (to_primitive url); cbn|]; eexists; rewrite <- app_assoc;
        (split; [reflexivity|]); first [left; now eexists | now right].
    + eexists. rewrite <- app_assoc. split; [reflexivity | now right].
  - eexists. rewrite <- app_assoc. split; [reflexivity | now right].
Qed.

Lemma delete_shape (doc : Document) (answer : Answer) (done : list Action) :
  exists after,
    handleDeleteDocument doc true answer done =
    (done ++ Request "DELETE" (document_path doc ++ "?bucket=" ++ bucket_of doc)
          :: after)%list
    /\ ((after = [Notify "Document deleted successfully"; Refresh]
         /\ exists status body, answer = Response status body /\ Chat.ok status = true)
        \/ ((exists text, after = [Notify ("Failed to delete document: " ++ text)])
            /\ forall status body, answer = Response status body -> Chat.ok status = false)).
Proof.
  unfold Library.handleDeleteDocument. cbn [negb].
  unfold exec, try_catch, bind, act, modify, orThrow, ret, throw.
  destruct answer as [|status body]; cbn.
  { eexists. rewrite <- app_assoc. split; [reflexivity|]. right.
    split; [now eexists | intros s b H; discriminate H]. }
  destruct (Chat.ok status) eqn:Hok; cbn.
  - eexists. rewrite <- !app_assoc. split; [reflexivity|]. left.
    split; [reflexivity | now exists status, body].
  - destruct body as [text|]; cbn; eexists; rewrite <- app_assoc;
      (split; [reflexivity|]); right;
      (split; [now eexists | intros s b H; now injection H as <- <-]).
Qed.

(** X29. The actions on a document and their guards. A download that the
    document does not allow is refused with an alert and no request; a
    deletion that is not confirmed does nothing at all; a document with a
    URL of its own is opened with it and no request. Otherwise each action
    makes one request, for the path of the document with its encoded file
    name and with its bucket or [documents]: the view and the download a
    [GET] of the download link, the deletion a [DELETE]. The list is
    reloaded after a deletion with a success status and after nothing
    else. *)
Theorem document_actions_guarded (doc : Document) (answer : Answer) (done : list Action) :
  (allowDownload doc = false ->
   handleDownloadDocument doc answer done =
   (done ++ [Notify "Download is not permitted for this document"])%list)
  /\ handleDeleteDocument doc false answer done = done
  /\ (forall u, fileUrl doc = Some u -> u <> "" ->
        handleViewDocument doc answer done = (done ++ [Open (JStr u)])%list)
  /\ (exists added,
        handleViewDocument doc answer done = (done ++ added)%list
        /\ (List.length (filter is_request added) <= 1)%nat
        /\ (forall method path, In (Request method path) added ->
              method = "GET"
              /\ path = document_path doc ++ "/download?bucket=" ++ bucket_of doc)
        /\ ~ In Refresh added)
  /\ (exists added,
        handleDownloadDocument doc answer done = (done ++ added)%list
        /\ (List.length (filter is_request added) <= 1)%nat
        /\ (forall method path, In (Request method path) added ->
              method = "GET"
              /\ path = document_path doc ++ "/download?bucket=" ++ bucket_of doc)
        /\ ~ In Refresh added)
  /\ (exists added,
        handleDeleteDocument doc true answer done = (done ++ added)%list
        /\ List.length (filter is_request added) = 1%nat
        /\ (forall method path, In (Request method path) added ->
              method = "DELETE"
              /\ path = document_path doc ++ "?bucket=" ++ bucket_of doc)
        /\ (In Refresh added <->
            exists status body, answer = Response status body /\ Chat.ok status = true)).
Proof.
  split; [|split; [|split; [|split; [|split]]]].
  - intros H. unfold handleDownloadDocument. now rewrite H.
  - reflexivity.
  - intros u Hu Hne. unfold handleViewDocument. rewrite Hu. cbn [ToBoolean or_empty].
    apply String.eqb_neq in Hne. now rewrite Hne.
  - destruct (view_shape doc answer done) as [(u & _ & _ & ->)|[->|(after & -> & Hafter)]].
    + exists [Open (JStr u)]. split; [reflexivity|]. split; [cbn; lia|].
      split; [intros m q [H|[]]; discriminate H | intros [H|[]]; discriminate H].
    + exists []. rewrite app_nil_r. split; [reflexivity|]. split; [cbn; lia|].
      split; [intros m q [] | intros []].
    + eexists. split; [reflexivity|].
      destruct Hafter as [->|[(url & ->)| ->]]; (split; [cbn; lia|]); split;
        try (intros m q [H|H]; [injection H as <- <-; now split|]);
        try (intros [H|H]; [discriminate H|]);
        repeat match goal with
               | H : In _ [] |- _ => destruct H
               | H : In _ (_ :: _) |- _ => destruct H as [H|H]; [discriminate H|]
               end.
  - destruct (allowDownload doc) eqn:Hallow.
    + destruct (download_shape doc answer done Hallow) as (after & -> & Hafter).
      eexists. split; [reflexivity|].
      destruct Hafter as [(url & ->)| ->]; (split; [cbn; lia|]); split;
        try (intros m q [H|H]; [injection H as <- <-; now split|]);
        try (intros [H|H]; [discriminate H|]);
        repeat match goal with
               | H : In _ [] |- _ => destruct H
               | H : In _ (_ :: _) |- _ => destruct H as [H|H]; [discriminate H|]
               end.
    + unfold handleDownloadDocument. rewrite Hallow. eexists. split; [reflexivity|].
      split; [cbn; lia|].
      split; [intros m q [H|[]]; discriminate H | intros [H|[]]; discriminate H].
  - destruct (delete_shape doc answer done) as (after & -> & Hafter).
    eexists. split; [reflexivity|].
    destruct Hafter as [(-> & Hok)|((text & ->) & Hbad)].
    + split; [reflexivity|]. split.
      * intros m q [H|[H|[H|[]]]]; try discriminate H. injection H as <- <-. now split.
      * split; [intros _; exact Hok | intros _; cbn; tauto].
    + split; [reflexivity|]. split.
      * intros m q [H|[H|[]]]; try discriminate H. injection H as <- <-. now split.
      * split.
        -- intros [H|[H|[]]]; discriminate H.
        -- intros (status & body & Heq & Hok). rewrite (Hbad status body Heq) in Hok.
           discriminate Hok.
Qed.
End Actions.

(** ** The system prompt *)

Section SystemPrompt.
Import JS Flow Flow.Notations Library.
Context {rt : JsRuntime}.
Variable engine_text : JsError -> string.

Notation handleSavePrompt := (handleSavePrompt engine_text).
Notation handleResetPrompt := (handleResetPrompt engine_text).

End SystemPrompt.

(** ** The properties of the cards and the console on samples *)

Section MoreSamples.
Import JS Upload Cards.

(** A summary with a topic, and a body that starts with a capital [T]. *)
Lemma preamble_removed_witness :
  cleanSummary "HERE'S A brief Summary of the annual report:  The year went well. "
  = trim "The year went well. ".
Proof.
  refine (proj1 (preamble_removed " of the annual report" "  " "The year went well. "
                   eq_refl eq_refl eq_refl eq_refl)
            "HERE'S A " "brief " "Summary" _ _ eq_refl).
  - right. left. reflexivity.
  - right. right. left. reflexivity.
Defined.
End MoreSamples.
